(** * PyMongo synchronous cursor: a shallow embedding and its properties

    The development follows [pymongo/synchronous/cursor.py].  A cursor is a
    record with one field per attribute of the Python object; a method is a
    computation in a small state-and-exception monad over a [World] made of
    the cursor, the trace of the calls it made to its collaborators (the
    client, the connection pool, the server) and the number of exchanges
    performed so far.  The server is an oracle of the environment. *)

From Stdlib Require Import ZArith List String Ascii Bool Lia.
Import ListNotations.

Set Primitive Projections.

Local Open Scope string_scope.
Local Open Scope Z_scope.

(** ** Python values and documents *)

#[warnings="-register-all"] Inductive pyval : Type :=
| PNone
| PBool (b : bool)
| PInt (z : Z)
| PStr (s : string)
| PCode (s : string)
| PList (l : list pyval)
| PDict (d : list (string * pyval)).

(** A document is an insertion-ordered mapping from keys to values
    (a Python [dict], [SON] or [OrderedDict]). *)
Definition document : Type := list (string * pyval).

(** Python truthiness, as used by [if x:]. *)
Definition truthy (v : pyval) : bool :=
  match v with
  | PNone => false
  | PBool b => b
  | PInt z => negb (z =? 0)
  | PStr s | PCode s => negb (String.eqb s EmptyString)
  | PList l => match l with [] => false | _ => true end
  | PDict d => match d with [] => false | _ => true end
  end.

Definition truthy_Z (z : Z) : bool := negb (z =? 0).

Definition truthy_optZ (o : option Z) : bool :=
  match o with Some z => truthy_Z z | None => false end.

Definition truthy_doc (d : document) : bool :=
  match d with [] => false | _ => true end.

Definition truthy_optdoc (o : option document) : bool :=
  match o with Some d => truthy_doc d | None => false end.

Definition is_some {A} (o : option A) : bool :=
  match o with Some _ => true | None => false end.

(** [k in d] *)
Fixpoint dict_contains (k : string) (d : document) : bool :=
  match d with
  | [] => false
  | (k', _) :: d' => String.eqb k k' || dict_contains k d'
  end.

(** [d[k] = v]: replaces the value in place when the key exists, appends the
    key otherwise. *)
Fixpoint dict_set (k : string) (v : pyval) (d : document) : document :=
  match d with
  | [] => [(k, v)]
  | (k', v') :: d' =>
      if String.eqb k k' then (k, v) :: d' else (k', v') :: dict_set k v d'
  end.

(** [d.update(other)] *)
Definition dict_update (d other : document) : document :=
  fold_left (fun acc kv => dict_set (fst kv) (snd kv) acc) other d.

(** [next(iter(d))], when [d] is not empty. *)
Definition first_key (d : document) : option string :=
  match d with [] => None | (k, _) :: _ => Some k end.

Definition len {A} (l : list A) : Z := Z.of_nat (List.length l).

(** ** Constants of [pymongo.cursor_shared] *)

(** Modelled from the spec: [pymongo/cursor_shared.py] is not among the
    sources at hand.  The glossary's tailable ("can report more results over
    time"), await and exhaust variants are the wire-protocol query flags; the
    docstring of [add_option] fixes the tailable flag at 2, and the cursor
    type "tailable-with-await" is the tailable flag together with the
    await-data flag. *)
Module QUERY_OPTIONS.
Definition tailable_cursor : Z := 2.
Definition secondary_okay : Z := 4.
Definition oplog_replay : Z := 8.
Definition no_timeout : Z := 16.
Definition await_data : Z := 32.
Definition exhaust : Z := 64.
Definition partial : Z := 128.
End QUERY_OPTIONS.

Module CursorType.
Definition NON_TAILABLE : Z := 0.
Definition TAILABLE : Z := QUERY_OPTIONS.tailable_cursor.
Definition TAILABLE_AWAIT : Z := Z.lor TAILABLE QUERY_OPTIONS.await_data.
Definition EXHAUST : Z := QUERY_OPTIONS.exhaust.
End CursorType.

(** [exc.code in codes], for the code of a failure, which may be absent *)
Definition in_codes (code : option Z) (codes : list Z) : bool :=
  match code with
  | Some z => existsb (Z.eqb z) codes
  | None => false
  end.

(** ** Collaborators: connections, sessions, operations, responses *)

Definition connection : Type := nat.
Definition session : Type := nat.
Definition read_preference : Type := nat.
Definition address : Type := (string * Z)%type.

(** [_CursorAddress(address, namespace)] *)
Record CursorAddress : Type := mkCursorAddress {
  ca_address : address;
  ca_namespace : string
}.

(** [class _ConnectionManager]: used with exhaust cursors to ensure the
    connection is returned. *)
Record ConnectionManager : Type := mkConnectionManager {
  conn : option connection;
  more_to_come : bool
}.

(** The arguments [_refresh] gives to [_query_class]. *)
Record Query : Type := mkQuery {
  q_flags : Z;
  q_db : string;
  q_coll : string;
  q_ntoskip : Z;
  q_spec : document;
  q_fields : option document;
  q_read_preference : read_preference;
  q_limit : Z;
  q_batch_size : Z;
  q_collation : option document;
  q_session : option session;
  q_allow_disk_use : option bool;
  q_exhaust : bool
}.

(** The arguments [_refresh] gives to [_getmore_class]. *)
Record GetMore : Type := mkGetMore {
  g_db : string;
  g_coll : string;
  g_ntoreturn : Z;
  g_cursor_id : Z;
  g_read_preference : read_preference;
  g_session : option session;
  g_max_await_time_ms : option Z;
  g_sock_mgr : option ConnectionManager;
  g_exhaust : bool;
  g_comment : pyval
}.

Inductive operation : Type :=
| OpQuery (q : Query)
| OpGetMore (g : GetMore).

(** What [_send_message] reads from a response.  A response "from command"
    holds the reply documents and, in the first of them, the [cursor]
    sub-document with its [id], its batch ([firstBatch] or [nextBatch]) and
    an optional [ns]; a legacy response holds the [_OpReply] header. *)
Inductive payload : Type :=
| FromCommand (docs : list document) (cursor_id : Z) (batch : list document)
    (ns : option string)
| FromOpReply (docs : list document) (cursor_id : Z) (number_returned : Z).

Record Response : Type := mkResponse {
  r_address : address;
  r_pinned : option (connection * bool);   (* a [PinnedResponse]: conn, more_to_come *)
  r_name : string;                         (* [operation.name] after the exchange *)
  r_payload : payload
}.

(** ** Exceptions and results *)

Inductive exn : Type :=
| TypeError
| ValueError
| IndexError
| InvalidOperation
| StopIteration
| AssertionError
| OperationFailure (code : option Z) (timeout : bool)
| ConnectionFailure
| KeyboardInterrupt
| OutOfFuel.

Inductive res (A : Type) : Type :=
| Ok (a : A)
| Raise (e : exn).
Arguments Ok {A} a.
Arguments Raise {A} e.

Inductive outcome : Type :=
| Responds (r : Response)
| Fails (e : exn).

(** Every call a cursor makes out of itself. *)
Inductive event : Type :=
| EvEnsureSession
| EvRunOperation (op : operation)
| EvKillCursors (locked : bool) (cursor_id : Z) (addr : option CursorAddress)
| EvUnpin (c : connection)
| EvEndSession (s : session).

Definition is_exchange (e : event) : bool :=
  match e with EvRunOperation _ => true | _ => false end.

Definition is_kill (e : event) : bool :=
  match e with EvKillCursors _ _ _ => true | _ => false end.

Definition is_unpin (e : event) : bool :=
  match e with EvUnpin _ => true | _ => false end.

(** The environment of a cursor: its collection's client and the helpers
    the module imports. *)
Record Env : Type := mkEnv {
  is_mongos : bool;
  encrypter : bool;
  database_name : string;
  collection_name : string;
  ensure_session : option session;
  read_preference_for : option session -> read_preference;
  (** [client._run_operation], at the n-th exchange *)
  run_operation : nat -> operation -> outcome;
  (** [helpers_shared._index_list(key_or_list, direction)] *)
  index_list : pyval -> pyval -> res pyval;
  (** [helpers_shared._index_document(index_list)] *)
  index_document : pyval -> res document;
  validate_collation_or_none : pyval -> res (option document);
  (** [_CURSOR_CLOSED_ERRORS], a constant of [pymongo.cursor_shared], which
      is not among the sources at hand: the codes of the failures that mean
      that the server has closed the cursor already.  Its value is left
      open: what is proved holds for every set of codes. *)
  _CURSOR_CLOSED_ERRORS : list Z
}.

(** ** The cursor *)

Record Cursor : Type := mkCursor {
  _id : option Z;
  _exhaust : bool;
  _sock_mgr : option ConnectionManager;
  _killed : bool;
  _session : option session;
  _explicit_session : bool;
  _let : option document;
  _spec : document;
  _has_filter : bool;
  _projection : option document;
  _skip : Z;
  _limit : Z;
  _batch_size : Z;
  _ordering : option document;
  _max_scan : option Z;
  _explain : bool;
  _comment : pyval;
  _max_time_ms : option Z;
  _max_await_time_ms : option Z;
  _max : option document;
  _min : option document;
  _collation : option document;
  _return_key : option bool;
  _show_record_id : option bool;
  _allow_disk_use : option bool;
  _snapshot : option bool;
  _hint : pyval;
  _empty : bool;
  _data : list document;
  _address : option address;
  _retrieved : Z;
  _read_preference : option read_preference;
  _query_flags : Z;
  _cursor_type : Z;
  _dbname : string;
  _collname : string;
  _exhaust_checked : bool
}.

Definition set_id (v : option Z) (c : Cursor) : Cursor :=
  let 'mkCursor _ x1 x2 x3 x4 x5 x6 x7 x8 x9 x10 x11 x12 x13 x14 x15 x16 x17
      x18 x19 x20 x21 x22 x23 x24 x25 x26 x27 x28 x29 x30 x31 x32 x33 x34 x35
      x36 := c in
  mkCursor v x1 x2 x3 x4 x5 x6 x7 x8 x9 x10 x11 x12 x13 x14 x15 x16 x17 x18
    x19 x20 x21 x22 x23 x24 x25 x26 x27 x28 x29 x30 x31 x32 x33 x34 x35 x36.

Definition set_exhaust (v : bool) (c : Cursor) : Cursor :=
  let 'mkCursor x0 _ x2 x3 x4 x5 x6 x7 x8 x9 x10 x11 x12 x13 x14 x15 x16 x17
      x18 x19 x20 x21 x22 x23 x24 x25 x26 x27 x28 x29 x30 x31 x32 x33 x34 x35
      x36 := c in
  mkCursor x0 v x2 x3 x4 x5 x6 x7 x8 x9 x10 x11 x12 x13 x14 x15 x16 x17 x18
    x19 x20 x21 x22 x23 x24 x25 x26 x27 x28 x29 x30 x31 x32 x33 x34 x35 x36.

Definition set_sock_mgr (v : option ConnectionManager) (c : Cursor) : Cursor :=
  let 'mkCursor x0 x1 _ x3 x4 x5 x6 x7 x8 x9 x10 x11 x12 x13 x14 x15 x16 x17
      x18 x19 x20 x21 x22 x23 x24 x25 x26 x27 x28 x29 x30 x31 x32 x33 x34 x35
      x36 := c in
  mkCursor x0 x1 v x3 x4 x5 x6 x7 x8 x9 x10 x11 x12 x13 x14 x15 x16 x17 x18
    x19 x20 x21 x22 x23 x24 x25 x26 x27 x28 x29 x30 x31 x32 x33 x34 x35 x36.

Definition set_killed (v : bool) (c : Cursor) : Cursor :=
  let 'mkCursor x0 x1 x2 _ x4 x5 x6 x7 x8 x9 x10 x11 x12 x13 x14 x15 x16 x17
      x18 x19 x20 x21 x22 x23 x24 x25 x26 x27 x28 x29 x30 x31 x32 x33 x34 x35
      x36 := c in
  mkCursor x0 x1 x2 v x4 x5 x6 x7 x8 x9 x10 x11 x12 x13 x14 x15 x16 x17 x18
    x19 x20 x21 x22 x23 x24 x25 x26 x27 x28 x29 x30 x31 x32 x33 x34 x35 x36.

Definition set_session (v : option session) (c : Cursor) : Cursor :=
  let 'mkCursor x0 x1 x2 x3 _ x5 x6 x7 x8 x9 x10 x11 x12 x13 x14 x15 x16 x17
      x18 x19 x20 x21 x22 x23 x24 x25 x26 x27 x28 x29 x30 x31 x32 x33 x34 x35
      x36 := c in
  mkCursor x0 x1 x2 x3 v x5 x6 x7 x8 x9 x10 x11 x12 x13 x14 x15 x16 x17 x18
    x19 x20 x21 x22 x23 x24 x25 x26 x27 x28 x29 x30 x31 x32 x33 x34 x35 x36.

Definition set_spec (v : document) (c : Cursor) : Cursor :=
  let 'mkCursor x0 x1 x2 x3 x4 x5 x6 _ x8 x9 x10 x11 x12 x13 x14 x15 x16 x17
      x18 x19 x20 x21 x22 x23 x24 x25 x26 x27 x28 x29 x30 x31 x32 x33 x34 x35
      x36 := c in
  mkCursor x0 x1 x2 x3 x4 x5 x6 v x8 x9 x10 x11 x12 x13 x14 x15 x16 x17 x18
    x19 x20 x21 x22 x23 x24 x25 x26 x27 x28 x29 x30 x31 x32 x33 x34 x35 x36.

Definition set_skip (v : Z) (c : Cursor) : Cursor :=
  let 'mkCursor x0 x1 x2 x3 x4 x5 x6 x7 x8 x9 _ x11 x12 x13 x14 x15 x16 x17
      x18 x19 x20 x21 x22 x23 x24 x25 x26 x27 x28 x29 x30 x31 x32 x33 x34 x35
      x36 := c in
  mkCursor x0 x1 x2 x3 x4 x5 x6 x7 x8 x9 v x11 x12 x13 x14 x15 x16 x17 x18 x19
    x20 x21 x22 x23 x24 x25 x26 x27 x28 x29 x30 x31 x32 x33 x34 x35 x36.

Definition set_limit (v : Z) (c : Cursor) : Cursor :=
  let 'mkCursor x0 x1 x2 x3 x4 x5 x6 x7 x8 x9 x10 _ x12 x13 x14 x15 x16 x17
      x18 x19 x20 x21 x22 x23 x24 x25 x26 x27 x28 x29 x30 x31 x32 x33 x34 x35
      x36 := c in
  mkCursor x0 x1 x2 x3 x4 x5 x6 x7 x8 x9 x10 v x12 x13 x14 x15 x16 x17 x18 x19
    x20 x21 x22 x23 x24 x25 x26 x27 x28 x29 x30 x31 x32 x33 x34 x35 x36.

Definition set_batch_size (v : Z) (c : Cursor) : Cursor :=
  let 'mkCursor x0 x1 x2 x3 x4 x5 x6 x7 x8 x9 x10 x11 _ x13 x14 x15 x16 x17
      x18 x19 x20 x21 x22 x23 x24 x25 x26 x27 x28 x29 x30 x31 x32 x33 x34 x35
      x36 := c in
  mkCursor x0 x1 x2 x3 x4 x5 x6 x7 x8 x9 x10 x11 v x13 x14 x15 x16 x17 x18 x19
    x20 x21 x22 x23 x24 x25 x26 x27 x28 x29 x30 x31 x32 x33 x34 x35 x36.

Definition set_ordering (v : option document) (c : Cursor) : Cursor :=
  let 'mkCursor x0 x1 x2 x3 x4 x5 x6 x7 x8 x9 x10 x11 x12 _ x14 x15 x16 x17
      x18 x19 x20 x21 x22 x23 x24 x25 x26 x27 x28 x29 x30 x31 x32 x33 x34 x35
      x36 := c in
  mkCursor x0 x1 x2 x3 x4 x5 x6 x7 x8 x9 x10 x11 x12 v x14 x15 x16 x17 x18 x19
    x20 x21 x22 x23 x24 x25 x26 x27 x28 x29 x30 x31 x32 x33 x34 x35 x36.

Definition set_max_scan (v : option Z) (c : Cursor) : Cursor :=
  let 'mkCursor x0 x1 x2 x3 x4 x5 x6 x7 x8 x9 x10 x11 x12 x13 _ x15 x16 x17
      x18 x19 x20 x21 x22 x23 x24 x25 x26 x27 x28 x29 x30 x31 x32 x33 x34 x35
      x36 := c in
  mkCursor x0 x1 x2 x3 x4 x5 x6 x7 x8 x9 x10 x11 x12 x13 v x15 x16 x17 x18 x19
    x20 x21 x22 x23 x24 x25 x26 x27 x28 x29 x30 x31 x32 x33 x34 x35 x36.

Definition set_explain (v : bool) (c : Cursor) : Cursor :=
  let 'mkCursor x0 x1 x2 x3 x4 x5 x6 x7 x8 x9 x10 x11 x12 x13 x14 _ x16 x17
      x18 x19 x20 x21 x22 x23 x24 x25 x26 x27 x28 x29 x30 x31 x32 x33 x34 x35
      x36 := c in
  mkCursor x0 x1 x2 x3 x4 x5 x6 x7 x8 x9 x10 x11 x12 x13 x14 v x16 x17 x18 x19
    x20 x21 x22 x23 x24 x25 x26 x27 x28 x29 x30 x31 x32 x33 x34 x35 x36.

Definition set_comment (v : pyval) (c : Cursor) : Cursor :=
  let 'mkCursor x0 x1 x2 x3 x4 x5 x6 x7 x8 x9 x10 x11 x12 x13 x14 x15 _ x17
      x18 x19 x20 x21 x22 x23 x24 x25 x26 x27 x28 x29 x30 x31 x32 x33 x34 x35
      x36 := c in
  mkCursor x0 x1 x2 x3 x4 x5 x6 x7 x8 x9 x10 x11 x12 x13 x14 x15 v x17 x18 x19
    x20 x21 x22 x23 x24 x25 x26 x27 x28 x29 x30 x31 x32 x33 x34 x35 x36.

Definition set_max_time_ms (v : option Z) (c : Cursor) : Cursor :=
  let 'mkCursor x0 x1 x2 x3 x4 x5 x6 x7 x8 x9 x10 x11 x12 x13 x14 x15 x16 _
      x18 x19 x20 x21 x22 x23 x24 x25 x26 x27 x28 x29 x30 x31 x32 x33 x34 x35
      x36 := c in
  mkCursor x0 x1 x2 x3 x4 x5 x6 x7 x8 x9 x10 x11 x12 x13 x14 x15 x16 v x18 x19
    x20 x21 x22 x23 x24 x25 x26 x27 x28 x29 x30 x31 x32 x33 x34 x35 x36.

Definition set_max_await_time_ms (v : option Z) (c : Cursor) : Cursor :=
  let 'mkCursor x0 x1 x2 x3 x4 x5 x6 x7 x8 x9 x10 x11 x12 x13 x14 x15 x16 x17
      _ x19 x20 x21 x22 x23 x24 x25 x26 x27 x28 x29 x30 x31 x32 x33 x34 x35
      x36 := c in
  mkCursor x0 x1 x2 x3 x4 x5 x6 x7 x8 x9 x10 x11 x12 x13 x14 x15 x16 x17 v x19
    x20 x21 x22 x23 x24 x25 x26 x27 x28 x29 x30 x31 x32 x33 x34 x35 x36.

Definition set_max (v : option document) (c : Cursor) : Cursor :=
  let 'mkCursor x0 x1 x2 x3 x4 x5 x6 x7 x8 x9 x10 x11 x12 x13 x14 x15 x16 x17
      x18 _ x20 x21 x22 x23 x24 x25 x26 x27 x28 x29 x30 x31 x32 x33 x34 x35
      x36 := c in
  mkCursor x0 x1 x2 x3 x4 x5 x6 x7 x8 x9 x10 x11 x12 x13 x14 x15 x16 x17 x18 v
    x20 x21 x22 x23 x24 x25 x26 x27 x28 x29 x30 x31 x32 x33 x34 x35 x36.

Definition set_min (v : option document) (c : Cursor) : Cursor :=
  let 'mkCursor x0 x1 x2 x3 x4 x5 x6 x7 x8 x9 x10 x11 x12 x13 x14 x15 x16 x17
      x18 x19 _ x21 x22 x23 x24 x25 x26 x27 x28 x29 x30 x31 x32 x33 x34 x35
      x36 := c in
  mkCursor x0 x1 x2 x3 x4 x5 x6 x7 x8 x9 x10 x11 x12 x13 x14 x15 x16 x17 x18
    x19 v x21 x22 x23 x24 x25 x26 x27 x28 x29 x30 x31 x32 x33 x34 x35 x36.

Definition set_collation (v : option document) (c : Cursor) : Cursor :=
  let 'mkCursor x0 x1 x2 x3 x4 x5 x6 x7 x8 x9 x10 x11 x12 x13 x14 x15 x16 x17
      x18 x19 x20 _ x22 x23 x24 x25 x26 x27 x28 x29 x30 x31 x32 x33 x34 x35
      x36 := c in
  mkCursor x0 x1 x2 x3 x4 x5 x6 x7 x8 x9 x10 x11 x12 x13 x14 x15 x16 x17 x18
    x19 x20 v x22 x23 x24 x25 x26 x27 x28 x29 x30 x31 x32 x33 x34 x35 x36.

Definition set_allow_disk_use (v : option bool) (c : Cursor) : Cursor :=
  let 'mkCursor x0 x1 x2 x3 x4 x5 x6 x7 x8 x9 x10 x11 x12 x13 x14 x15 x16 x17
      x18 x19 x20 x21 x22 x23 _ x25 x26 x27 x28 x29 x30 x31 x32 x33 x34 x35
      x36 := c in
  mkCursor x0 x1 x2 x3 x4 x5 x6 x7 x8 x9 x10 x11 x12 x13 x14 x15 x16 x17 x18
    x19 x20 x21 x22 x23 v x25 x26 x27 x28 x29 x30 x31 x32 x33 x34 x35 x36.

Definition set_hint (v : pyval) (c : Cursor) : Cursor :=
  let 'mkCursor x0 x1 x2 x3 x4 x5 x6 x7 x8 x9 x10 x11 x12 x13 x14 x15 x16 x17
      x18 x19 x20 x21 x22 x23 x24 x25 _ x27 x28 x29 x30 x31 x32 x33 x34 x35
      x36 := c in
  mkCursor x0 x1 x2 x3 x4 x5 x6 x7 x8 x9 x10 x11 x12 x13 x14 x15 x16 x17 x18
    x19 x20 x21 x22 x23 x24 x25 v x27 x28 x29 x30 x31 x32 x33 x34 x35 x36.

Definition set_empty (v : bool) (c : Cursor) : Cursor :=
  let 'mkCursor x0 x1 x2 x3 x4 x5 x6 x7 x8 x9 x10 x11 x12 x13 x14 x15 x16 x17
      x18 x19 x20 x21 x22 x23 x24 x25 x26 _ x28 x29 x30 x31 x32 x33 x34 x35
      x36 := c in
  mkCursor x0 x1 x2 x3 x4 x5 x6 x7 x8 x9 x10 x11 x12 x13 x14 x15 x16 x17 x18
    x19 x20 x21 x22 x23 x24 x25 x26 v x28 x29 x30 x31 x32 x33 x34 x35 x36.

Definition set_data (v : list document) (c : Cursor) : Cursor :=
  let 'mkCursor x0 x1 x2 x3 x4 x5 x6 x7 x8 x9 x10 x11 x12 x13 x14 x15 x16 x17
      x18 x19 x20 x21 x22 x23 x24 x25 x26 x27 _ x29 x30 x31 x32 x33 x34 x35
      x36 := c in
  mkCursor x0 x1 x2 x3 x4 x5 x6 x7 x8 x9 x10 x11 x12 x13 x14 x15 x16 x17 x18
    x19 x20 x21 x22 x23 x24 x25 x26 x27 v x29 x30 x31 x32 x33 x34 x35 x36.

Definition set_address (v : option address) (c : Cursor) : Cursor :=
  let 'mkCursor x0 x1 x2 x3 x4 x5 x6 x7 x8 x9 x10 x11 x12 x13 x14 x15 x16 x17
      x18 x19 x20 x21 x22 x23 x24 x25 x26 x27 x28 _ x30 x31 x32 x33 x34 x35
      x36 := c in
  mkCursor x0 x1 x2 x3 x4 x5 x6 x7 x8 x9 x10 x11 x12 x13 x14 x15 x16 x17 x18
    x19 x20 x21 x22 x23 x24 x25 x26 x27 x28 v x30 x31 x32 x33 x34 x35 x36.

Definition set_retrieved (v : Z) (c : Cursor) : Cursor :=
  let 'mkCursor x0 x1 x2 x3 x4 x5 x6 x7 x8 x9 x10 x11 x12 x13 x14 x15 x16 x17
      x18 x19 x20 x21 x22 x23 x24 x25 x26 x27 x28 x29 _ x31 x32 x33 x34 x35
      x36 := c in
  mkCursor x0 x1 x2 x3 x4 x5 x6 x7 x8 x9 x10 x11 x12 x13 x14 x15 x16 x17 x18
    x19 x20 x21 x22 x23 x24 x25 x26 x27 x28 x29 v x31 x32 x33 x34 x35 x36.

Definition set_read_preference (v : option read_preference) (c : Cursor) : Cursor :=
  let 'mkCursor x0 x1 x2 x3 x4 x5 x6 x7 x8 x9 x10 x11 x12 x13 x14 x15 x16 x17
      x18 x19 x20 x21 x22 x23 x24 x25 x26 x27 x28 x29 x30 _ x32 x33 x34 x35
      x36 := c in
  mkCursor x0 x1 x2 x3 x4 x5 x6 x7 x8 x9 x10 x11 x12 x13 x14 x15 x16 x17 x18
    x19 x20 x21 x22 x23 x24 x25 x26 x27 x28 x29 x30 v x32 x33 x34 x35 x36.

Definition set_query_flags (v : Z) (c : Cursor) : Cursor :=
  let 'mkCursor x0 x1 x2 x3 x4 x5 x6 x7 x8 x9 x10 x11 x12 x13 x14 x15 x16 x17
      x18 x19 x20 x21 x22 x23 x24 x25 x26 x27 x28 x29 x30 x31 _ x33 x34 x35
      x36 := c in
  mkCursor x0 x1 x2 x3 x4 x5 x6 x7 x8 x9 x10 x11 x12 x13 x14 x15 x16 x17 x18
    x19 x20 x21 x22 x23 x24 x25 x26 x27 x28 x29 x30 x31 v x33 x34 x35 x36.

Definition set_dbname (v : string) (c : Cursor) : Cursor :=
  let 'mkCursor x0 x1 x2 x3 x4 x5 x6 x7 x8 x9 x10 x11 x12 x13 x14 x15 x16 x17
      x18 x19 x20 x21 x22 x23 x24 x25 x26 x27 x28 x29 x30 x31 x32 x33 _ x35
      x36 := c in
  mkCursor x0 x1 x2 x3 x4 x5 x6 x7 x8 x9 x10 x11 x12 x13 x14 x15 x16 x17 x18
    x19 x20 x21 x22 x23 x24 x25 x26 x27 x28 x29 x30 x31 x32 x33 v x35 x36.

Definition set_collname (v : string) (c : Cursor) : Cursor :=
  let 'mkCursor x0 x1 x2 x3 x4 x5 x6 x7 x8 x9 x10 x11 x12 x13 x14 x15 x16 x17
      x18 x19 x20 x21 x22 x23 x24 x25 x26 x27 x28 x29 x30 x31 x32 x33 x34 _
      x36 := c in
  mkCursor x0 x1 x2 x3 x4 x5 x6 x7 x8 x9 x10 x11 x12 x13 x14 x15 x16 x17 x18
    x19 x20 x21 x22 x23 x24 x25 x26 x27 x28 x29 x30 x31 x32 x33 x34 v x36.

Definition set_exhaust_checked (v : bool) (c : Cursor) : Cursor :=
  let 'mkCursor x0 x1 x2 x3 x4 x5 x6 x7 x8 x9 x10 x11 x12 x13 x14 x15 x16 x17
      x18 x19 x20 x21 x22 x23 x24 x25 x26 x27 x28 x29 x30 x31 x32 x33 x34 x35
      _ := c in
  mkCursor x0 x1 x2 x3 x4 x5 x6 x7 x8 x9 x10 x11 x12 x13 x14 x15 x16 x17 x18
    x19 x20 x21 x22 x23 x24 x25 x26 x27 x28 x29 x30 x31 x32 x33 x34 x35 v.

(** ** The monad of methods *)

Record World : Type := mkWorld {
  cur : Cursor;
  trace : list event;
  clock : nat
}.

Definition M (A : Type) : Type := World -> res A * World.

Definition ret {A} (a : A) : M A := fun w => (Ok a, w).

Definition raise {A} (e : exn) : M A := fun w => (Raise e, w).

Definition bind {A B} (m : M A) (k : A -> M B) : M B :=
  fun w =>
    match m w with
    | (Ok a, w') => k a w'
    | (Raise e, w') => (Raise e, w')
    end.

Notation "x <- m ;; k" := (bind m (fun x => k))
  (at level 61, m at next level, right associativity).
Notation "m ;; k" := (bind m (fun _ => k))
  (at level 61, right associativity).
Notation "m >>= k" := (bind m k) (at level 58, left associativity).

(** [self] *)
Definition self : M Cursor := fun w => (Ok (cur w), w).

(** [self.f = v] *)
Definition assign (f : Cursor -> Cursor) : M unit :=
  fun w => (Ok tt, mkWorld (f (cur w)) (trace w) (clock w)).

Definition emit (e : event) : M unit :=
  fun w => (Ok tt, mkWorld (cur w) (trace w ++ [e]) (clock w)).

Definition emit_all (es : list event) : M unit :=
  fun w => (Ok tt, mkWorld (cur w) (trace w ++ es) (clock w)).

Definition when (b : bool) (m : M unit) : M unit :=
  if b then m else ret tt.

Definition lift {A} (r : res A) : M A :=
  match r with Ok a => ret a | Raise e => raise e end.

Definition try_catch {A} (m : M A) (handler : exn -> M A) : M A :=
  fun w =>
    match m w with
    | (Ok a, w') => (Ok a, w')
    | (Raise e, w') => handler e w'
    end.

(** The events a computation adds to the trace of [w]. *)
Definition emitted {A} (m : M A) (w : World) : list event :=
  skipn (List.length (trace w)) (trace (snd (m w))).

(** ** [_ConnectionManager] *)

(** [_ConnectionManager.close]: return this instance's connection to the
    connection pool. *)
Definition ConnectionManager_close (m : ConnectionManager)
  : ConnectionManager * list event :=
  match conn m with
  | Some c => (mkConnectionManager None (more_to_come m), [EvUnpin c])
  | None => (m, [])
  end.

(** [_ConnectionManager.update_exhaust] *)
Definition update_exhaust (mtc : bool) (m : ConnectionManager)
  : ConnectionManager :=
  mkConnectionManager (conn m) mtc.

(** ** [Cursor._query_spec] *)

Definition put_if (b : bool) (k : string) (v : pyval) (d : document)
  : document :=
  if b then dict_set k v d else d.

Definition opt_doc (o : option document) : pyval :=
  match o with Some d => PDict d | None => PNone end.

Definition opt_int (o : option Z) : pyval :=
  match o with Some z => PInt z | None => PNone end.

Definition opt_bool (o : option bool) : pyval :=
  match o with Some b => PBool b | None => PNone end.

(** The [operators] dictionary [_query_spec] builds. *)
Definition operators (c : Cursor) : document :=
  let ops := [] in
  let ops := put_if (truthy_optdoc (_ordering c)) "$orderby" (opt_doc (_ordering c)) ops in
  let ops := put_if (_explain c) "$explain" (PBool true) ops in
  let ops := put_if (truthy (_hint c)) "$hint" (_hint c) ops in
  let ops := put_if (truthy_optdoc (_let c)) "let" (opt_doc (_let c)) ops in
  let ops := put_if (truthy (_comment c)) "$comment" (_comment c) ops in
  let ops := put_if (truthy_optZ (_max_scan c)) "$maxScan" (opt_int (_max_scan c)) ops in
  let ops := put_if (is_some (_max_time_ms c)) "$maxTimeMS" (opt_int (_max_time_ms c)) ops in
  let ops := put_if (truthy_optdoc (_max c)) "$max" (opt_doc (_max c)) ops in
  let ops := put_if (truthy_optdoc (_min c)) "$min" (opt_doc (_min c)) ops in
  let ops := put_if (is_some (_return_key c)) "$returnKey" (opt_bool (_return_key c)) ops in
  let ops := put_if (is_some (_show_record_id c)) "$showDiskLoc" (opt_bool (_show_record_id c)) ops in
  let ops := put_if (is_some (_snapshot c)) "$snapshot" (opt_bool (_snapshot c)) ops in
  ops.

(** The value [Cursor._query_spec] returns. *)
Definition query_spec_of (c : Cursor) : document :=
  let operators := operators c in
  if truthy_doc operators then
    (* Make a shallow copy so we can cleanly rewind or clone. *)
    let spec := _spec c in
    (* Allow-listed commands must be wrapped in $query. *)
    let spec :=
      if negb (dict_contains "$query" spec) then [("$query", PDict spec)]
      else spec in
    dict_update spec operators
  (* Have to wrap with $query if "query" is the first key. *)
  else if dict_contains "query" (_spec c)
          && ((len (_spec c) =? 1)
              || match first_key (_spec c) with
                 | Some k => String.eqb k "query"
                 | None => false
                 end)
  then [("$query", PDict (_spec c))]
  else _spec c.

(** [Cursor._query_spec]: get the spec to use for a query. *)
Definition _query_spec : M document :=
  c <- self;;
  ret (query_spec_of c).

(** ** Methods of [Cursor]

    Arguments have the types the signatures of the methods give them (an
    [int] is a [Z], an optional [int] an [option Z], a [bool] a [bool]), so
    the [isinstance] checks that guard against other types cannot fail and
    are left out; the checks on values (a negative [batch_size] or [skip])
    are kept, in the order of the source.  A method that returns [self]
    returns [tt]: the cursor is the one of the world. *)

Definition id_truthy (c : Cursor) : bool := truthy_optZ (_id c).

(** [self._query_flags & mask], as a condition *)
Definition has_flag (flags mask : Z) : bool := truthy_Z (Z.land flags mask).

(** [Cursor.alive]: does this cursor have the potential to return more
    data? *)
Definition alive (c : Cursor) : bool :=
  truthy_Z (len (_data c)) || negb (_killed c).

(** [Cursor.session] (the property) *)
Definition session_property (c : Cursor) : option session :=
  if _explicit_session c then _session c else None.

(** [ns.split(".", 1)], when it has two parts *)
Fixpoint split_ns (ns : string) : option (string * string) :=
  match ns with
  | EmptyString => None
  | String ch rest =>
      if Ascii.eqb ch "."%char then Some (EmptyString, rest)
      else match split_ns rest with
           | Some (a, b) => Some (String ch a, b)
           | None => None
           end
  end.

Section Methods.

Variable env : Env.

(** [Cursor._supports_exhaust] *)
Definition _supports_exhaust : M unit :=
  c <- self;;
  if _cursor_type c =? CursorType.EXHAUST then
    if is_mongos env then raise InvalidOperation
    else if truthy_Z (_limit c) then raise InvalidOperation
    else assign (set_exhaust true)
  else ret tt.

(** [Cursor._check_okay_to_chain]: check if it is okay to chain more options
    onto this cursor. *)
Definition _check_okay_to_chain : M unit :=
  c <- self;;
  if truthy_Z (_retrieved c) || is_some (_id c) then raise InvalidOperation
  else ret tt.

(** [Cursor.add_option] *)
Definition add_option (mask : Z) : M unit :=
  _check_okay_to_chain;;
  c <- self;;
  (if has_flag mask QUERY_OPTIONS.exhaust then
     if truthy_Z (_limit c) then raise InvalidOperation
     else if is_mongos env then raise InvalidOperation
     else assign (set_exhaust true)
   else ret tt);;
  c <- self;;
  assign (set_query_flags (Z.lor (_query_flags c) mask)).

(** [Cursor.remove_option] *)
Definition remove_option (mask : Z) : M unit :=
  _check_okay_to_chain;;
  when (has_flag mask QUERY_OPTIONS.exhaust) (assign (set_exhaust false));;
  c <- self;;
  assign (set_query_flags (Z.land (_query_flags c) (Z.lnot mask))).

(** [Cursor.allow_disk_use] *)
Definition allow_disk_use (v : bool) : M unit :=
  _check_okay_to_chain;;
  assign (set_allow_disk_use (Some v)).

(** [Cursor.limit] *)
Definition limit (v : Z) : M unit :=
  c <- self;;
  if _exhaust c then raise InvalidOperation
  else
    _check_okay_to_chain;;
    assign (set_empty false);;
    assign (set_limit v).

(** [Cursor.batch_size] *)
Definition batch_size (v : Z) : M unit :=
  if v <? 0 then raise ValueError
  else
    _check_okay_to_chain;;
    assign (set_batch_size v).

(** [Cursor.skip] *)
Definition skip (v : Z) : M unit :=
  if v <? 0 then raise ValueError
  else
    _check_okay_to_chain;;
    assign (set_skip v).

(** [Cursor.max_time_ms] *)
Definition max_time_ms (v : option Z) : M unit :=
  _check_okay_to_chain;;
  assign (set_max_time_ms v).

(** [Cursor.max_await_time_ms] *)
Definition max_await_time_ms (v : option Z) : M unit :=
  _check_okay_to_chain;;
  c <- self;;
  (* Ignore max_await_time_ms if not tailable or await_data is False. *)
  when (has_flag (_query_flags c) CursorType.TAILABLE_AWAIT)
       (assign (set_max_await_time_ms v)).

(** [Cursor.max_scan] *)
Definition max_scan (v : option Z) : M unit :=
  _check_okay_to_chain;;
  assign (set_max_scan v).

(** [dict(spec)] on a list of pairs: later pairs override earlier ones. *)
Definition dict_of_pairs (spec : list (string * pyval)) : document :=
  dict_update [] spec.

(** [Cursor.max] *)
Definition max (spec : list (string * pyval)) : M unit :=
  _check_okay_to_chain;;
  assign (set_max (Some (dict_of_pairs spec))).

(** [Cursor.min] *)
Definition min (spec : list (string * pyval)) : M unit :=
  _check_okay_to_chain;;
  assign (set_min (Some (dict_of_pairs spec))).

(** [Cursor.sort] *)
Definition sort (key_or_list direction : pyval) : M unit :=
  _check_okay_to_chain;;
  keys <- lift (index_list env key_or_list direction);;
  ordering <- lift (index_document env keys);;
  assign (set_ordering (Some ordering)).

(** [Cursor._set_hint] *)
Definition _set_hint (index : pyval) : M unit :=
  match index with
  | PNone => assign (set_hint PNone)
  | PStr _ | PCode _ => assign (set_hint index)
  | _ =>
      d <- lift (index_document env index);;
      assign (set_hint (PDict d))
  end.

(** The value [_set_hint] stores, for [__init__]. *)
Definition hint_value (index : pyval) : res pyval :=
  match index with
  | PNone => Ok PNone
  | PStr _ | PCode _ => Ok index
  | _ =>
      match index_document env index with
      | Ok d => Ok (PDict d)
      | Raise e => Raise e
      end
  end.

(** [Cursor.hint] *)
Definition hint (index : pyval) : M unit :=
  _check_okay_to_chain;;
  _set_hint index.

(** [Cursor.comment] *)
Definition comment (v : pyval) : M unit :=
  _check_okay_to_chain;;
  assign (set_comment v).

(** [Code(code)] *)
Definition Code (code : pyval) : res pyval :=
  match code with
  | PStr s => Ok (PCode s)
  | _ => Raise TypeError
  end.

(** [Cursor.where].  The source updates a copy of the filter when the
    filter was given by the user and the cursor's own dictionary otherwise;
    both leave the same value in [self._spec]. *)
Definition where_ (code : pyval) : M unit :=
  _check_okay_to_chain;;
  code <- lift (match code with PCode _ => Ok code | _ => Code code end);;
  c <- self;;
  assign (set_spec (dict_set "$where" code (_spec c))).

(** [Cursor.collation] *)
Definition collation (v : pyval) : M unit :=
  _check_okay_to_chain;;
  coll <- lift (validate_collation_or_none env v);;
  assign (set_collation coll).

(** Modelled from the spec: [client._cleanup_cursor_lock] and
    [client._cleanup_cursor_no_lock] are methods of the client, which is not
    among the sources at hand.  Section 4.5: the kill request is forwarded
    when a kill-cursors exchange is necessary (the cursor id given is not
    zero), the pinned connection (if held) is released back to the pool, and
    the session is released unless it was supplied by the caller. *)
Definition _cleanup_cursor (locked : bool) (cursor_id : Z)
    (addr : option CursorAddress) (conn_mgr : option ConnectionManager)
    (sess : option session) (explicit_session : bool) : M unit :=
  when (truthy_Z cursor_id) (emit (EvKillCursors locked cursor_id addr));;
  match conn_mgr with
  | Some m =>
      let (m', evs) := ConnectionManager_close m in
      emit_all evs;;
      assign (set_sock_mgr (Some m'))
  | None => ret tt
  end;;
  match sess with
  | Some s => when (negb explicit_session) (emit (EvEndSession s))
  | None => ret tt
  end.

(** [Cursor._prepare_to_die] *)
Definition _prepare_to_die (already_killed : bool)
  : M (Z * option CursorAddress) :=
  assign (set_killed true);;
  c <- self;;
  match _id c with
  | Some cursor_id =>
      if truthy_Z cursor_id && negb already_killed then
        match _address c with
        | Some a =>
            ret (cursor_id,
                 Some (mkCursorAddress a (_dbname c ++ "." ++ _collname c)))
        | None => raise AssertionError
        end
      else ret (0, None)
  | None => ret (0, None)   (* Skip killCursors. *)
  end.

(** The common body of [Cursor._die_lock] and [Cursor._die_no_lock]. *)
Definition _die (locked : bool) : M unit :=
  c <- self;;
  let already_killed := _killed c in
  ka <- _prepare_to_die already_killed;;
  c <- self;;
  _cleanup_cursor locked (fst ka) (snd ka) (_sock_mgr c) (_session c)
                  (_explicit_session c);;
  c <- self;;
  when (negb (_explicit_session c)) (assign (set_session None));;
  assign (set_sock_mgr None).

(** [Cursor._die_no_lock]: closes this cursor without acquiring a lock. *)
Definition _die_no_lock : M unit := _die false.

(** [Cursor._die_lock]: closes this cursor. *)
Definition _die_lock : M unit := _die true.

(** [Cursor.close]: explicitly close / kill this cursor. *)
Definition close : M unit := _die_lock.

(** [client._run_operation(operation, ...)]: one exchange with the server. *)
Definition _run_operation (op : operation) : M Response :=
  fun w =>
    let w' := mkWorld (cur w) (trace w ++ [EvRunOperation op]) (S (clock w)) in
    match run_operation env (clock w) op with
    | Responds r => (Ok r, w')
    | Fails e => (Raise e, w')
    end.

(** [self._retrieved += n] *)
Definition add_retrieved (n : Z) : M unit :=
  c <- self;;
  assign (set_retrieved (_retrieved c + n)).

(** The [except] clauses of [_send_message].  [None] stands for the bare
    [return] of the tailable case. *)
Definition handle_failure (exc : exn) : M (option Response) :=
  match exc with
  | OperationFailure code timeout =>
      c <- self;;
      when (in_codes code (_CURSOR_CLOSED_ERRORS env) || _exhaust c)
           (* Don't send killCursors because the cursor is already closed. *)
           (assign (set_killed true));;
      (if timeout then _die_no_lock else close);;
      (* If this is a tailable cursor the error is likely due to capped
         collection roll over.  Setting self._killed to True ensures
         Cursor.alive will be False.  No need to re-raise. *)
      c <- self;;
      if in_codes code (_CURSOR_CLOSED_ERRORS env)
         && has_flag (_query_flags c) QUERY_OPTIONS.tailable_cursor
      then ret None
      else raise exc
  | ConnectionFailure =>
      assign (set_killed true);;
      close;;
      raise exc
  | _ =>   (* Catch KeyboardInterrupt, CancelledError, etc. and cleanup. *)
      close;;
      raise exc
  end.

(** The part of [_send_message] that stores what the response holds. *)
Definition store_response (response : Response) : M unit :=
  assign (set_address (Some (r_address response)));;
  match r_pinned response with
  | Some (cn, mtc) =>
      c <- self;;
      when (negb (is_some (_sock_mgr c)))
           (assign (set_sock_mgr (Some (mkConnectionManager (Some cn) mtc))))
  | None => ret tt
  end;;
  let cmd_name := r_name response in
  match r_payload response with
  | FromCommand docs cursor_id batch ns =>
      if negb (String.eqb cmd_name "explain") then
        assign (set_id (Some cursor_id));;
        (if String.eqb cmd_name "find" then
           (* Update the namespace used for future getMore commands. *)
           match ns with
           | Some n =>
               if negb (String.eqb n EmptyString) then
                 match split_ns n with
                 | Some (db, coll) =>
                     assign (set_dbname db);;
                     assign (set_collname coll)
                 | None => raise ValueError
                 end
               else ret tt
           | None => ret tt
           end
         else ret tt);;
        assign (set_data batch);;
        add_retrieved (len batch)
      else
        assign (set_id (Some 0));;
        assign (set_data docs);;
        add_retrieved (len docs)
  | FromOpReply docs cursor_id number_returned =>
      assign (set_id (Some cursor_id));;
      assign (set_data docs);;
      add_retrieved number_returned
  end.

(** The end of [_send_message]: the two conditions under which the cursor
    closes itself after a response. *)
Definition close_if_done : M unit :=
  c <- self;;
  (* Don't wait for garbage collection to call __del__, return the socket
     and the session to the pool now. *)
  when (match _id c with Some i => i =? 0 | None => false end) close;;
  c <- self;;
  when (truthy_Z (_limit c) && id_truthy c && (_limit c <=? _retrieved c))
       close.

(** [Cursor._send_message]: send a query or getmore operation and handle the
    response. *)
Definition _send_message (op : operation) : M unit :=
  c <- self;;
  if encrypter env && _exhaust c then raise InvalidOperation
  else
    response <-
      try_catch (r <- _run_operation op;; ret (Some r)) handle_failure;;
    match response with
    | None => ret tt
    | Some response =>
        store_response response;;
        close_if_done
    end.

(** [Cursor._get_read_preference] *)
Definition _get_read_preference : M read_preference :=
  c <- self;;
  match _read_preference c with
  | Some rp => ret rp
  | None =>
      (* Save the read preference for getMore commands. *)
      let rp := read_preference_for env (session_property c) in
      assign (set_read_preference (Some rp));;
      ret rp
  end.

(** The batch size [_refresh] asks of a getMore. *)
Definition getmore_limit (c : Cursor) : Z :=
  if truthy_Z (_limit c) then
    let limit := _limit c - _retrieved c in
    if truthy_Z (_batch_size c) then Z.min limit (_batch_size c) else limit
  else _batch_size c.

(** [Cursor._refresh]: refreshes the cursor with more data from Mongo;
    returns the length of [self._data] after refresh. *)
Definition _refresh : M Z :=
  c <- self;;
  if truthy_Z (len (_data c)) || _killed c then ret (len (_data c))
  else
    when (negb (is_some (_session c)))
         (emit EvEnsureSession;;
          assign (set_session (ensure_session env)));;
    c <- self;;
    match _id c with
    | None =>   (* Query *)
        if (truthy_optdoc (_min c) || truthy_optdoc (_max c))
           && negb (truthy (_hint c))
        then raise InvalidOperation
        else
          spec <- _query_spec;;
          rp <- _get_read_preference;;
          c <- self;;
          _send_message
            (OpQuery (mkQuery (_query_flags c) (database_name env)
                        (collection_name env) (_skip c) spec (_projection c)
                        rp (_limit c) (_batch_size c) (_collation c)
                        (_session c) (_allow_disk_use c) (_exhaust c)))
    | Some cursor_id =>
        if truthy_Z cursor_id then   (* Get More *)
          let limit := getmore_limit c in
          rp <- _get_read_preference;;
          c <- self;;
          _send_message
            (OpGetMore (mkGetMore (_dbname c) (_collname c) limit cursor_id rp
                          (_session c) (_max_await_time_ms c) (_sock_mgr c)
                          (_exhaust c) (_comment c)))
        else ret tt
    end;;
    c <- self;;
    ret (len (_data c)).

(** [Cursor.rewind]: rewind this cursor to its unevaluated state. *)
Definition rewind : M unit :=
  close;;
  assign (set_data []);;
  assign (set_id None);;
  assign (set_address None);;
  assign (set_retrieved 0);;
  assign (set_killed false).

(** [self._data.popleft()] *)
Definition popleft : M document :=
  c <- self;;
  match _data c with
  | d :: ds => assign (set_data ds);; ret d
  | [] => raise IndexError
  end.

(** [len(self._data) or self._refresh()] *)
Definition data_or_refresh : M Z :=
  c <- self;;
  if truthy_Z (len (_data c)) then ret (len (_data c)) else _refresh.

(** The check of exhaust support [next] and [_next_batch] start with. *)
Definition check_exhaust : M unit :=
  c <- self;;
  if negb (_exhaust_checked c) then
    assign (set_exhaust_checked true);;
    _supports_exhaust
  else ret tt.

(** [Cursor.next]: advance the cursor. *)
Definition next : M document :=
  check_exhaust;;
  c <- self;;
  if _empty c then raise StopIteration
  else
    n <- data_or_refresh;;
    if truthy_Z n then popleft else raise StopIteration.

(** [Cursor._next_batch]: get all or some documents from the cursor.  The
    list [result] is extended in place; it is returned with the flag. *)
Definition _next_batch (result : list document) (total : option Z)
  : M (bool * list document) :=
  check_exhaust;;
  c <- self;;
  if _empty c then ret (false, result)
  else
    n <- data_or_refresh;;
    if truthy_Z n then
      c <- self;;
      match total with
      | None =>
          assign (set_data []);;
          ret (true, (result ++ _data c)%list)
      | Some total =>
          let k := Z.to_nat (Z.min (len (_data c)) total) in
          assign (set_data (skipn k (_data c)));;
          ret (true, (result ++ firstn k (_data c))%list)
      end
    else ret (false, result).

(** The [while self.alive] loop of [to_list]. *)
Fixpoint to_list_loop (fuel : nat) (length : option Z) (res : list document)
    (remaining : option Z) : M (list document) :=
  match fuel with
  | O => raise OutOfFuel
  | S fuel' =>
      c <- self;;
      if alive c then
        br <- _next_batch res remaining;;
        let res := snd br in
        if negb (fst br) then ret res
        else
          match length with
          | Some n =>
              let remaining := n - len res in
              if remaining =? 0 then ret res
              else to_list_loop fuel' length res (Some remaining)
          | None => to_list_loop fuel' length res remaining
          end
      else ret res
  end.

(** [Cursor.to_list]: converts the contents of this cursor to a list. *)
Definition to_list (fuel : nat) (length : option Z) : M (list document) :=
  match length with
  | Some n =>
      if n <? 1 then raise ValueError
      else to_list_loop fuel length [] length
  | None => to_list_loop fuel length [] length
  end.

(** [Cursor.__getitem__] on a slice [start:stop:step].  (An integer index
    runs a query on a clone of the cursor and leaves this cursor as it is;
    it is not part of this development.) *)
Definition __getitem__ (start stop step : option Z) : M unit :=
  _check_okay_to_chain;;
  assign (set_empty false);;
  if is_some step then raise IndexError
  else
    match start with
    | Some s => if s <? 0 then raise IndexError else ret s
    | None => ret 0
    end >>= fun skip =>
    match stop with
    | Some e =>
        let limit := e - skip in
        if limit <? 0 then raise IndexError
        else
          when (limit =? 0) (assign (set_empty true));;
          ret limit
    | None => ret 0
    end >>= fun limit =>
    assign (set_skip skip);;
    assign (set_limit limit).

(** The keyword arguments of [Cursor.__init__]. *)
Record InitArgs : Type := mkInitArgs {
  a_filter : option document;
  a_projection : option document;
  a_skip : Z;
  a_limit : Z;
  a_no_cursor_timeout : bool;
  a_cursor_type : Z;
  a_sort : pyval;
  a_allow_partial_results : bool;
  a_oplog_replay : bool;
  a_batch_size : Z;
  a_collation : pyval;
  a_hint : pyval;
  a_max_scan : option Z;
  a_max_time_ms : option Z;
  a_max : option document;
  a_min : option document;
  a_return_key : option bool;
  a_show_record_id : option bool;
  a_snapshot : option bool;
  a_comment : pyval;
  a_session : option session;
  a_allow_disk_use : option bool;
  a_let : option document
}.

Definition or_flag (b : bool) (mask flags : Z) : Z :=
  if b then Z.lor flags mask else flags.

(** [Cursor.__init__]: create a new cursor. *)
Definition __init__ (a : InitArgs) : res Cursor :=
  if negb (existsb (Z.eqb (a_cursor_type a))
             [CursorType.NON_TAILABLE; CursorType.TAILABLE;
              CursorType.TAILABLE_AWAIT; CursorType.EXHAUST])
  then Raise ValueError
  else if a_batch_size a <? 0 then Raise ValueError
  else
    match (if truthy (a_sort a) then index_document env (a_sort a) else Ok []) with
    | Raise e => Raise e
    | Ok ordering =>
    match validate_collation_or_none env (a_collation a) with
    | Raise e => Raise e
    | Ok coll =>
    match hint_value (a_hint a) with
    | Raise e => Raise e
    | Ok h =>
        let c :=
          {| _id := None;
             _exhaust := false;
             _sock_mgr := None;
             _killed := false;
             _session := a_session a;
             _explicit_session := is_some (a_session a);
             _let := a_let a;
             _spec := match a_filter a with Some f => f | None => [] end;
             _has_filter := is_some (a_filter a);
             _projection := a_projection a;
             _skip := a_skip a;
             _limit := a_limit a;
             _batch_size := a_batch_size a;
             _ordering := if truthy_doc ordering then Some ordering else None;
             _max_scan := a_max_scan a;
             _explain := false;
             _comment := a_comment a;
             _max_time_ms := a_max_time_ms a;
             _max_await_time_ms := None;
             _max := a_max a;
             _min := a_min a;
             _collation := coll;
             _return_key := a_return_key a;
             _show_record_id := a_show_record_id a;
             _allow_disk_use := a_allow_disk_use a;
             _snapshot := a_snapshot a;
             _hint := h;
             _empty := false;
             _data := [];
             _address := None;
             _retrieved := 0;
             _read_preference := None;
             _query_flags :=
               or_flag (a_oplog_replay a) QUERY_OPTIONS.oplog_replay
                 (or_flag (a_allow_partial_results a) QUERY_OPTIONS.partial
                    (or_flag (a_no_cursor_timeout a) QUERY_OPTIONS.no_timeout
                       (a_cursor_type a)));
             _cursor_type := a_cursor_type a;
             _dbname := database_name env;
             _collname := collection_name env;
             _exhaust_checked := true |} in
        match _supports_exhaust (mkWorld c [] 0) with
        | (Ok _, w) => Ok (cur w)
        | (Raise e, _) => Raise e
        end
    end end end.

(** *** The public interface as a type of calls *)

(** The chainable configuration setters. *)
Inductive setter : Type :=
| Set_limit (v : Z)
| Set_skip (v : Z)
| Set_batch_size (v : Z)
| Set_sort (key_or_list direction : pyval)
| Set_hint (index : pyval)
| Set_collation (v : pyval)
| Set_comment (v : pyval)
| Set_max_time_ms (v : option Z)
| Set_max_await_time_ms (v : option Z)
| Set_min (spec : list (string * pyval))
| Set_max (spec : list (string * pyval))
| Set_max_scan (v : option Z)
| Set_add_option (mask : Z)
| Set_remove_option (mask : Z)
| Set_allow_disk_use (v : bool)
| Set_where (code : pyval).

Definition run_setter (s : setter) : M unit :=
  match s with
  | Set_limit v => limit v
  | Set_skip v => skip v
  | Set_batch_size v => batch_size v
  | Set_sort k d => sort k d
  | Set_hint i => hint i
  | Set_collation v => collation v
  | Set_comment v => comment v
  | Set_max_time_ms v => max_time_ms v
  | Set_max_await_time_ms v => max_await_time_ms v
  | Set_min sp => min sp
  | Set_max sp => max sp
  | Set_max_scan v => max_scan v
  | Set_add_option m => add_option m
  | Set_remove_option m => remove_option m
  | Set_allow_disk_use v => allow_disk_use v
  | Set_where code => where_ code
  end.

(** The advance operations. *)
Inductive advance : Type :=
| Next
| ToList (fuel : nat) (length : option Z).

(** An advance operation and the documents it hands to the caller. *)
Definition run_advance (a : advance) : M (list document) :=
  match a with
  | Next => d <- next;; ret [d]
  | ToList fuel length => to_list fuel length
  end.

Inductive call : Type :=
| Configure (s : setter)
| GetSlice (start stop step : option Z)
| Advance (a : advance)
| Close
| Rewind.

Definition perform (k : call) : M unit :=
  match k with
  | Configure s => run_setter s
  | GetSlice start stop step => __getitem__ start stop step
  | Advance a => _ <- run_advance a;; ret tt
  | Close => close
  | Rewind => rewind
  end.

(** The state a call leaves behind, whether it returns or raises. *)
Definition after (k : call) (w : World) : World := snd (perform k w).

(** The worlds a program can bring a cursor to: a new cursor, then any
    calls of the setters, of a slice, of [next] and [to_list], of [close]
    and of [rewind], whatever the server answers. *)
Inductive reachable : World -> Prop :=
| reach_init a c : __init__ a = Ok c -> reachable (mkWorld c [] 0)
| reach_call w k : reachable w -> reachable (after k w).

End Methods.

(** * Auxiliary notions for the properties *)


(** The configuration of a cursor: the cursor with the fields the exchanges
    and the teardown write reset. *)
Definition frame (c : Cursor) : Cursor :=
  set_id None (set_sock_mgr None (set_killed false (set_session None
    (set_data [] (set_address None (set_retrieved 0 (set_read_preference None
      (set_dbname EmptyString (set_collname EmptyString c))))))))).

(** What holds of every cursor a program can have. *)
Record inv (c : Cursor) : Prop := mkInv {
  inv_address : id_truthy c = true -> _address c <> None;
  inv_unstarted : _id c = None -> _data c = [] /\ _retrieved c = 0;
  inv_empty : _empty c = true -> _data c = [];
  inv_checked : _exhaust_checked c = true;
  inv_batch : 0 <= _batch_size c
}.

(** [_die] fails its assertion when it has to kill a cursor whose address
    is unknown. *)
Definition die_raises (c : Cursor) : bool :=
  id_truthy c && negb (_killed c) && negb (is_some (_address c)).

Definition kill_events (locked : bool) (c : Cursor) : list event :=
  match _id c, _address c with
  | Some i, Some a =>
      if truthy_Z i && negb (_killed c)
      then [EvKillCursors locked i
              (Some (mkCursorAddress a (_dbname c ++ "." ++ _collname c)))]
      else []
  | _, _ => []
  end.

Definition release_events (c : Cursor) : list event :=
  (match _sock_mgr c with
   | Some m => snd (ConnectionManager_close m)
   | None => []
   end ++
   match _session c with
   | Some s => if _explicit_session c then [] else [EvEndSession s]
   | None => []
   end)%list.

(** The cursor [_die] leaves when it returns. *)
Definition died (c : Cursor) : Cursor :=
  set_sock_mgr None
    (set_session (if _explicit_session c then _session c else None)
       (set_killed true c)).

Definition count_if (p : event -> bool) (evs : list event) : nat :=
  List.length (filter p evs).

(** No exchange with the server among these events. *)
Definition quiet (evs : list event) : Prop :=
  Forall (fun e => is_exchange e = false) evs.

(** What [_send_message] reads off a response: the batch it buffers, the
    number it adds to [_retrieved], the cursor id it stores. *)
Definition buffered (r : Response) : list document :=
  match r_payload r with
  | FromCommand docs _ batch _ =>
      if String.eqb (r_name r) "explain" then docs else batch
  | FromOpReply docs _ _ => docs
  end.

Definition counted (r : Response) : Z :=
  match r_payload r with
  | FromCommand docs _ batch _ =>
      if String.eqb (r_name r) "explain" then len docs else len batch
  | FromOpReply _ _ n => n
  end.

Definition new_id (r : Response) : Z :=
  match r_payload r with
  | FromCommand _ i _ _ => if String.eqb (r_name r) "explain" then 0 else i
  | FromOpReply _ i _ => i
  end.

(** The condition of the second [close] of [_send_message]. *)
Definition limit_reached (c : Cursor) : bool :=
  truthy_Z (_limit c) && id_truthy c && (_limit c <=? _retrieved c).

(** The tailable case of [_send_message]. *)
Definition swallowed (env : Env) (c : Cursor) (e : exn) : bool :=
  match e with
  | OperationFailure code _ =>
      in_codes code (_CURSOR_CLOSED_ERRORS env)
      && has_flag (_query_flags c) QUERY_OPTIONS.tailable_cursor
  | _ => false
  end.

(** A summary of one call of [_send_message]: it is refused before any
    exchange, or the exchange fails, or the server responds. *)
Inductive exchange (env : Env) (op : operation) (w : World)
  : res unit -> World -> Prop :=
| ex_refused :
    encrypter env && _exhaust (cur w) = true ->
    exchange env op w (Raise InvalidOperation) w
| ex_failed e r w' evs :
    run_operation env (clock w) op = Fails e ->
    trace w' = (trace w ++ EvRunOperation op :: evs)%list ->
    quiet evs ->
    clock w' = S (clock w) ->
    frame (cur w') = frame (cur w) ->
    _id (cur w') = _id (cur w) ->
    _data (cur w') = _data (cur w) ->
    _retrieved (cur w') = _retrieved (cur w) ->
    _address (cur w') = _address (cur w) ->
    _killed (cur w') = true ->
    (r = Ok tt <-> swallowed env (cur w) e = true) ->
    exchange env op w r w'
| ex_responded resp r w' evs :
    run_operation env (clock w) op = Responds resp ->
    trace w' = (trace w ++ EvRunOperation op :: evs)%list ->
    quiet evs ->
    clock w' = S (clock w) ->
    frame (cur w') = frame (cur w) ->
    _address (cur w') = Some (r_address resp) ->
    _id (cur w') <> None ->
    (r = Ok tt /\
     _id (cur w') = Some (new_id resp) /\
     _data (cur w') = buffered resp /\
     _retrieved (cur w') = _retrieved (cur w) + counted resp /\
     (_killed (cur w') = true \/ _killed (cur w') = _killed (cur w)) /\
     (new_id resp = 0 \/ limit_reached (cur w') = true ->
      _killed (cur w') = true) /\
     (limit_reached (cur w') = true -> _killed (cur w) = false ->
      exists a, In (EvKillCursors true (new_id resp) a) evs))
    \/
    (r = Raise ValueError /\
     _data (cur w') = _data (cur w) /\
     _retrieved (cur w') = _retrieved (cur w) /\
     _killed (cur w') = _killed (cur w)) ->
    exchange env op w r w'.

(** The world once [_refresh] has bound a session. *)
Definition ensured (env : Env) (w : World) : World :=
  if is_some (_session (cur w)) then w
  else mkWorld (set_session (ensure_session env) (cur w))
               (trace w ++ [EvEnsureSession]) (clock w).

(** The read preference [_get_read_preference] returns. *)
Definition rp_of (env : Env) (c : Cursor) : read_preference :=
  match _read_preference c with
  | Some rp => rp
  | None => read_preference_for env (session_property c)
  end.

(** The world once [_get_read_preference] has saved the read preference. *)
Definition preferred (env : Env) (w : World) : World :=
  mkWorld (set_read_preference (Some (rp_of env (cur w))) (cur w))
          (trace w) (clock w).

(** The operation [_refresh] sends for a cursor that has its session. *)
Definition pending_op (env : Env) (c : Cursor) : operation :=
  match _id c with
  | None =>
      OpQuery (mkQuery (_query_flags c) (database_name env)
                 (collection_name env) (_skip c) (query_spec_of c)
                 (_projection c) (rp_of env c) (_limit c) (_batch_size c)
                 (_collation c) (_session c) (_allow_disk_use c) (_exhaust c))
  | Some cursor_id =>
      OpGetMore (mkGetMore (_dbname c) (_collname c) (getmore_limit c)
                   cursor_id (rp_of env c) (_session c)
                   (_max_await_time_ms c) (_sock_mgr c) (_exhaust c)
                   (_comment c))
  end.

(** [min] or [max] without a [hint] *)
Definition unhinted (c : Cursor) : bool :=
  (truthy_optdoc (_min c) || truthy_optdoc (_max c)) && negb (truthy (_hint c)).

(** A summary of one call of [_refresh]. *)
Inductive refreshed (env : Env) (w : World) : res Z -> World -> Prop :=
| rf_idle :
    _data (cur w) <> [] \/ _killed (cur w) = true ->
    refreshed env w (Ok (len (_data (cur w)))) w
| rf_exhausted :
    _data (cur w) = [] -> _killed (cur w) = false ->
    _id (cur w) = Some 0 ->
    refreshed env w (Ok 0) (ensured env w)
| rf_unhinted :
    _data (cur w) = [] -> _killed (cur w) = false ->
    _id (cur w) = None -> unhinted (cur w) = true ->
    refreshed env w (Raise InvalidOperation) (ensured env w)
| rf_exchange r w' :
    _data (cur w) = [] -> _killed (cur w) = false ->
    _id (cur w) <> Some 0 ->
    (_id (cur w) = None -> unhinted (cur w) = false) ->
    exchange env (pending_op env (cur (ensured env w)))
             (preferred env (ensured env w)) r w' ->
    refreshed env w
      (match r with
       | Ok _ => Ok (len (_data (cur w')))
       | Raise e => Raise e
       end) w'.

(** The cursor after [k] documents were taken from the front of its
    buffer. *)
Definition consume (k : nat) (w : World) : World :=
  mkWorld (set_data (skipn k (_data (cur w))) (cur w)) (trace w) (clock w).

(** The documents a sequence of advance operations hands to the caller, and
    the world it leaves. *)
Fixpoint run_advances (env : Env) (ops : list advance) (w : World)
  : list document * World :=
  match ops with
  | [] => ([], w)
  | a :: ops' =>
      let (r, w1) := run_advance env a w in
      let (ds, w2) := run_advances env ops' w1 in
      ((match r with Ok l => l | Raise _ => [] end) ++ ds, w2)%list
  end.





(** The number of documents [_next_batch] takes from a buffer. *)
Definition taken (total : option Z) (data : list document) : nat :=
  match total with
  | None => List.length data
  | Some t => Z.to_nat (Z.min (len data) t)
  end.

(** A summary of one call of [next]. *)
Inductive next_result (env : Env) (w : World)
  : res document -> World -> Prop :=
| nx_empty :
    _empty (cur w) = true ->
    next_result env w (Raise StopIteration) w
| nx_doc n w1 d ds :
    _empty (cur w) = false ->
    refreshed env w (Ok n) w1 ->
    _data (cur w1) = d :: ds ->
    next_result env w (Ok d) (consume 1 w1)
| nx_stop w1 :
    _empty (cur w) = false ->
    refreshed env w (Ok 0) w1 ->
    _data (cur w1) = [] ->
    next_result env w (Raise StopIteration) w1
| nx_raise e w1 :
    _empty (cur w) = false ->
    refreshed env w (Raise e) w1 ->
    next_result env w (Raise e) w1.

(** A summary of one call of [_next_batch]. *)
Inductive batch_result (env : Env) (result : list document)
    (total : option Z) (w : World)
  : res (bool * list document) -> World -> Prop :=
| nb_empty :
    _empty (cur w) = true ->
    batch_result env result total w (Ok (false, result)) w
| nb_docs n w1 :
    _empty (cur w) = false ->
    refreshed env w (Ok n) w1 ->
    _data (cur w1) <> [] ->
    batch_result env result total w
      (Ok (true, (result ++ firstn (taken total (_data (cur w1)))
                                   (_data (cur w1)))%list))
      (consume (taken total (_data (cur w1))) w1)
| nb_none w1 :
    _empty (cur w) = false ->
    refreshed env w (Ok 0) w1 ->
    _data (cur w1) = [] ->
    batch_result env result total w (Ok (false, result)) w1
| nb_raise e w1 :
    _empty (cur w) = false ->
    refreshed env w (Raise e) w1 ->
    batch_result env result total w (Raise e) w1.

Definition inv_world (w : World) : Prop := inv (cur w).

(** ** The statements under study *)

(** No modifier operator is set on the cursor. *)
Definition no_modifiers (c : Cursor) : Prop :=
  truthy_optdoc (_ordering c) = false /\ _explain c = false /\
  truthy (_hint c) = false /\ truthy_optdoc (_let c) = false /\
  truthy (_comment c) = false /\ truthy_optZ (_max_scan c) = false /\
  _max_time_ms c = None /\ truthy_optdoc (_max c) = false /\
  truthy_optdoc (_min c) = false /\ _return_key c = None /\
  _show_record_id c = None /\ _snapshot c = None.

(** The filter under the [$query] envelope. *)
Definition enveloped (spec : document) : document := [("$query", PDict spec)].

Definition single_query_key (spec : document) : bool :=
  match spec with
  | [(k, _)] => String.eqb k "query"
  | _ => false
  end.

Definition first_key_is_query (spec : document) : bool :=
  match first_key spec with
  | Some k => String.eqb k "query"
  | None => false
  end.

(** The envelope is forced for a single-key filter only. *)
Definition single_key_rule (c : Cursor) : Prop :=
  no_modifiers c ->
  query_spec_of c =
  if single_query_key (_spec c) then enveloped (_spec c) else _spec c.



(** The batch size of a fetch-more as a plain minimum. *)
Definition plain_minimum (c : Cursor) : Z :=
  if _limit c =? 0 then _batch_size c
  else Z.min (_limit c - _retrieved c) (_batch_size c).

(** The batch size of a fetch-more, a batch size of zero meaning none. *)
Definition guarded_minimum (c : Cursor) : Z :=
  if _limit c =? 0 then _batch_size c
  else if _batch_size c =? 0 then _limit c - _retrieved c
  else Z.min (_limit c - _retrieved c) (_batch_size c).

(** A zero-width slice leaves an empty cursor that never talks to the
    server. *)
Definition empty_range_law (env : Env) (w : World) (start : Z) : Prop :=
  let w1 := snd (__getitem__ (Some start) (Some start) None w) in
  _empty (cur w1) = true /\
  forall ops, run_advances env ops w1 = ([], w1).


(** [next] hands out the documents [ds] one by one, in order, without
    touching anything but the buffer, then signals the end. *)
Fixpoint drains (env : Env) (ds : list document) (w : World) : Prop :=
  match ds with
  | [] => next env w = (Raise StopIteration, w) /\ alive (cur w) = false
  | d :: ds' =>
      alive (cur w) = true /\
      next env w = (Ok d, consume 1 w) /\
      drains env ds' (consume 1 w)
  end.

(** ** Sample environments and cursors *)

Module Examples.

Definition doc (n : Z) : document := [("_id", PInt n)].

Definition host : address := ("localhost", 27017).

Definition find_args : InitArgs :=
  mkInitArgs None None 0 0 false CursorType.NON_TAILABLE PNone false false 0
    PNone PNone None None None None None None None PNone None None None.

Definition with_limit (n : Z) (a : InitArgs) : InitArgs :=
  mkInitArgs (a_filter a) (a_projection a) (a_skip a) n
    (a_no_cursor_timeout a) (a_cursor_type a) (a_sort a)
    (a_allow_partial_results a) (a_oplog_replay a) (a_batch_size a)
    (a_collation a) (a_hint a) (a_max_scan a) (a_max_time_ms a) (a_max a)
    (a_min a) (a_return_key a) (a_show_record_id a) (a_snapshot a)
    (a_comment a) (a_session a) (a_allow_disk_use a) (a_let a).

Definition with_type (t : Z) (a : InitArgs) : InitArgs :=
  mkInitArgs (a_filter a) (a_projection a) (a_skip a) (a_limit a)
    (a_no_cursor_timeout a) t (a_sort a)
    (a_allow_partial_results a) (a_oplog_replay a) (a_batch_size a)
    (a_collation a) (a_hint a) (a_max_scan a) (a_max_time_ms a) (a_max a)
    (a_min a) (a_return_key a) (a_show_record_id a) (a_snapshot a)
    (a_comment a) (a_session a) (a_allow_disk_use a) (a_let a).

Definition with_filter (f : document) (a : InitArgs) : InitArgs :=
  mkInitArgs (Some f) (a_projection a) (a_skip a) (a_limit a)
    (a_no_cursor_timeout a) (a_cursor_type a) (a_sort a)
    (a_allow_partial_results a) (a_oplog_replay a) (a_batch_size a)
    (a_collation a) (a_hint a) (a_max_scan a) (a_max_time_ms a) (a_max a)
    (a_min a) (a_return_key a) (a_show_record_id a) (a_snapshot a)
    (a_comment a) (a_session a) (a_allow_disk_use a) (a_let a).

Definition with_min (m : document) (a : InitArgs) : InitArgs :=
  mkInitArgs (a_filter a) (a_projection a) (a_skip a) (a_limit a)
    (a_no_cursor_timeout a) (a_cursor_type a) (a_sort a)
    (a_allow_partial_results a) (a_oplog_replay a) (a_batch_size a)
    (a_collation a) (a_hint a) (a_max_scan a) (a_max_time_ms a) (a_max a)
    (Some m) (a_return_key a) (a_show_record_id a) (a_snapshot a)
    (a_comment a) (a_session a) (a_allow_disk_use a) (a_let a).

(** A command reply with a batch of documents. *)
Definition reply (name : string) (id : Z) (batch : list document) : outcome :=
  Responds (mkResponse host None name (FromCommand [] id batch None)).

(** A client of a plain server, with the given exchanges.  For this client
    a failure with the code 43 tells that the server has closed the
    cursor. *)
Definition client (server : nat -> operation -> outcome) : Env :=
  mkEnv false false "db" "coll" (Some 1%nat) (fun _ => 0%nat) server
    (fun k _ => Ok k)
    (fun i => match i with PDict d => Ok d | _ => Raise TypeError end)
    (fun v => match v with
              | PNone => Ok None
              | PDict d => Ok (Some d)
              | _ => Raise TypeError
              end)
    [43].

(** The server sends two documents and keeps its cursor open, then sends
    a last one. *)
Definition two_then_one : Env :=
  client (fun n _ =>
            match n with
            | O => reply "find" 99 [doc 1; doc 2]
            | _ => reply "getMore" 0 [doc 3]
            end).

(** The server sends three documents at once, whatever it is asked. *)
Definition three_at_once : Env :=
  client (fun _ _ => reply "find" 0 [doc 1; doc 2; doc 3]).

(** The server has lost the cursor: every exchange fails with the code
    43. *)
Definition cursor_lost : Env :=
  client (fun _ _ => Fails (OperationFailure (Some 43) false)).

Definition blank : Cursor :=
  mkCursor None false None false None false None [] false None 0 0 0 None
    None false PNone None None None None None None None None None PNone
    false [] None 0 None 0 0 EmptyString EmptyString true.

(** A new cursor in its world. *)
Definition fresh (env : Env) (a : InitArgs) : World :=
  mkWorld (match __init__ env a with Ok c => c | Raise _ => blank end) [] 0.

(** The world after a list of calls. *)
Definition run (env : Env) (ks : list call) (w : World) : World :=
  fold_left (fun w k => after env k w) ks w.

End Examples.




(** The world of [Examples.two_then_one] once a cursor with limit 5 has
    handed out the two documents of its first batch. *)
Definition two_of_five : World :=
  Examples.run Examples.two_then_one [Advance Next; Advance Next]
    (Examples.fresh Examples.two_then_one
       (Examples.with_limit 5 Examples.find_args)).

(** The fetch-more that follows. *)
Definition three_more : GetMore :=
  mkGetMore "db" "coll" 3 99 0%nat (Some 1%nat) None None false PNone.

(** * More of the cursor: clones, [explain], integer indices *)

Section Clones.

Variable env : Env.

(** The arguments [_clone_base] gives to the constructor: the session and
    the defaults of every other parameter. *)
Definition clone_args (sess : option session) : InitArgs :=
  mkInitArgs None None 0 0 false CursorType.NON_TAILABLE PNone false false 0
    PNone PNone None None None None None None None PNone sess None None.

(** [Cursor._clone_base]: creates an empty cursor for information to be
    copied into. *)
Definition _clone_base (sess : option session) : res Cursor :=
  __init__ env (clone_args sess).

(** [Cursor._clone] with [deepcopy=True] and no [base]: the attributes named
    in [values_to_clone] are copied into a new cursor of the same
    collection.  Values are immutable here, so that the deep copy of a value
    is the value.  ([__copy__] shares the values with the original cursor
    instead of copying them; it is not part of this development.) *)
Definition _clone (c : Cursor) : res Cursor :=
  match _clone_base (if _explicit_session c then _session c else None) with
  | Raise e => Raise e
  | Ok base =>
      Ok {| _id := _id base;
            _exhaust := _exhaust c;
            _sock_mgr := _sock_mgr base;
            _killed := _killed base;
            _session := _session base;
            _explicit_session := _explicit_session base;
            _let := _let base;
            _spec := _spec c;
            _has_filter := _has_filter c;
            _projection := _projection c;
            _skip := _skip c;
            _limit := _limit c;
            _batch_size := _batch_size c;
            _ordering := _ordering c;
            _max_scan := _max_scan c;
            _explain := _explain c;
            _comment := _comment c;
            _max_time_ms := _max_time_ms c;
            _max_await_time_ms := _max_await_time_ms c;
            _max := _max c;
            _min := _min c;
            _collation := _collation c;
            _return_key := _return_key c;
            _show_record_id := _show_record_id c;
            _allow_disk_use := _allow_disk_use c;
            _snapshot := _snapshot c;
            _hint := _hint c;
            _empty := _empty c;
            _data := _data base;
            _address := _address base;
            _retrieved := _retrieved base;
            _read_preference := _read_preference base;
            _query_flags := _query_flags c;
            _cursor_type := _cursor_type c;
            _dbname := _dbname base;
            _collname := _collname base;
            _exhaust_checked := _exhaust_checked base |}
  end.

(** [Cursor.clone]: get a clone of this cursor. *)
Definition clone (c : Cursor) : res Cursor := _clone c.

(** Runs a computation on another cursor of the same client: its exchanges
    go to the same trace and clock, and the cursor of the world is left as
    it is.  The clone is dropped afterwards (what its finalizer [__del__]
    does then, at a time the garbage collector chooses, is no part of the
    method that made the clone). *)
Definition on_clone {A} (c : Cursor) (m : M A) : M A :=
  fun w =>
    let (r, w1) := m (mkWorld c (trace w) (clock w)) in
    (r, mkWorld (cur w) (trace w1) (clock w1)).

(** [Cursor.explain]: returns an explain plan record for this cursor. *)
Definition explain : M document :=
  c <- self;;
  c <- lift (clone c);;
  let c := set_explain true c in
  (* always use a hard limit for explains *)
  let c := if truthy_Z (_limit c) then set_limit (- Z.abs (_limit c)) c
           else c in
  on_clone c (next env).

(** [Cursor.__getitem__] on an integer index. *)
Definition __getitem__index (index : Z) : M document :=
  _check_okay_to_chain;;
  assign (set_empty false);;
  if index <? 0 then raise IndexError
  else
    c <- self;;
    clone <- lift (clone c);;
    on_clone clone
      (skip (index + _skip c);;
       limit (-1);;   (* use a hard limit *)
       cl <- self;;
       assign (set_query_flags
                 (Z.land (_query_flags cl) (Z.lnot CursorType.TAILABLE_AWAIT)));;
       (* for doc in clone: return doc *)
       try_catch (next env)
         (fun e =>
            match e with
            | StopIteration => raise IndexError
            | _ => raise e
            end)).

End Clones.

(** * Auxiliary notions for the further properties *)

(** [d.get(k)] *)
Fixpoint dict_get (k : string) (d : document) : option pyval :=
  match d with
  | [] => None
  | (k', v) :: d' => if String.eqb k k' then Some v else dict_get k d'
  end.

(** [list(d.keys())] *)
Definition keys (d : document) : list string := map fst d.

(** [_check_okay_to_chain] lets the call through. *)
Definition okay_to_chain (c : Cursor) : bool :=
  negb (truthy_Z (_retrieved c) || is_some (_id c)).


(** The calls that configure, as opposed to those that iterate or tear
    down. *)
Definition is_configuration (k : call) : bool :=
  match k with
  | Configure _ | GetSlice _ _ _ => true
  | _ => false
  end.

Definition is_slice (k : call) : bool :=
  match k with GetSlice _ _ _ => true | _ => false end.

(** A killed cursor with a given trace and clock. *)
Record silent (t : list event) (n : nat) (w : World) : Prop := mkSilent {
  si_inv : inv (cur w);
  si_killed : _killed (cur w) = true;
  si_trace : trace w = t;
  si_clock : clock w = n
}.

(** A cursor with the configuration of [c0]. *)
Record framed (c0 : Cursor) (w : World) : Prop := mkFramed {
  fr_inv : inv (cur w);
  fr_frame : frame (cur w) = frame c0
}.

(** A cursor that has retrieved [k] documents or more. *)
Record at_least (k : Z) (w : World) : Prop := mkAtLeast {
  al_inv : inv (cur w);
  al_retrieved : k <= _retrieved (cur w)
}.

(** The server never reports a negative number of documents. *)
Definition counts_are_natural (env : Env) : Prop :=
  forall n op r, run_operation env n op = Responds r -> 0 <= counted r.

(** [OutOfFuel] marks the bound on the rounds of a loop in this
    development; it is no error of the program, and the server does not
    fail with it. *)
Definition real_failures (env : Env) : Prop :=
  forall n op, run_operation env n op <> Fails OutOfFuel.

(** The cursor [rewind] leaves. *)
Definition rewound (c : Cursor) : Cursor :=
  set_killed false (set_retrieved 0 (set_address None (set_id None
    (set_data [] (died c))))).

(** The world once the operation has gone to the server. *)
Definition sent (op : operation) (w : World) : World :=
  mkWorld (cur w) (trace w ++ [EvRunOperation op]) (S (clock w)).

(** The failures after which no kill-cursors request is due: the server
    says the cursor is closed, or the cursor is an exhaust cursor, or the
    connection is lost. *)
Definition already_closed (env : Env) (e : exn) (c : Cursor) : bool :=
  match e with
  | OperationFailure code _ =>
      in_codes code (_CURSOR_CLOSED_ERRORS env) || _exhaust c
  | ConnectionFailure => true
  | _ => false
  end.

(** A timeout is cleaned up without waiting for the lock. *)
Definition locked_cleanup (e : exn) : bool :=
  match e with
  | OperationFailure _ true => false
  | _ => true
  end.

(** The cursor closes itself after a response when the server has closed
    its cursor or the limit is reached. *)
Definition done (c : Cursor) : bool :=
  match _id c with Some i => i =? 0 | None => false end || limit_reached c.

(** The namespace a [find] reply gives, when there is one to store. *)
Definition reply_ns (r : Response) : option string :=
  match r_payload r with
  | FromCommand _ _ _ (Some n) =>
      if negb (String.eqb (r_name r) "explain") && String.eqb (r_name r) "find"
         && negb (String.eqb n EmptyString)
      then Some n else None
  | _ => None
  end.

(** The connection manager after a response: a pinned connection is kept
    when the cursor holds none. *)
Definition pinned_mgr (r : Response) (c : Cursor) : option ConnectionManager :=
  match r_pinned r, _sock_mgr c with
  | Some (cn, mtc), None => Some (mkConnectionManager (Some cn) mtc)
  | _, m => m
  end.

(** The cursor once a response is stored. *)
Definition stored (r : Response) (c : Cursor) : Cursor :=
  let c := set_sock_mgr (pinned_mgr r c) (set_address (Some (r_address r)) c) in
  let c := set_id (Some (new_id r)) c in
  let c :=
    match reply_ns r with
    | Some n =>
        match split_ns n with
        | Some (db, coll) => set_collname coll (set_dbname db c)
        | None => c
        end
    | None => c
    end in
  set_retrieved (_retrieved c + counted r) (set_data (buffered r) c).

(** The names of the modifiers, in the order [_query_spec] sets them. *)
Definition modifier_names : list string :=
  ["$orderby"; "$explain"; "$hint"; "let"; "$comment"; "$maxScan";
   "$maxTimeMS"; "$max"; "$min"; "$returnKey"; "$showDiskLoc"; "$snapshot"].

(** A dictionary filled by setting some of the keys [ks], in their order. *)
Inductive selection : list string -> document -> Prop :=
| sel_nil : selection [] []
| sel_skip k ks d : selection ks d -> selection (ks ++ [k])%list d
| sel_take k v ks d :
    selection ks d -> selection (ks ++ [k])%list (d ++ [(k, v)])%list.

(** The clone [explain] runs. *)
Definition explained (cl : Cursor) : Cursor :=
  let c := set_explain true cl in
  if truthy_Z (_limit c) then set_limit (- Z.abs (_limit c)) c else c.

(** The clone an integer index runs: the index added to the skip, a hard
    limit of one, and no tailable flags. *)
Definition indexed (index : Z) (c cl : Cursor) : Cursor :=
  let cl := set_limit (-1) (set_empty false (set_skip (index + _skip c) cl)) in
  set_query_flags
    (Z.land (_query_flags cl) (Z.lnot CursorType.TAILABLE_AWAIT)) cl.

(** The end of the iteration of the clone is the absence of the item. *)
Definition no_such_item (e : exn) : M document :=
  match e with
  | StopIteration => raise IndexError
  | _ => raise e
  end.

(** The exhaust attribute and the exhaust bit of the query flags agree. *)
Definition exhaust_agrees (c : Cursor) : Prop :=
  _exhaust c = has_flag (_query_flags c) QUERY_OPTIONS.exhaust.

(** Exhaust and a limit are not used together. *)
Definition exhaust_excludes_limit (c : Cursor) : Prop :=
  _exhaust c = true -> _limit c = 0.

(** The worlds a program reaches without slicing the cursor. *)
Inductive unsliced (env : Env) : World -> Prop :=
| unsliced_init a c : __init__ env a = Ok c -> unsliced env (mkWorld c [] 0)
| unsliced_call w k :
    unsliced env w -> is_slice k = false -> unsliced env (after env k w).

(** The window of a slice: what it skips and how many documents it keeps
    (zero for no bound). *)
Definition slice_skip (start : option Z) : Z :=
  match start with Some s => s | None => 0 end.

Definition slice_limit (start stop : option Z) : Z :=
  match stop with Some e => e - slice_skip start | None => 0 end.

(** The bounds of a slice are acceptable: no step, no negative start, no
    stop before the start. *)
Definition slice_ok (start stop step : option Z) : bool :=
  negb (is_some step)
  && (0 <=? slice_skip start)
  && match stop with
     | Some e => slice_skip start <=? e
     | None => true
     end.

(** ** Sample worlds for the further properties *)

(** The new cursor of [Examples.two_then_one]. *)
Definition new_cursor : World :=
  Examples.fresh Examples.two_then_one Examples.find_args.

(** The same with a limit of five. *)
Definition new_with_limit : World :=
  Examples.fresh Examples.two_then_one
    (Examples.with_limit 5 Examples.find_args).

(** The cursor after one document out of two was taken and the cursor was
    closed. *)
Definition closed_midway : World :=
  Examples.run Examples.two_then_one [Advance Next; Close] new_cursor.

(** The query a new cursor sends. *)
Definition first_query : Query :=
  mkQuery 0 "db" "coll" 0 [] None 0%nat 0 0 None (Some 1%nat) None false.

(** The query [explain] sends for a cursor with a limit of five. *)
Definition explain_query : Query :=
  mkQuery 0 "db" "coll" 0 [("$query", PDict []); ("$explain", PBool true)]
    None 0%nat (-5) 0 None (Some 1%nat) None false.

(** The query the index 3 sends. *)
Definition index_query : Query :=
  mkQuery 0 "db" "coll" 3 [] None 0%nat (-1) 0 None (Some 1%nat) None false.

(** The server fails every exchange with a lost connection. *)
Definition unplugged : Env :=
  Examples.client (fun _ _ => Fails ConnectionFailure).

(** A [find] reply that closes the server's cursor and names a namespace. *)
Definition last_reply : Response :=
  mkResponse Examples.host None "find"
    (FromCommand [] 0 [Examples.doc 1] (Some "db.other")).

(** A new exhaust cursor. *)
Definition exhaust_cursor : World :=
  Examples.fresh Examples.two_then_one
    (Examples.with_type CursorType.EXHAUST Examples.find_args).

(** The clone of a cursor the constructor accepts. *)
Definition the_clone (env : Env) (c : Cursor) : Cursor :=
  match clone env c with Ok cl => cl | Raise _ => Examples.blank end.

(** The new cursor after the slice [3:3]. *)
Definition emptied : World :=
  after Examples.two_then_one (GetSlice (Some 3) (Some 3) None) new_cursor.

(** * Properties *)

Arguments _die : simpl never.
Arguments kill_events : simpl never.
Arguments release_events : simpl never.
Arguments died : simpl never.
Arguments in_codes : simpl never.
Arguments has_flag : simpl never.

(* Opens a cursor into its fields. *)
Ltac open_cursor c :=
  destruct c as
    [c_id c_exhaust c_sock_mgr c_killed c_session c_explicit c_let c_spec
     c_has_filter c_projection c_skip c_limit c_batch_size c_ordering
     c_max_scan c_explain c_comment c_max_time_ms c_max_await c_max c_min
     c_collation c_return_key c_show_record_id c_allow_disk_use c_snapshot
     c_hint c_empty c_data c_address c_retrieved c_read_preference
     c_query_flags c_cursor_type c_dbname c_collname c_exhaust_checked].

(* Opens a world into the fields of its cursor. *)
Ltac open_world w :=
  let c := fresh "c" in
  destruct w as [c ?t ?n];
  open_cursor c.

Ltac run :=
  unfold bind, ret, raise, self, assign, emit, emit_all, when, lift, try_catch in *;
  cbn [fst snd cur trace clock] in *.

(* The leftmost condition of a boolean expression. *)
Ltac bool_atom x :=
  lazymatch x with
  | ?a && _ => bool_atom a
  | ?a || _ => bool_atom a
  | negb ?a => bool_atom a
  | is_some ?a => a
  | _ => x
  end.

Ltac split_match :=
  match goal with
  | |- context [match ?x with _ => _ end] =>
      lazymatch x with
      | context [match _ with _ => _ end] => fail
      | _ =>
          let y := bool_atom x in
          first [ is_var y; destruct y | destruct y eqn:? ]
      end
  end.

Ltac tidy :=
  unfold truthy_optZ, truthy_Z, id_truthy in *; cbn in *;
  rewrite ?andb_false_r, ?andb_true_r, ?orb_false_r, ?orb_true_r in *;
  repeat match goal with
    | H : (?x =? ?y) = true |- _ => apply Z.eqb_eq in H; subst
    end;
  try discriminate.

Lemma die_closed locked w :
  _die locked w =
  if die_raises (cur w)
  then (Raise AssertionError, mkWorld (set_killed true (cur w)) (trace w) (clock w))
  else (Ok tt, mkWorld (died (cur w))
                 (trace w ++ kill_events locked (cur w) ++ release_events (cur w))
                 (clock w)).
Proof.
  open_world w.
  unfold _die, _prepare_to_die, _cleanup_cursor, die_raises, kill_events,
    release_events, died, id_truthy, ConnectionManager_close.
  run. cbn.
  repeat (split_match; cbn in *; try discriminate);
    rewrite ?app_nil_r, <- ?app_assoc; cbn; try reflexivity.
Qed.

Ltac step :=
  first [ rewrite die_closed; unfold die_raises, id_truthy | split_match ]; tidy.

Lemma quiet_kill locked c : quiet (kill_events locked c).
Proof.
  unfold quiet, kill_events.
  destruct (_id c), (_address c); try constructor.
  destruct (truthy_Z z && negb (_killed c)); repeat constructor.
Qed.

Lemma quiet_release c : quiet (release_events c).
Proof.
  unfold quiet, release_events, ConnectionManager_close.
  apply Forall_app; split.
  - destruct (_sock_mgr c) as [m|]; [destruct (conn m)|]; cbn; repeat constructor.
  - destruct (_session c); [destruct (_explicit_session c)|]; repeat constructor.
Qed.

Lemma quiet_app a b : quiet a -> quiet b -> quiet (a ++ b).
Proof. intros; apply Forall_app; auto. Qed.

Lemma quiet_nil : quiet [].
Proof. constructor. Qed.

Create HintDb cursor.
#[local] Hint Resolve quiet_kill quiet_release quiet_app quiet_nil : cursor.

Lemma frame_died c : frame (died c) = frame c.
Proof. reflexivity. Qed.

Ltac use_payload :=
  unfold new_id, buffered, counted, limit_reached, swallowed, id_truthy; cbn;
  repeat match goal with
    | H : r_payload _ = _ |- _ => rewrite H
    | H : String.eqb _ _ = _ |- _ => rewrite H
    end; cbn.

Ltac trace_eq :=
  cbn; rewrite <- ?app_assoc; cbn; rewrite ?app_nil_r; reflexivity.

Ltac norm_bools :=
  unfold truthy_optZ, truthy_Z in *;
  repeat match goal with
    | H : negb _ = true |- _ => apply negb_true_iff in H
    | H : negb _ = false |- _ => apply negb_false_iff in H
    end;
  repeat match goal with
    | H : ?b = false |- context [?b] => rewrite H
    | H : ?b = true |- context [?b] => rewrite H
    end;
  cbn; rewrite ?andb_false_r, ?andb_true_r, ?orb_false_r, ?orb_true_r; cbn.

Lemma send_message_summary env op w :
  exchange env op w (fst (_send_message env op w)) (snd (_send_message env op w)).
Proof.
  open_world w.
  unfold _send_message, handle_failure, store_response, close_if_done,
    _run_operation, add_retrieved, close, _die_lock, _die_no_lock, die_raises, id_truthy.
  run. cbn.
  repeat step.
  all: try (apply ex_refused; cbn; rewrite ?andb_true_r; assumption).
  all: unfold died in *; cbn in *.
  all: try (eapply ex_failed;
            [ eassumption | trace_eq | auto with cursor | reflexivity
            | reflexivity | reflexivity | reflexivity | reflexivity | reflexivity
            | reflexivity
            | use_payload;
              repeat match goal with H : _ = _ |- _ => rewrite H end;
              cbn; split; intro; congruence ]).
  all: try (eapply ex_responded;
            [ eassumption | trace_eq | auto with cursor | reflexivity
            | reflexivity | reflexivity | unfold died; cbn; congruence | ]).
  all: try (right; repeat split; reflexivity).
  all: try solve [exfalso; norm_bools; congruence].
  all: try solve [left; use_payload; unfold died; cbn; norm_bools;
       (split; [reflexivity|]); (split; [reflexivity|]);
       (split; [reflexivity|]); (split; [reflexivity|]);
       (split; [ first [ left; reflexivity | right; reflexivity ] | ]);
       (split;
        [ first [ reflexivity
                | intros [?|?]; try discriminate; subst; cbn in *; discriminate ] | ]);
       intros Hl Hk; try discriminate; subst;
       unfold kill_events; cbn; norm_bools;
       eexists; left; reflexivity].
Qed.

Arguments _send_message : simpl never.
Arguments query_spec_of : simpl never.
Arguments getmore_limit : simpl never.

Ltac by_exchange :=
  match goal with
  | H : _send_message ?e ?op ?W = (?r, ?w') |- refreshed _ ?w0 _ _ =>
      let S := fresh "S" in
      pose proof (send_message_summary e op W) as S;
      rewrite H in S; cbn [fst snd] in S;
      refine (rf_exchange e w0 r w' _ _ _ _ _);
      [ reflexivity | reflexivity
      | cbn; intro E; inversion E; subst; cbn in *; discriminate
      | cbn; intro E; try discriminate; unfold unhinted; cbn; norm_bools;
        reflexivity
      | exact S ]
  end.

Lemma refresh_summary env w :
  refreshed env w (fst (_refresh env w)) (snd (_refresh env w)).
Proof.
  open_world w.
  unfold _refresh, _query_spec, _get_read_preference.
  run. cbn.
  destruct c_data as [|d ds]; cbn;
    [| apply rf_idle; left; cbn; discriminate].
  destruct c_killed; cbn; [apply rf_idle; right; reflexivity|].
  repeat step.
  all: try by_exchange.
  all: try (apply rf_exhausted; reflexivity).
  all: try (apply rf_unhinted; try reflexivity; unfold unhinted; cbn;
            norm_bools; reflexivity).
Qed.

Lemma len_nil {A} : len (@nil A) = 0.
Proof. reflexivity. Qed.

Lemma len_cons {A} (a : A) l : len (a :: l) = len l + 1.
Proof. unfold len; cbn [List.length]; lia. Qed.

Lemma len_nonneg {A} (l : list A) : 0 <= len l.
Proof. unfold len; lia. Qed.

Lemma len_app {A} (l1 l2 : list A) : len (l1 ++ l2)%list = len l1 + len l2.
Proof. unfold len; rewrite length_app; lia. Qed.

Lemma truthy_len {A} (l : list A) : truthy_Z (len l) = negb (match l with [] => true | _ => false end).
Proof. destruct l; [reflexivity|]. rewrite len_cons. unfold truthy_Z.
  pose proof (len_nonneg l). destruct (len l + 1 =? 0) eqn:E; [apply Z.eqb_eq in E; lia|reflexivity]. Qed.

Lemma data_or_refresh_eq env w : data_or_refresh env w = _refresh env w.
Proof.
  open_world w. unfold data_or_refresh, _refresh. run.
  destruct c_data; reflexivity.
Qed.

Lemma check_exhaust_noop env w :
  _exhaust_checked (cur w) = true -> check_exhaust env w = (Ok tt, w).
Proof. open_world w. cbn. intros ->. reflexivity. Qed.

Arguments _refresh : simpl never.
Arguments data_or_refresh : simpl never.
Arguments popleft : simpl never.

Lemma next_unfold env w :
  _exhaust_checked (cur w) = true ->
  next env w =
  if _empty (cur w) then (Raise StopIteration, w)
  else match _refresh env w with
       | (Ok n, w1) => if truthy_Z n then popleft w1 else (Raise StopIteration, w1)
       | (Raise e, w1) => (Raise e, w1)
       end.
Proof.
  intros H. open_world w. cbn in H. subst.
  unfold next, check_exhaust. run. cbn.
  destruct c_empty; [reflexivity|]. cbn.
  rewrite data_or_refresh_eq.
  match goal with |- context [_refresh ?e ?w] => destruct (_refresh e w) as [[k|e'] w1] end;
    [|reflexivity].
  destruct (truthy_Z k); reflexivity.
Qed.

(** ** What the frame keeps *)

Ltac frame_field H f :=
  let E := fresh "E" in
  pose proof (f_equal f H) as E; cbn in E.

Lemma frame_empty c c' : frame c' = frame c -> _empty c' = _empty c.
Proof. intros H. exact (f_equal _empty H). Qed.

Lemma frame_checked c c' :
  frame c' = frame c -> _exhaust_checked c' = _exhaust_checked c.
Proof. intros H. exact (f_equal _exhaust_checked H). Qed.

Lemma frame_batch c c' : frame c' = frame c -> _batch_size c' = _batch_size c.
Proof. intros H. exact (f_equal _batch_size H). Qed.

Lemma frame_limit c c' : frame c' = frame c -> _limit c' = _limit c.
Proof. intros H. exact (f_equal _limit H). Qed.

Lemma frame_flags c c' : frame c' = frame c -> _query_flags c' = _query_flags c.
Proof. intros H. exact (f_equal _query_flags H). Qed.

Lemma frame_trans c1 c2 c3 :
  frame c2 = frame c1 -> frame c3 = frame c2 -> frame c3 = frame c1.
Proof. congruence. Qed.

Lemma frame_ensured env w : frame (cur (ensured env w)) = frame (cur w).
Proof. unfold ensured. destruct (is_some (_session (cur w))); reflexivity. Qed.

Lemma frame_preferred env w : frame (cur (preferred env w)) = frame (cur w).
Proof. reflexivity. Qed.

Lemma frame_consume k w : frame (cur (consume k w)) = frame (cur w).
Proof. reflexivity. Qed.

Lemma exchange_frame env op w r w' :
  exchange env op w r w' -> frame (cur w') = frame (cur w).
Proof. destruct 1; auto. Qed.

Lemma refreshed_frame env w r w' :
  refreshed env w r w' -> frame (cur w') = frame (cur w).
Proof.
  destruct 1; auto using frame_ensured.
  eapply frame_trans; [|eapply exchange_frame; eassumption].
  rewrite frame_preferred. apply frame_ensured.
Qed.

(** ** The invariant *)

Lemma inv_ensured env w : inv (cur w) -> inv (cur (ensured env w)).
Proof.
  unfold ensured. destruct (is_some (_session (cur w))); auto.
  intros [? ? ? ? ?]; constructor; auto.
Qed.

Lemma inv_preferred env w : inv (cur w) -> inv (cur (preferred env w)).
Proof. intros [? ? ? ? ?]; constructor; auto. Qed.

Lemma inv_consume k w : inv (cur w) -> inv (cur (consume k w)).
Proof.
  intros [Ha Hu He Hc Hb]; constructor; cbn; auto.
  - intros E. destruct (Hu E) as [-> ?]. rewrite skipn_nil. auto.
  - intros E. rewrite (He E). apply skipn_nil.
Qed.

Lemma inv_died c : inv c -> inv (died c).
Proof. intros [? ? ? ? ?]; constructor; auto. Qed.

Lemma exchange_inv env op w r w' :
  exchange env op w r w' -> inv (cur w) -> _empty (cur w) = false ->
  inv (cur w').
Proof.
  intros X [Ha Hu He Hc Hb] Hne.
  destruct X as [ | e r w' evs _ _ _ _ Hf Hid Hd Hr Had _ _
                 | resp r w' evs _ _ _ _ Hf Had Hid _ ]; [constructor; auto | | ].
  - constructor.
    + unfold id_truthy. rewrite Hid, Had. exact Ha.
    + rewrite Hid, Hd, Hr. exact Hu.
    + rewrite (frame_empty _ _ Hf), Hne. discriminate.
    + rewrite (frame_checked _ _ Hf). exact Hc.
    + rewrite (frame_batch _ _ Hf). exact Hb.
  - constructor.
    + rewrite Had. discriminate.
    + intros E. contradiction.
    + rewrite (frame_empty _ _ Hf), Hne. discriminate.
    + rewrite (frame_checked _ _ Hf). exact Hc.
    + rewrite (frame_batch _ _ Hf). exact Hb.
Qed.

Lemma empty_ensured env w : _empty (cur (ensured env w)) = _empty (cur w).
Proof. apply frame_empty, frame_ensured. Qed.

Lemma refreshed_inv env w r w' :
  refreshed env w r w' -> inv (cur w) -> _empty (cur w) = false ->
  inv (cur w').
Proof.
  destruct 1; intros I E; auto using inv_ensured.
  eapply exchange_inv; [eassumption | |].
  - apply inv_preferred, inv_ensured, I.
  - cbn. rewrite empty_ensured. exact E.
Qed.

Lemma ensured_data env w : _data (cur (ensured env w)) = _data (cur w).
Proof. unfold ensured. destruct (is_some (_session (cur w))); reflexivity. Qed.

Lemma refreshed_len env w n w' :
  refreshed env w (Ok n) w' -> n = len (_data (cur w')).
Proof.
  intros R. inversion R; subst; auto.
  - rewrite ensured_data.
    match goal with H : _data _ = [] |- _ => rewrite H end; reflexivity.
  - destruct r; [congruence|discriminate].
Qed.

(** ** [next] and [_next_batch], case by case *)

Lemma popleft_cons w d ds :
  _data (cur w) = d :: ds -> popleft w = (Ok d, consume 1 w).
Proof. open_world w. cbn. intros ->. reflexivity. Qed.

Lemma len_zero_nil {A} (l : list A) : len l = 0 -> l = [].
Proof. destruct l; [reflexivity|]. rewrite len_cons. pose proof (len_nonneg l). lia. Qed.

Lemma next_summary env w :
  _exhaust_checked (cur w) = true ->
  next_result env w (fst (next env w)) (snd (next env w)).
Proof.
  intros H. rewrite (next_unfold env w H).
  destruct (_empty (cur w)) eqn:E; [apply nx_empty; exact E|].
  pose proof (refresh_summary env w) as R.
  destruct (_refresh env w) as [[n|e] w1]; cbn [fst snd] in R.
  - pose proof (refreshed_len _ _ _ _ R) as Hn.
    destruct (_data (cur w1)) as [|d ds] eqn:D.
    + subst n. cbn. apply nx_stop; assumption.
    + assert (T : truthy_Z n = true).
      { subst n. rewrite len_cons. unfold truthy_Z.
        pose proof (len_nonneg ds).
        destruct (len ds + 1 =? 0) eqn:Z0; [apply Z.eqb_eq in Z0; lia|reflexivity]. }
      rewrite T, (popleft_cons w1 _ _ D). cbn. eapply nx_doc; eassumption.
  - cbn. apply nx_raise; assumption.
Qed.

Lemma take_batch w result total :
  (c <- self;;
   match total with
   | None => assign (set_data []);; ret (true, (result ++ _data c)%list)
   | Some total =>
       let k := Z.to_nat (Z.min (len (_data c)) total) in
       assign (set_data (skipn k (_data c)));;
       ret (true, (result ++ firstn k (_data c))%list)
   end) w =
  (Ok (true, (result ++ firstn (taken total (_data (cur w))) (_data (cur w)))%list),
   consume (taken total (_data (cur w))) w).
Proof.
  open_world w. unfold consume, taken. run. cbn.
  destruct total; cbn; [reflexivity|].
  rewrite firstn_all, skipn_all. reflexivity.
Qed.

Lemma next_batch_unfold env result total w :
  _exhaust_checked (cur w) = true ->
  _next_batch env result total w =
  if _empty (cur w) then (Ok (false, result), w)
  else match _refresh env w with
       | (Ok n, w1) =>
           if truthy_Z n
           then (Ok (true, (result ++ firstn (taken total (_data (cur w1)))
                                             (_data (cur w1)))%list),
                 consume (taken total (_data (cur w1))) w1)
           else (Ok (false, result), w1)
       | (Raise e, w1) => (Raise e, w1)
       end.
Proof.
  intros H. open_world w. cbn in H. subst.
  unfold _next_batch, check_exhaust. run. cbn.
  destruct c_empty; [reflexivity|]. cbn.
  rewrite data_or_refresh_eq.
  match goal with |- context [_refresh ?e ?w] => destruct (_refresh e w) as [[k|e'] w1] end;
    [|reflexivity].
  destruct (truthy_Z k); [|reflexivity].
  pose proof (take_batch w1 result total) as T. run. exact T.
Qed.

Lemma next_batch_summary env result total w :
  _exhaust_checked (cur w) = true ->
  batch_result env result total w (fst (_next_batch env result total w))
    (snd (_next_batch env result total w)).
Proof.
  intros H. rewrite (next_batch_unfold env result total w H).
  destruct (_empty (cur w)) eqn:E; [apply nb_empty; exact E|].
  pose proof (refresh_summary env w) as R.
  destruct (_refresh env w) as [[n|e] w1]; cbn [fst snd] in R.
  - pose proof (refreshed_len _ _ _ _ R) as Hn.
    destruct (_data (cur w1)) as [|d ds] eqn:D.
    + subst n. cbn. apply nb_none; assumption.
    + assert (T : truthy_Z n = true).
      { subst n. rewrite len_cons. unfold truthy_Z.
        pose proof (len_nonneg ds).
        destruct (len ds + 1 =? 0) eqn:Z0; [apply Z.eqb_eq in Z0; lia|reflexivity]. }
      rewrite T. cbn [fst snd]. rewrite <- D.
      eapply nb_docs; try eassumption. rewrite D. discriminate.
  - cbn. apply nb_raise; assumption.
Qed.

Arguments _next_batch : simpl never.
Arguments next : simpl never.

Lemma loop_unfold env fuel length res remaining w :
  to_list_loop env (S fuel) length res remaining w =
  if alive (cur w) then
    match _next_batch env res remaining w with
    | (Ok br, w1) =>
        if negb (fst br) then (Ok (snd br), w1)
        else match length with
             | Some n =>
                 if n - len (snd br) =? 0 then (Ok (snd br), w1)
                 else to_list_loop env fuel length (snd br)
                        (Some (n - len (snd br))) w1
             | None => to_list_loop env fuel length (snd br) remaining w1
             end
    | (Raise e, w1) => (Raise e, w1)
    end
  else (Ok res, w).
Proof.
  cbn [to_list_loop]. unfold bind at 1. unfold self at 1.
  destruct (alive (cur w)); [|reflexivity].
  unfold bind.
  destruct (_next_batch env res remaining w) as [[br|e] w1]; [|reflexivity].
  destruct (negb (fst br)); [reflexivity|].
  destruct length as [n|]; [|reflexivity].
  destruct (n - len (snd br) =? 0); reflexivity.
Qed.

(** ** Invariants of the advance operations *)

Section Advancing.

Variable env : Env.
Variable P : World -> Prop.
Hypothesis P_inv : forall w, P w -> inv (cur w).
Hypothesis P_refresh :
  forall w r w', P w -> _empty (cur w) = false -> refreshed env w r w' -> P w'.
Hypothesis P_consume : forall w k, P w -> P (consume k w).

Lemma next_keeps w : P w -> P (snd (next env w)).
Proof.
  intros H.
  destruct (next_summary env w (inv_checked _ (P_inv _ H))); eauto.
Qed.

Lemma next_batch_keeps result total w :
  P w -> P (snd (_next_batch env result total w)).
Proof.
  intros H.
  destruct (next_batch_summary env result total w (inv_checked _ (P_inv _ H)));
    eauto.
Qed.

Lemma loop_keeps fuel : forall length res remaining w,
  P w -> P (snd (to_list_loop env fuel length res remaining w)).
Proof.
  induction fuel as [|fuel IH]; intros length res remaining w H; [exact H|].
  rewrite loop_unfold.
  destruct (alive (cur w)); [|exact H].
  pose proof (next_batch_keeps res remaining _ H) as H1.
  destruct (_next_batch env res remaining w) as [[br|e] w1]; cbn [snd] in H1;
    [|exact H1].
  destruct (negb (fst br)); [exact H1|].
  destruct length as [n|]; [|apply IH; exact H1].
  destruct (n - len (snd br) =? 0); [exact H1|apply IH; exact H1].
Qed.

Lemma to_list_keeps fuel length w :
  P w -> P (snd (to_list env fuel length w)).
Proof.
  intros H. unfold to_list.
  destruct length as [n|]; [destruct (n <? 1); [exact H|]|]; apply loop_keeps, H.
Qed.

Lemma run_advance_keeps a w : P w -> P (snd (run_advance env a w)).
Proof.
  intros H. destruct a as [|fuel length]; cbn [run_advance].
  - unfold bind. pose proof (next_keeps _ H) as H1.
    destruct (next env w) as [[d|e] w1]; exact H1.
  - apply to_list_keeps, H.
Qed.

Lemma run_advances_keeps ops : forall w,
  P w -> P (snd (run_advances env ops w)).
Proof.
  induction ops as [|a ops IH]; intros w H; [exact H|].
  cbn [run_advances].
  pose proof (run_advance_keeps a _ H) as H1.
  destruct (run_advance env a w) as [r w1]. cbn [snd] in H1.
  specialize (IH w1 H1).
  destruct (run_advances env ops w1) as [ds w2]. exact IH.
Qed.

End Advancing.

Lemma advance_inv env a w : inv (cur w) -> inv (cur (snd (run_advance env a w))).
Proof.
  apply (@run_advance_keeps env inv_world); unfold inv_world; auto.
  - intros; eapply refreshed_inv; eassumption.
  - intros; apply inv_consume; assumption.
Qed.

Lemma close_inv w : inv (cur w) -> inv (cur (snd (close w))).
Proof.
  intros I. unfold close, _die_lock. rewrite die_closed.
  destruct (die_raises (cur w)); cbn.
  - destruct I; constructor; auto.
  - apply inv_died, I.
Qed.

Lemma close_returns w :
  inv (cur w) ->
  close w = (Ok tt, mkWorld (died (cur w))
                      (trace w ++ kill_events true (cur w) ++ release_events (cur w))
                      (clock w)).
Proof.
  intros I. unfold close, _die_lock. rewrite die_closed.
  destruct (die_raises (cur w)) eqn:D; [|reflexivity].
  exfalso. unfold die_raises in D.
  apply andb_prop in D as [D1 D2]. apply andb_prop in D1 as [D1 _].
  pose proof (inv_address _ I D1) as A.
  destruct (_address (cur w)); [discriminate|contradiction].
Qed.

Lemma rewind_inv w : inv (cur w) -> inv (cur (snd (rewind w))).
Proof.
  intros I. unfold rewind. unfold bind at 1. rewrite (close_returns w I).
  destruct I. cbn. constructor; cbn; auto; discriminate.
Qed.

Ltac setter_defs :=
  unfold limit, skip, batch_size, sort, hint, _set_hint, collation, comment,
    max_time_ms, max_await_time_ms, min, max, max_scan, add_option,
    remove_option, allow_disk_use, where_, __getitem__, _check_okay_to_chain, Code.

Lemma setter_inv env s w :
  inv (cur w) -> inv (cur (snd (run_setter env s w))).
Proof.
  intros [Ha Hu He Hc Hb]. open_world w. cbn in *.
  destruct s; cbn [run_setter]; setter_defs; run; cbn;
    repeat step; constructor; cbn; auto; try discriminate.
  apply Z.ltb_ge. assumption.
Qed.

Lemma getitem_inv start stop stride w :
  inv (cur w) -> inv (cur (snd (__getitem__ start stop stride w))).
Proof.
  intros [Ha Hu He Hc Hb]. open_world w. cbn in *.
  setter_defs; run; cbn.
  repeat step; constructor; cbn; auto; try discriminate;
    intros; apply Hu; reflexivity.
Qed.

Lemma init_inv env a c : __init__ env a = Ok c -> inv c.
Proof.
  unfold __init__, _supports_exhaust. run.
  repeat (split_match; cbn in *; try discriminate).
  all: intros E; inversion E; subst; clear E; constructor; cbn; auto;
    try discriminate; try (apply Z.ltb_ge; assumption).
Qed.

Lemma perform_inv env k w : inv (cur w) -> inv (cur (after env k w)).
Proof.
  intros I. unfold after. destruct k; cbn [perform].
  - apply setter_inv, I.
  - apply getitem_inv, I.
  - unfold bind. pose proof (advance_inv env a w I) as H.
    destruct (run_advance env a w) as [[ds|e] w1]; exact H.
  - apply close_inv, I.
  - apply rewind_inv, I.
Qed.

Lemma reachable_inv env w : reachable env w -> inv (cur w).
Proof.
  induction 1 as [a c H | w k _ IH].
  - exact (init_inv env a c H).
  - apply perform_inv, IH.
Qed.


Lemma no_modifiers_operators c : no_modifiers c -> operators c = [].
Proof.
  intros (H1 & H2 & H3 & H4 & H5 & H6 & H7 & H8 & H9 & H10 & H11 & H12).
  unfold operators. rewrite H1, H2, H3, H4, H5, H6, H7, H8, H9, H10, H11, H12.
  reflexivity.
Qed.

Lemma len_two_plus {A} (a b : A) l : (len (a :: b :: l) =? 1) = false.
Proof.
  apply Z.eqb_neq. rewrite !len_cons. pose proof (len_nonneg l). lia.
Qed.

Lemma wrap_condition spec :
  dict_contains "query" spec
  && ((len spec =? 1)
      || match first_key spec with
         | Some k => String.eqb k "query"
         | None => false
         end) = first_key_is_query spec.
Proof.
  unfold first_key_is_query.
  destruct spec as [|[k v] rest]; [reflexivity|].
  cbn [dict_contains first_key].
  rewrite (String.eqb_sym "query" k).
  destruct rest as [|kv rest].
  - destruct (String.eqb k "query"); reflexivity.
  - rewrite len_two_plus.
    destruct (String.eqb k "query"); cbn [orb andb]; [reflexivity|].
    apply andb_false_r.
Qed.

(** C5 (as amended).  [_query_spec] returns its value and leaves the world
    (cursor, trace and clock) as it found it; with no modifier operator set,
    the value is the filter itself, except that a filter whose FIRST key is
    "query" (a single-key filter being one case of it) is put under the
    [$query] envelope. *)
Theorem query_spec_first_key_rule (w : World) :
  _query_spec w = (Ok (query_spec_of (cur w)), w) /\
  (no_modifiers (cur w) ->
   query_spec_of (cur w) =
   if first_key_is_query (_spec (cur w)) then enveloped (_spec (cur w))
   else _spec (cur w)).
Proof.
  split; [reflexivity|].
  intros H. unfold query_spec_of.
  rewrite (no_modifiers_operators _ H). cbn [truthy_doc].
  rewrite wrap_condition. reflexivity.
Qed.

Lemma query_spec_first_key_rule_witness :
  no_modifiers (cur (Examples.fresh Examples.two_then_one
                       (Examples.with_filter [("query", PInt 1); ("x", PInt 2)]
                          Examples.find_args))) /\
  query_spec_of (cur (Examples.fresh Examples.two_then_one
                        (Examples.with_filter [("query", PInt 1); ("x", PInt 2)]
                           Examples.find_args))) =
  [("$query", PDict [("query", PInt 1); ("x", PInt 2)])].
Proof.
  assert (N : no_modifiers (cur (Examples.fresh Examples.two_then_one
                       (Examples.with_filter [("query", PInt 1); ("x", PInt 2)]
                          Examples.find_args)))).
  { repeat split. }
  split; [exact N|].
  exact (proj2 (query_spec_first_key_rule _) N).
Defined.

(** C5 (as stated) fails: a two-key filter whose first key is "query" is put
    under the envelope although it is not a single-key document. *)
Lemma query_spec_single_key_counterexample :
  ~ single_key_rule
      (cur (Examples.fresh Examples.two_then_one
              (Examples.with_filter [("query", PInt 1); ("x", PInt 2)]
                 Examples.find_args))).
Proof.
  intros H.
  assert (N : no_modifiers (cur (Examples.fresh Examples.two_then_one
                       (Examples.with_filter [("query", PInt 1); ("x", PInt 2)]
                          Examples.find_args)))).
  { repeat split. }
  specialize (H N). vm_compute in H. discriminate H.
Qed.

(** C9.  The code keeps the value on a cursor that is tailable but not
    tailable-with-await: [self._query_flags & CursorType.TAILABLE_AWAIT] is
    not zero as soon as the tailable flag alone is set.  On a new cursor of
    type [TAILABLE] (no await-data flag), [max_await_time_ms(100)] returns
    and stores 100, where the docstring says the value is ignored. *)
Theorem max_await_time_ms_on_plain_tailable :
  let w := Examples.fresh Examples.two_then_one
             (Examples.with_type CursorType.TAILABLE Examples.find_args) in
  _cursor_type (cur w) = CursorType.TAILABLE /\
  CursorType.TAILABLE <> CursorType.TAILABLE_AWAIT /\
  has_flag (_query_flags (cur w)) QUERY_OPTIONS.await_data = false /\
  _max_await_time_ms (cur w) = None /\
  fst (max_await_time_ms (Some 100) w) = Ok tt /\
  _max_await_time_ms (cur (snd (max_await_time_ms (Some 100) w))) = Some 100.
Proof. vm_compute. repeat split; discriminate. Qed.





(** ** Traces *)

Lemma skipn_length_app {A} (l r : list A) : skipn (List.length l) (l ++ r) = r.
Proof. induction l; [reflexivity|assumption]. Qed.

Lemma emitted_of {A} (m : M A) w evs :
  trace (snd (m w)) = (trace w ++ evs)%list -> emitted m w = evs.
Proof. intros H. unfold emitted. rewrite H. apply skipn_length_app. Qed.

Lemma emitted_same {A} (m : M A) w :
  trace (snd (m w)) = trace w -> emitted m w = [].
Proof. intros H. apply emitted_of. rewrite app_nil_r. exact H. Qed.

Lemma quiet_no_exchange evs op : quiet evs -> ~ In (EvRunOperation op) evs.
Proof.
  intros Q I. unfold quiet in Q. rewrite Forall_forall in Q.
  specialize (Q _ I). discriminate Q.
Qed.

Lemma ensured_trace env w :
  exists evs, trace (ensured env w) = (trace w ++ evs)%list /\ quiet evs.
Proof.
  unfold ensured. destruct (is_some (_session (cur w))).
  - exists []. rewrite app_nil_r. split; [reflexivity|constructor].
  - exists [EvEnsureSession]. split; [reflexivity|repeat constructor].
Qed.

Lemma ensured_clock env w : clock (ensured env w) = clock w.
Proof. unfold ensured. destruct (is_some (_session (cur w))); reflexivity. Qed.

(** What [_refresh] adds to the trace: events that are no exchange, then at
    most one exchange, then events that are no exchange. *)
Lemma refreshed_trace env w r w' :
  refreshed env w r w' ->
  exists before, quiet before /\
    (trace w' = (trace w ++ before)%list /\ clock w' = clock w \/
     exists after,
       quiet after /\ clock w' = S (clock w) /\ _data (cur w) = [] /\
       _killed (cur w) = false /\
       trace w' = (trace w ++ before ++
                   EvRunOperation (pending_op env (cur (ensured env w))) :: after)%list).
Proof.
  destruct 1 as [ | | | r w' D K I U X].
  - exists []. split; [constructor|]. left. rewrite app_nil_r. auto.
  - destruct (ensured_trace env w) as (evs & T & Q).
    exists evs. split; [exact Q|]. left. split; [exact T|apply ensured_clock].
  - destruct (ensured_trace env w) as (evs & T & Q).
    exists evs. split; [exact Q|]. left. split; [exact T|apply ensured_clock].
  - destruct (ensured_trace env w) as (evs & T & Q).
    exists evs. split; [exact Q|].
    inversion X as [ R | e r0 w0 after _ Tw Qa Cw | resp r0 w0 after _ Tw Qa Cw ]; subst.
    + left. cbn. split; [exact T|apply ensured_clock].
    + right. exists after. cbn in Tw, Cw. rewrite T in Tw.
      rewrite ensured_clock in Cw. rewrite <- app_assoc in Tw. auto.
    + right. exists after. cbn in Tw, Cw. rewrite T in Tw.
      rewrite ensured_clock in Cw. rewrite <- app_assoc in Tw. auto.
Qed.

Lemma getmore_limit_ensured env w :
  getmore_limit (cur (ensured env w)) = getmore_limit (cur w).
Proof. unfold ensured. destruct (is_some (_session (cur w))); reflexivity. Qed.

Lemma getmore_limit_guarded c : getmore_limit c = guarded_minimum c.
Proof.
  unfold getmore_limit, guarded_minimum, truthy_Z.
  destruct (_limit c =? 0); [reflexivity|].
  destruct (_batch_size c =? 0); reflexivity.
Qed.

(** C6 (as amended).  Every fetch-more [_refresh] issues asks for
    [min(limit - retrieved, batch_size)] documents when a limit and a batch
    size are set, for [limit - retrieved] when a limit is set and the batch
    size is zero, and for [batch_size] when no limit is set. *)
Theorem getmore_batch_size (env : Env) (w : World) (g : GetMore) :
  In (EvRunOperation (OpGetMore g)) (emitted (_refresh env) w) ->
  g_ntoreturn g = guarded_minimum (cur w).
Proof.
  intros I.
  destruct (refreshed_trace env w _ _ (refresh_summary env w))
    as (before & Qb & [[T _] | (after & Qa & _ & _ & _ & T)]).
  - rewrite (emitted_of _ _ _ T) in I.
    exfalso. exact (quiet_no_exchange _ _ Qb I).
  - rewrite (emitted_of _ _ _ T) in I.
    apply in_app_or in I as [I|[I|I]].
    + exfalso. exact (quiet_no_exchange _ _ Qb I).
    + injection I as I.
      rewrite <- getmore_limit_guarded, <- (getmore_limit_ensured env w).
      unfold pending_op in I.
      destruct (_id (cur (ensured env w))); [|discriminate I].
      injection I as I. rewrite <- I. reflexivity.
    + exfalso. exact (quiet_no_exchange _ _ Qa I).
Qed.

Lemma getmore_batch_size_witness :
  In (EvRunOperation (OpGetMore three_more))
     (emitted (_refresh Examples.two_then_one) two_of_five) /\
  g_ntoreturn three_more = guarded_minimum (cur two_of_five).
Proof.
  assert (I : In (EvRunOperation (OpGetMore three_more))
                 (emitted (_refresh Examples.two_then_one) two_of_five)).
  { vm_compute. left. reflexivity. }
  split; [exact I|].
  exact (getmore_batch_size Examples.two_then_one two_of_five three_more I).
Defined.

(** C6 (as stated) fails: with limit 5, two documents retrieved and no batch
    size, the fetch-more asks for 3 documents, not for [min(3, 0)]. *)
Lemma getmore_plain_minimum_counterexample :
  In (EvRunOperation (OpGetMore three_more))
     (emitted (_refresh Examples.two_then_one) two_of_five) /\
  g_ntoreturn three_more <> plain_minimum (cur two_of_five).
Proof.
  split; [vm_compute; left; reflexivity|].
  vm_compute. discriminate.
Qed.

(** ** A cursor that has not started *)

Lemma refreshed_unhinted env w r w' :
  refreshed env w r w' ->
  _id (cur w) = None -> _killed (cur w) = false -> _data (cur w) = [] ->
  unhinted (cur w) = true ->
  r = Raise InvalidOperation /\ w' = ensured env w.
Proof.
  intros R I K D U.
  destruct R as [[H|H] | _ _ H | | r w' _ _ _ H _].
  - contradiction.
  - congruence.
  - congruence.
  - auto.
  - specialize (H I). congruence.
Qed.

(** C8.  On a cursor a program can have, not yet started (no server cursor
    id), neither closed nor emptied by a slice, with [min] or [max] bounds
    and no [hint], the refill that iterating triggers raises
    [InvalidOperation], and nothing was exchanged with the server. *)
Theorem min_max_without_hint (env : Env) (w : World) :
  reachable env w ->
  _id (cur w) = None -> _killed (cur w) = false -> _empty (cur w) = false ->
  unhinted (cur w) = true ->
  fst (_refresh env w) = Raise InvalidOperation /\
  fst (next env w) = Raise InvalidOperation /\
  clock (snd (next env w)) = clock w /\
  filter is_exchange (emitted (next env) w) = [].
Proof.
  intros R I K E U.
  pose proof (reachable_inv env w R) as V.
  destruct (inv_unstarted _ V I) as [D _].
  destruct (refreshed_unhinted env w _ _ (refresh_summary env w) I K D U)
    as [Hr Hw].
  assert (N : next env w = (Raise InvalidOperation, ensured env w)).
  { rewrite (next_unfold env w (inv_checked _ V)), E.
    destruct (_refresh env w) as [r w1]. cbn [fst snd] in Hr, Hw.
    subst. reflexivity. }
  split; [exact Hr|]. rewrite N. cbn [fst snd].
  split; [reflexivity|]. split; [apply ensured_clock|].
  destruct (ensured_trace env w) as (evs & T & Q).
  assert (X : emitted (next env) w = evs).
  { apply emitted_of. rewrite N. exact T. }
  rewrite X. clear - Q.
  induction Q as [|e evs He _ IH]; [reflexivity|].
  cbn. rewrite He. exact IH.
Qed.

Lemma min_max_without_hint_witness :
  let w := Examples.fresh Examples.two_then_one
             (Examples.with_min [("a", PInt 1)] Examples.find_args) in
  fst (_refresh Examples.two_then_one w) = Raise InvalidOperation /\
  fst (next Examples.two_then_one w) = Raise InvalidOperation /\
  clock (snd (next Examples.two_then_one w)) = clock w /\
  filter is_exchange (emitted (next Examples.two_then_one) w) = [].
Proof.
  apply min_max_without_hint.
  - apply (reach_init _ (Examples.with_min [("a", PInt 1)] Examples.find_args)).
    vm_compute. reflexivity.
  - reflexivity.
  - reflexivity.
  - reflexivity.
  - reflexivity.
Defined.

(** ** The empty cursor *)

Lemma empty_next env w :
  _empty (cur w) = true -> _exhaust_checked (cur w) = true ->
  next env w = (Raise StopIteration, w).
Proof. intros E C. rewrite (next_unfold env w C), E. reflexivity. Qed.

Lemma empty_loop env fuel length w :
  _empty (cur w) = true -> _exhaust_checked (cur w) = true ->
  exists r, to_list_loop env fuel length [] length w = (r, w) /\
            (r = Ok [] \/ exists e, r = Raise e).
Proof.
  intros E C. destruct fuel as [|fuel].
  - eexists. split; [reflexivity|]. right. eauto.
  - rewrite loop_unfold.
    destruct (alive (cur w)); [|eauto].
    rewrite (next_batch_unfold env [] length w C), E. cbn. eauto.
Qed.

Lemma empty_advance env a w :
  _empty (cur w) = true -> _exhaust_checked (cur w) = true ->
  exists r, run_advance env a w = (r, w) /\
            (r = Ok [] \/ exists e, r = Raise e).
Proof.
  intros E C. destruct a as [|fuel length]; cbn [run_advance].
  - unfold bind. rewrite (empty_next env w E C). eauto.
  - unfold to_list. destruct length as [n|].
    + destruct (n <? 1); [eexists; split; [reflexivity|eauto]|].
      apply empty_loop; assumption.
    + apply empty_loop; assumption.
Qed.

Lemma empty_advances env ops w :
  _empty (cur w) = true -> _exhaust_checked (cur w) = true ->
  run_advances env ops w = ([], w).
Proof.
  intros E C. induction ops as [|a ops IH]; [reflexivity|].
  cbn [run_advances].
  destruct (empty_advance env a w E C) as (r & -> & [->|[e ->]]);
    rewrite IH; reflexivity.
Qed.

Lemma empty_to_list env fuel length w :
  _empty (cur w) = true -> _exhaust_checked (cur w) = true ->
  (forall n, length = Some n -> 1 <= n) ->
  to_list env (S fuel) length w = (Ok [], w).
Proof.
  intros E C L.
  assert (H : to_list_loop env (S fuel) length [] length w = (Ok [], w)).
  { rewrite loop_unfold.
    destruct (alive (cur w)); [|reflexivity].
    rewrite (next_batch_unfold env [] length w C), E. reflexivity. }
  unfold to_list. destruct length as [n|]; [|exact H].
  destruct (n <? 1) eqn:N; [|exact H].
  apply Z.ltb_lt in N. specialize (L n eq_refl). lia.
Qed.

(** C7 (as amended).  On a cursor a program can have and that may still be
    configured (nothing retrieved, no server cursor id), the slice
    [cursor[start:start]] with [start >= 0] returns and leaves the cursor in
    the EMPTY state without any event.  From then on [next] signals the end
    of the stream at once (it raises [StopIteration]) and [to_list], for no
    length or a length of one or more, returns the empty list, each leaving
    the world, trace and clock included, as it is; and so every sequence
    of advance operations hands out no document and performs no
    exchange. *)
Theorem zero_width_slice (env : Env) (w : World) (start : Z) :
  reachable env w ->
  _retrieved (cur w) = 0 -> _id (cur w) = None -> 0 <= start ->
  exists w1,
    __getitem__ (Some start) (Some start) None w = (Ok tt, w1) /\
    _empty (cur w1) = true /\
    trace w1 = trace w /\ clock w1 = clock w /\
    next env w1 = (Raise StopIteration, w1) /\
    (forall fuel length, (forall n, length = Some n -> 1 <= n) ->
       to_list env (S fuel) length w1 = (Ok [], w1)) /\
    forall ops, run_advances env ops w1 = ([], w1).
Proof.
  intros R Hr Hi Hs.
  pose proof (inv_checked _ (reachable_inv env w R)) as C.
  assert (G : exists w1,
             __getitem__ (Some start) (Some start) None w = (Ok tt, w1) /\
             _empty (cur w1) = true /\ trace w1 = trace w /\
             clock w1 = clock w /\ _exhaust_checked (cur w1) = true).
  { open_world w. cbn in *. subst.
    setter_defs; run; cbn.
    destruct (start <? 0) eqn:E; [apply Z.ltb_lt in E; lia|]. cbn.
    rewrite Z.sub_diag. cbn. eexists. repeat split. }
  destruct G as (w1 & G & E & T & K & C1).
  exists w1. repeat split; auto.
  - apply empty_next; assumption.
  - intros fuel length L. apply empty_to_list; assumption.
  - intros ops. apply empty_advances; assumption.
Qed.

Lemma zero_width_slice_witness :
  exists w1,
    __getitem__ (Some 5) (Some 5) None
      (Examples.fresh Examples.two_then_one Examples.find_args) = (Ok tt, w1) /\
    _empty (cur w1) = true /\
    trace w1 = trace (Examples.fresh Examples.two_then_one Examples.find_args) /\
    clock w1 = clock (Examples.fresh Examples.two_then_one Examples.find_args) /\
    next Examples.two_then_one w1 = (Raise StopIteration, w1) /\
    (forall fuel length, (forall n, length = Some n -> 1 <= n) ->
       to_list Examples.two_then_one (S fuel) length w1 = (Ok [], w1)) /\
    forall ops, run_advances Examples.two_then_one ops w1 = ([], w1).
Proof.
  apply zero_width_slice.
  - apply (reach_init _ Examples.find_args). vm_compute. reflexivity.
  - reflexivity.
  - reflexivity.
  - lia.
Defined.

(** C7 (as stated) fails: [cursor[-1:-1]] raises [IndexError] and the cursor
    is not left in the EMPTY state. *)
Lemma negative_zero_width_slice_counterexample :
  fst (__getitem__ (Some (-1)) (Some (-1)) None
         (Examples.fresh Examples.two_then_one Examples.find_args))
  = Raise IndexError /\
  ~ empty_range_law Examples.two_then_one
      (Examples.fresh Examples.two_then_one Examples.find_args) (-1).
Proof.
  split; [reflexivity|].
  intros [E _]. vm_compute in E. discriminate E.
Qed.

(** ** Closing *)

Lemma refresh_idle env w :
  _data (cur w) <> [] \/ _killed (cur w) = true ->
  _refresh env w = (Ok (len (_data (cur w))), w).
Proof.
  intros H. open_world w. cbn in H. unfold _refresh. run. cbn.
  destruct c_data as [|d ds]; cbn.
  - destruct H as [H|H]; [contradiction|]. subst. reflexivity.
  - reflexivity.
Qed.

Lemma alive_consume_nil w d :
  _data (cur w) = [d] -> _killed (cur w) = true ->
  alive (cur (consume 1 w)) = false.
Proof. open_world w. cbn. intros -> ->. reflexivity. Qed.

Lemma drains_buffer env ds : forall w,
  _exhaust_checked (cur w) = true -> _empty (cur w) = false ->
  _killed (cur w) = true -> _data (cur w) = ds ->
  drains env ds w.
Proof.
  induction ds as [|d ds IH]; intros w C E K D; cbn [drains].
  - split.
    + rewrite (next_unfold env w C), E, (refresh_idle env w (or_intror K)), D.
      reflexivity.
    + unfold alive. rewrite D, K. reflexivity.
  - split; [|split].
    + unfold alive. rewrite D. reflexivity.
    + rewrite (next_unfold env w C), E.
      rewrite (refresh_idle env w) by (left; rewrite D; discriminate).
      rewrite D, len_cons.
      assert (T : truthy_Z (len ds + 1) = true).
      { unfold truthy_Z. pose proof (len_nonneg ds).
        destruct (len ds + 1 =? 0) eqn:Z0; [apply Z.eqb_eq in Z0; lia|reflexivity]. }
      rewrite T. apply (popleft_cons w d ds D).
    + apply IH; cbn; auto. rewrite D. reflexivity.
Qed.

Lemma truthy_len_cons {A} (a : A) l : truthy_Z (len (a :: l)) = true.
Proof.
  rewrite len_cons. unfold truthy_Z. pose proof (len_nonneg l).
  destruct (len l + 1 =? 0) eqn:Z0; [apply Z.eqb_eq in Z0; lia|reflexivity].
Qed.

Lemma alive_buffer c : _data c <> [] -> alive c = true.
Proof.
  intros D. unfold alive. destruct (_data c); [contradiction|].
  rewrite truthy_len_cons. reflexivity.
Qed.

(** C10.  Closing a cursor a program can have leaves its buffer as it is:
    [close] returns, the cursor is marked killed and is still alive, and
    [next] then hands out every buffered document, first in first out,
    each call changing nothing but the buffer (so no exchange takes place),
    the cursor being alive until the last one is taken; then [next] signals
    the end of the stream. *)
Theorem close_keeps_buffer (env : Env) (w : World) :
  reachable env w -> _data (cur w) <> [] ->
  exists w1,
    close w = (Ok tt, w1) /\
    _killed (cur w1) = true /\
    _data (cur w1) = _data (cur w) /\
    alive (cur w1) = true /\
    drains env (_data (cur w)) w1.
Proof.
  intros R D.
  pose proof (reachable_inv env w R) as V.
  rewrite (close_returns w V). eexists. split; [reflexivity|].
  assert (E : _empty (cur w) = false).
  { destruct (_empty (cur w)) eqn:E; [|reflexivity].
    elim D. exact (inv_empty _ V E). }
  cbn [cur]. repeat split.
  - apply alive_buffer. exact D.
  - apply drains_buffer; cbn; auto. exact (inv_checked _ V).
Qed.

Lemma close_keeps_buffer_witness :
  exists w1,
    close (after Examples.two_then_one (Advance Next)
             (Examples.fresh Examples.two_then_one Examples.find_args))
    = (Ok tt, w1) /\
    _killed (cur w1) = true /\
    _data (cur w1) = [Examples.doc 2] /\
    alive (cur w1) = true /\
    drains Examples.two_then_one [Examples.doc 2] w1.
Proof.
  apply (close_keeps_buffer Examples.two_then_one
           (after Examples.two_then_one (Advance Next)
              (Examples.fresh Examples.two_then_one Examples.find_args))).
  - apply reach_call.
    apply (reach_init _ Examples.find_args). vm_compute. reflexivity.
  - vm_compute. discriminate.
Defined.

Lemma kill_events_count locked c :
  (count_if is_kill (kill_events locked c) <= 1)%nat.
Proof.
  unfold kill_events, count_if.
  destruct (_id c), (_address c); cbn; try lia.
  destruct (truthy_Z z && negb (_killed c)); cbn; lia.
Qed.

Lemma release_events_count c :
  count_if is_kill (release_events c) = 0%nat /\
  (count_if is_unpin (release_events c) <= 1)%nat.
Proof.
  unfold release_events, count_if, ConnectionManager_close.
  destruct (_sock_mgr c) as [m|]; [destruct (conn m)|];
    (destruct (_session c); [destruct (_explicit_session c)|]); cbn; lia.
Qed.

Lemma kill_events_unpin locked c :
  count_if is_unpin (kill_events locked c) = 0%nat.
Proof.
  unfold kill_events, count_if.
  destruct (_id c), (_address c); cbn; try lia.
  destruct (truthy_Z z && negb (_killed c)); cbn; lia.
Qed.

Lemma count_if_app p a b :
  count_if p (a ++ b) = (count_if p a + count_if p b)%nat.
Proof. unfold count_if. rewrite filter_app, length_app. reflexivity. Qed.

Lemma close_again c t n :
  close (mkWorld (died c) t n) = (Ok tt, mkWorld (died c) t n).
Proof.
  unfold close, _die_lock. rewrite die_closed.
  open_cursor c.
  unfold die_raises, id_truthy, kill_events, release_events, died.
  cbn. rewrite andb_false_r. cbn.
  destruct c_id as [i|]; [destruct c_address|]; cbn;
    rewrite ?andb_false_r; cbn;
    destruct c_explicit; cbn; try destruct c_session; cbn;
    rewrite ?app_nil_r; reflexivity.
Qed.

(** C4.  On a cursor a program can have, [close] returns, and a second
    [close] returns too and changes nothing: it issues no event at all.  The
    two calls together issue at most one kill-cursors exchange and return
    the pinned connection to the pool at most once.  Closing a connection
    manager returns its connection at most once, and closing it again
    returns nothing. *)
Theorem close_idempotent (env : Env) (w : World) :
  reachable env w ->
  exists w1,
    close w = (Ok tt, w1) /\
    close w1 = (Ok tt, w1) /\
    (count_if is_kill (emitted close w ++ emitted close w1) <= 1)%nat /\
    (count_if is_unpin (emitted close w ++ emitted close w1) <= 1)%nat /\
    forall m : ConnectionManager,
      (List.length (snd (ConnectionManager_close m)) <= 1)%nat /\
      ConnectionManager_close (fst (ConnectionManager_close m)) =
      (fst (ConnectionManager_close m), []).
Proof.
  intros R.
  pose proof (reachable_inv env w R) as V.
  pose proof (close_returns w V) as C1.
  eexists. split; [exact C1|].
  pose proof (close_again (cur w)
                (trace w ++ kill_events true (cur w) ++ release_events (cur w))
                (clock w)) as C2.
  split; [exact C2|].
  assert (E1 : emitted close w
               = (kill_events true (cur w) ++ release_events (cur w))%list).
  { apply emitted_of. rewrite C1. reflexivity. }
  assert (E2 : emitted close
                 (mkWorld (died (cur w))
                    (trace w ++ kill_events true (cur w) ++ release_events (cur w))
                    (clock w)) = []).
  { apply emitted_same. rewrite C2. reflexivity. }
  rewrite E1, E2, app_nil_r, !count_if_app.
  pose proof (kill_events_count true (cur w)).
  pose proof (kill_events_unpin true (cur w)).
  destruct (release_events_count (cur w)).
  split; [lia|]. split; [lia|].
  intros [[cn|] mtc]; unfold ConnectionManager_close; cbn;
    (split; [lia|reflexivity]).
Qed.

Lemma close_idempotent_witness :
  exists w1,
    close (after Examples.two_then_one (Advance Next)
             (Examples.fresh Examples.two_then_one Examples.find_args))
    = (Ok tt, w1) /\
    close w1 = (Ok tt, w1) /\
    (count_if is_kill
       (emitted close
          (after Examples.two_then_one (Advance Next)
             (Examples.fresh Examples.two_then_one Examples.find_args))
        ++ emitted close w1) <= 1)%nat /\
    (count_if is_unpin
       (emitted close
          (after Examples.two_then_one (Advance Next)
             (Examples.fresh Examples.two_then_one Examples.find_args))
        ++ emitted close w1) <= 1)%nat /\
    forall m : ConnectionManager,
      (List.length (snd (ConnectionManager_close m)) <= 1)%nat /\
      ConnectionManager_close (fst (ConnectionManager_close m)) =
      (fst (ConnectionManager_close m), []).
Proof.
  apply (close_idempotent Examples.two_then_one).
  apply reach_call.
  apply (reach_init _ Examples.find_args). vm_compute. reflexivity.
Defined.

(** ** A cursor the server has lost *)

Lemma ensured_flags env w :
  _query_flags (cur (ensured env w)) = _query_flags (cur w).
Proof. apply frame_flags, frame_ensured. Qed.

Lemma refreshed_swallow env w r w' code timeout :
  refreshed env w r w' ->
  run_operation env (clock w) (pending_op env (cur (ensured env w)))
  = Fails (OperationFailure code timeout) ->
  in_codes code (_CURSOR_CLOSED_ERRORS env) = true ->
  has_flag (_query_flags (cur w)) QUERY_OPTIONS.tailable_cursor = true ->
  clock w' <> clock w ->
  r = Ok 0 /\ _killed (cur w') = true /\ _data (cur w') = [].
Proof.
  intros R F C T K.
  destruct R as [ | | | r w' D _ _ _ X].
  - contradiction.
  - elim K. apply ensured_clock.
  - elim K. apply ensured_clock.
  - inversion X as [ Hr | e r0 w0 evs Fe _ _ _ _ _ Hd _ _ Hk Hs
                   | resp r0 w0 evs Fr ]; subst.
    + elim K. apply ensured_clock.
    + cbn [clock preferred] in Fe. rewrite ensured_clock, F in Fe.
      injection Fe as <-.
      assert (S : swallowed env (cur (preferred env (ensured env w)))
                    (OperationFailure code timeout) = true).
      { cbn. rewrite ensured_flags, C, T. reflexivity. }
      apply Hs in S. subst r.
      cbn in Hd. rewrite ensured_data, D in Hd. rewrite Hd.
      auto.
    + cbn [clock preferred] in Fr. rewrite ensured_clock, F in Fr.
      discriminate Fr.
Qed.

(** C3.  On a cursor a program can have whose tailable flag is set, when
    [next] performs an exchange and that exchange (the operation the refill
    sends) fails with a server-reported [OperationFailure] whose code is in
    the cursor-closed class, [next] signals the end of the stream
    ([StopIteration]) and does not raise the failure; the cursor is marked
    killed and [alive] is false.  The class is [_CURSOR_CLOSED_ERRORS] of
    the environment, whose value is left open: this holds for every code
    the program counts in it. *)
Theorem tailable_swallow (env : Env) (w : World) (code : option Z)
    (timeout : bool) :
  reachable env w ->
  run_operation env (clock w) (pending_op env (cur (ensured env w)))
  = Fails (OperationFailure code timeout) ->
  in_codes code (_CURSOR_CLOSED_ERRORS env) = true ->
  has_flag (_query_flags (cur w)) QUERY_OPTIONS.tailable_cursor = true ->
  clock (snd (next env w)) <> clock w ->
  fst (next env w) = Raise StopIteration /\
  _killed (cur (snd (next env w))) = true /\
  alive (cur (snd (next env w))) = false.
Proof.
  intros R F C T K.
  pose proof (inv_checked _ (reachable_inv env w R)) as V.
  destruct (next_summary env w V) as [E | n w1 d ds E X D | w1 E X D | e w1 E X].
  - contradiction.
  - destruct (refreshed_swallow env w _ _ code timeout X F C T K) as (_ & _ & D').
    congruence.
  - destruct (refreshed_swallow env w _ _ code timeout X F C T K) as (_ & Hk & _).
    split; [reflexivity|]. split; [exact Hk|].
    unfold alive. rewrite D, Hk. reflexivity.
  - destruct (refreshed_swallow env w _ _ code timeout X F C T K) as (Hr & _).
    discriminate Hr.
Qed.

Lemma tailable_swallow_witness :
  let w := Examples.fresh Examples.cursor_lost
             (Examples.with_type CursorType.TAILABLE Examples.find_args) in
  fst (next Examples.cursor_lost w) = Raise StopIteration /\
  _killed (cur (snd (next Examples.cursor_lost w))) = true /\
  alive (cur (snd (next Examples.cursor_lost w))) = false.
Proof.
  apply (tailable_swallow Examples.cursor_lost _ (Some 43) false).
  - apply (reach_init _ (Examples.with_type CursorType.TAILABLE Examples.find_args)).
    vm_compute. reflexivity.
  - reflexivity.
  - reflexivity.
  - reflexivity.
  - vm_compute. discriminate.
Defined.

(** ** The limit *)


Lemma ensured_fields env w :
  _id (cur (ensured env w)) = _id (cur w) /\
  _retrieved (cur (ensured env w)) = _retrieved (cur w) /\
  _killed (cur (ensured env w)) = _killed (cur w).
Proof. unfold ensured. destruct (is_some (_session (cur w))); auto. Qed.























(** ** Counting what is handed out *)














(** * Further properties *)

(* The invariant of a concrete cursor, by evaluation. *)
Ltac concrete_inv :=
  constructor; vm_compute; intros;
  first [ discriminate | reflexivity | split; reflexivity ].

(** ** A closed cursor *)

Lemma silent_refresh env t n w r w' :
  silent t n w -> refreshed env w r w' -> silent t n w'.
Proof.
  intros S R. destruct S as [I K T C].
  destruct R as [ _ | _ K' | _ K' | r w' _ K' ]; try congruence.
  constructor; assumption.
Qed.

Lemma silent_consume t n w k : silent t n w -> silent t n (consume k w).
Proof.
  intros [I K T C]. constructor; auto. apply inv_consume, I.
Qed.

(** X1.  A killed cursor never contacts the server again: whatever advance
    operations are run on it ([next], [to_list], in any number and order),
    the trace of the calls to the collaborators and the count of the
    exchanges stay as they were, and the cursor stays killed. *)
Theorem closed_cursor_is_silent (env : Env) (ops : list advance) (w : World) :
  inv (cur w) -> _killed (cur w) = true ->
  trace (snd (run_advances env ops w)) = trace w /\
  clock (snd (run_advances env ops w)) = clock w /\
  _killed (cur (snd (run_advances env ops w))) = true.
Proof.
  intros I K.
  assert (S : silent (trace w) (clock w) w) by (constructor; auto).
  pose proof (@run_advances_keeps env (silent (trace w) (clock w))
                (fun w => @si_inv _ _ w)
                (fun w r w' H _ R => silent_refresh env _ _ w r w' H R)
                (fun w k H => silent_consume _ _ w k H) ops w S) as [I' K' T' C'].
  auto.
Qed.

Lemma closed_cursor_is_silent_witness :
  trace (snd (run_advances Examples.two_then_one [Next; ToList 3 None; Next]
                closed_midway)) = trace closed_midway /\
  clock (snd (run_advances Examples.two_then_one [Next; ToList 3 None; Next]
                closed_midway)) = clock closed_midway /\
  _killed (cur (snd (run_advances Examples.two_then_one
                       [Next; ToList 3 None; Next] closed_midway))) = true.
Proof.
  apply (closed_cursor_is_silent Examples.two_then_one
           [Next; ToList 3 None; Next] closed_midway).
  - concrete_inv.
  - reflexivity.
Defined.

(** ** Configuration and progress *)





Lemma framed_refresh env c0 w r w' :
  framed c0 w -> _empty (cur w) = false -> refreshed env w r w' -> framed c0 w'.
Proof.
  intros [I F] E R. constructor.
  - eapply refreshed_inv; eassumption.
  - rewrite <- F. eapply refreshed_frame; eassumption.
Qed.

Lemma framed_consume c0 w k : framed c0 w -> framed c0 (consume k w).
Proof.
  intros [I F]. constructor; [apply inv_consume, I|].
  rewrite frame_consume. exact F.
Qed.

Lemma advance_frame env a w :
  inv (cur w) -> frame (cur (snd (run_advance env a w))) = frame (cur w).
Proof.
  intros I.
  apply (@run_advance_keeps env (framed (cur w))
           (fun w' => @fr_inv _ w')
           (fun w1 r w2 H E R => framed_refresh env _ w1 r w2 H E R)
           (fun w1 k H => framed_consume _ w1 k H) a w).
  constructor; auto.
Qed.

Lemma rewind_closed w :
  inv (cur w) ->
  rewind w = (Ok tt, mkWorld (rewound (cur w))
                       (trace w ++ kill_events true (cur w) ++ release_events (cur w))
                       (clock w)).
Proof.
  intros I. unfold rewind. unfold bind at 1. rewrite (close_returns w I).
  reflexivity.
Qed.

Lemma stable_frame env k w :
  inv (cur w) -> is_configuration k = false ->
  frame (cur (after env k w)) = frame (cur w).
Proof.
  intros I N. unfold after. destruct k; try discriminate; cbn [perform].
  - unfold bind. pose proof (advance_frame env a w I) as F.
    destruct (run_advance env a w) as [[ds|e] w1]; exact F.
  - rewrite (close_returns w I). reflexivity.
  - rewrite (rewind_closed w I). reflexivity.
Qed.

(** X3.  Iterating, closing and rewinding never change the configuration
    of a cursor: after [next], [to_list], [close] or [rewind], whatever the
    server answered, the cursor differs from the one before in nothing but
    the fields of its progress (id, buffer, retrieved count, killed mark,
    address, namespace, session, read preference, connection manager). *)
Theorem configuration_is_stable (env : Env) (k : call) (w : World) :
  inv (cur w) -> is_configuration k = false ->
  frame (cur (after env k w)) = frame (cur w).
Proof. apply stable_frame. Qed.

Lemma configuration_is_stable_witness :
  frame (cur (after Examples.two_then_one (Advance (ToList 4 None))
                new_with_limit)) = frame (cur new_with_limit).
Proof.
  apply (configuration_is_stable Examples.two_then_one
           (Advance (ToList 4 None)) new_with_limit).
  - concrete_inv.
  - reflexivity.
Defined.

(** ** [to_list] *)

Lemma next_batch_inv env result total w :
  inv (cur w) -> inv (cur (snd (_next_batch env result total w))).
Proof.
  apply (@next_batch_keeps env inv_world); unfold inv_world; auto.
  - intros; eapply refreshed_inv; eassumption.
  - intros; apply inv_consume; assumption.
Qed.

(** One round of [to_list]: [_next_batch] adds nothing and says so, or adds
    between one and [m] documents. *)
Lemma next_batch_adds env res m w :
  inv (cur w) -> 1 <= m ->
  match _next_batch env res (Some m) w with
  | (Ok (false, res'), _) => res' = res
  | (Ok (true, res'), _) => len res + 1 <= len res' <= len res + m
  | (Raise _, _) => True
  end.
Proof.
  intros I Hm.
  rewrite (next_batch_unfold env res (Some m) w (inv_checked _ I)).
  destruct (_empty (cur w)); [reflexivity|].
  pose proof (refresh_summary env w) as R.
  destruct (_refresh env w) as [[n|e] w1]; cbn [fst snd] in R;
    [|exact Logic.I].
  pose proof (refreshed_len _ _ _ _ R) as Hn.
  destruct (_data (cur w1)) as [|d ds] eqn:D.
  - subst n. reflexivity.
  - subst n. rewrite truthy_len_cons.
    rewrite len_app. unfold taken.
    set (k := Z.to_nat (Z.min (len (d :: ds)) m)).
    assert (Hl : 1 <= len (d :: ds))
      by (rewrite len_cons; pose proof (len_nonneg ds); lia).
    assert (Hk : len (firstn k (d :: ds)) = Z.of_nat k).
    { unfold len. rewrite length_firstn. f_equal.
      apply Nat.min_l. unfold k. unfold len in *. lia. }
    rewrite Hk. unfold k. lia.
Qed.

Lemma loop_bounded env n : forall fuel res m w l w',
  inv (cur w) -> 1 <= m -> m = n - len res ->
  to_list_loop env fuel (Some n) res (Some m) w = (Ok l, w') ->
  len l <= n.
Proof.
  induction fuel as [|fuel IH]; intros res m w l w' I Hm E H; [discriminate|].
  rewrite loop_unfold in H.
  destruct (alive (cur w)); [|inversion H; subst; lia].
  pose proof (next_batch_adds env res m w I Hm) as A.
  pose proof (next_batch_inv env res (Some m) w I) as I1.
  destruct (_next_batch env res (Some m) w) as [[[b res']|e] w1];
    [|discriminate].
  cbn [fst snd] in *.
  destruct b; cbn [negb] in H.
  - destruct (n - len res' =? 0) eqn:Z0.
    + inversion H; subst. lia.
    + apply Z.eqb_neq in Z0.
      apply (IH res' (n - len res') w1 l w' I1); [lia|reflexivity|exact H].
  - inversion H; subst. lia.
Qed.

(** X4.  [to_list(n)] returns at most [n] documents, and returns only for
    [n >= 1]: when the call returns a list, the length asked for was
    positive and the list is not longer than it, whatever the sizes of the
    batches the server sends. *)
Theorem to_list_at_most_length (env : Env) (fuel : nat) (n : Z) (w : World)
    (l : list document) (w' : World) :
  inv (cur w) ->
  to_list env fuel (Some n) w = (Ok l, w') ->
  1 <= n /\ len l <= n.
Proof.
  intros I H. unfold to_list in H.
  destruct (n <? 1) eqn:L; [discriminate|apply Z.ltb_ge in L].
  split; [exact L|].
  apply (loop_bounded env n fuel [] n w l w' I L); [|exact H].
  rewrite len_nil. lia.
Qed.

Lemma to_list_at_most_length_witness :
  1 <= 2 /\ len [Examples.doc 1; Examples.doc 2] <= 2.
Proof.
  apply (to_list_at_most_length Examples.two_then_one 5 2 new_cursor
           [Examples.doc 1; Examples.doc 2]
           (snd (to_list Examples.two_then_one 5 (Some 2) new_cursor))).
  - concrete_inv.
  - vm_compute. reflexivity.
Defined.

(** ** What [_refresh] sends *)

Lemma refresh_sends env w op :
  In (EvRunOperation op) (emitted (_refresh env) w) ->
  op = pending_op env (cur (ensured env w)) /\
  _data (cur w) = [] /\ _killed (cur w) = false /\ _id (cur w) <> Some 0.
Proof.
  intros I.
  pose proof (refresh_summary env w) as R.
  remember (snd (_refresh env w)) as w' eqn:Ew.
  assert (Em : forall evs, trace w' = (trace w ++ evs)%list ->
                           In (EvRunOperation op) evs).
  { intros evs T. subst w'. rewrite (emitted_of _ _ _ T) in I. exact I. }
  clear I Ew.
  destruct (ensured_trace env w) as (before & Tb & Qb).
  destruct R as [ _ | _ _ _ | _ _ _ _ | r w' D K Hi _ X ].
  - specialize (Em [] (eq_sym (app_nil_r _))). contradiction.
  - exfalso. exact (quiet_no_exchange _ _ Qb (Em _ Tb)).
  - exfalso. exact (quiet_no_exchange _ _ Qb (Em _ Tb)).
  - destruct X as [ _ | e r0 w0 after _ Tw Qa _ | resp r0 w0 after _ Tw Qa _ ].
    + exfalso. exact (quiet_no_exchange _ _ Qb (Em _ Tb)).
    + cbn in Tw. rewrite Tb, <- app_assoc in Tw.
      apply Em, in_app_or in Tw as [Tw|[Tw|Tw]].
      * exfalso. exact (quiet_no_exchange _ _ Qb Tw).
      * injection Tw as Tw. auto.
      * exfalso. exact (quiet_no_exchange _ _ Qa Tw).
    + cbn in Tw. rewrite Tb, <- app_assoc in Tw.
      apply Em, in_app_or in Tw as [Tw|[Tw|Tw]].
      * exfalso. exact (quiet_no_exchange _ _ Qb Tw).
      * injection Tw as Tw. auto.
      * exfalso. exact (quiet_no_exchange _ _ Qa Tw).
Qed.

Lemma ensured_id env w : _id (cur (ensured env w)) = _id (cur w).
Proof. apply ensured_fields. Qed.

Lemma ensured_config env w :
  set_session None (cur (ensured env w)) = set_session None (cur w).
Proof. unfold ensured. destruct (is_some (_session (cur w))); reflexivity. Qed.

(** What an unstarted cursor sends when it is refreshed. *)
Lemma unstarted_sends env w op :
  _id (cur w) = None ->
  In (EvRunOperation op) (emitted (_refresh env) w) ->
  exists rp sess,
    op = OpQuery (mkQuery (_query_flags (cur w)) (database_name env)
                    (collection_name env) (_skip (cur w))
                    (query_spec_of (cur w)) (_projection (cur w)) rp
                    (_limit (cur w)) (_batch_size (cur w))
                    (_collation (cur w)) sess (_allow_disk_use (cur w))
                    (_exhaust (cur w))).
Proof.
  intros N I.
  apply refresh_sends in I as (E & _).
  unfold pending_op in E. rewrite ensured_id, N in E.
  subst op. unfold ensured.
  destruct (is_some (_session (cur w))); eexists; eexists; reflexivity.
Qed.

(** X6.  Every fetch-more [_refresh] sends names the cursor the server
    gave: its cursor id is the id the cursor holds, which is not zero; it is
    sent only when the buffer is empty and the cursor is not killed; and it
    carries the namespace, the connection manager, the exhaust mark, the
    comment and the await time of the cursor. *)
Theorem getmore_names_cursor (env : Env) (w : World) (g : GetMore) :
  In (EvRunOperation (OpGetMore g)) (emitted (_refresh env) w) ->
  _id (cur w) = Some (g_cursor_id g) /\ g_cursor_id g <> 0 /\
  _data (cur w) = [] /\ _killed (cur w) = false /\
  g_db g = _dbname (cur w) /\ g_coll g = _collname (cur w) /\
  g_sock_mgr g = _sock_mgr (cur w) /\ g_exhaust g = _exhaust (cur w) /\
  g_comment g = _comment (cur w) /\
  g_max_await_time_ms g = _max_await_time_ms (cur w).
Proof.
  intros I. apply refresh_sends in I as (E & D & K & N).
  unfold pending_op in E. rewrite ensured_id in E.
  pose proof (f_equal _dbname (ensured_config env w)) as E1.
  pose proof (f_equal _collname (ensured_config env w)) as E2.
  pose proof (f_equal _sock_mgr (ensured_config env w)) as E3.
  pose proof (f_equal _exhaust (ensured_config env w)) as E4.
  pose proof (f_equal _comment (ensured_config env w)) as E5.
  pose proof (f_equal _max_await_time_ms (ensured_config env w)) as E6.
  cbn in E1, E2, E3, E4, E5, E6.
  destruct (_id (cur w)) as [i|]; [|discriminate E].
  injection E as E. subst g. cbn.
  repeat split; try assumption; congruence.
Qed.

Lemma getmore_names_cursor_witness :
  _id (cur two_of_five) = Some (g_cursor_id three_more) /\
  g_cursor_id three_more <> 0 /\
  _data (cur two_of_five) = [] /\ _killed (cur two_of_five) = false /\
  g_db three_more = _dbname (cur two_of_five) /\
  g_coll three_more = _collname (cur two_of_five) /\
  g_sock_mgr three_more = _sock_mgr (cur two_of_five) /\
  g_exhaust three_more = _exhaust (cur two_of_five) /\
  g_comment three_more = _comment (cur two_of_five) /\
  g_max_await_time_ms three_more = _max_await_time_ms (cur two_of_five).
Proof.
  apply (getmore_names_cursor Examples.two_then_one two_of_five three_more).
  vm_compute. left. reflexivity.
Defined.

(** X7.  A query is sent only by a cursor that has no cursor id yet, an
    empty buffer and no killed mark, so that a cursor sends its query once;
    the query carries the skip, the limit, the batch size, the flags, the
    projection and the collation of the cursor, the names of its database
    and collection, and the spec [_query_spec] builds. *)
Theorem query_sent_once (env : Env) (w : World) (q : Query) :
  In (EvRunOperation (OpQuery q)) (emitted (_refresh env) w) ->
  _id (cur w) = None /\ _data (cur w) = [] /\ _killed (cur w) = false /\
  q_ntoskip q = _skip (cur w) /\ q_limit q = _limit (cur w) /\
  q_batch_size q = _batch_size (cur w) /\
  q_flags q = _query_flags (cur w) /\
  q_spec q = query_spec_of (cur w) /\
  q_fields q = _projection (cur w) /\
  q_collation q = _collation (cur w) /\
  q_db q = database_name env /\ q_coll q = collection_name env.
Proof.
  intros I. apply refresh_sends in I as (E & D & K & N).
  unfold pending_op in E. rewrite ensured_id in E.
  destruct (_id (cur w)) as [i|]; [discriminate E|].
  injection E as E. subst q. cbn.
  unfold ensured. destruct (is_some (_session (cur w))); cbn;
    repeat split; assumption.
Qed.

Lemma query_sent_once_witness :
  _id (cur new_cursor) = None /\ _data (cur new_cursor) = [] /\
  _killed (cur new_cursor) = false /\
  q_ntoskip first_query = _skip (cur new_cursor) /\
  q_limit first_query = _limit (cur new_cursor) /\
  q_batch_size first_query = _batch_size (cur new_cursor) /\
  q_flags first_query = _query_flags (cur new_cursor) /\
  q_spec first_query = query_spec_of (cur new_cursor) /\
  q_fields first_query = _projection (cur new_cursor) /\
  q_collation first_query = _collation (cur new_cursor) /\
  q_db first_query = database_name Examples.two_then_one /\
  q_coll first_query = collection_name Examples.two_then_one.
Proof.
  apply (query_sent_once Examples.two_then_one new_cursor first_query).
  vm_compute. right. left. reflexivity.
Defined.

(** ** [rewind] *)

Lemma rewound_inv c : inv c -> inv (rewound c).
Proof. intros [? ? ? ? ?]. constructor; cbn; auto; discriminate. Qed.

Lemma release_events_rewound c : release_events (rewound c) = [].
Proof.
  open_cursor c. unfold release_events, rewound, died. cbn.
  destruct c_explicit; [destruct c_session|]; reflexivity.
Qed.

Lemma rewound_again c : rewound (rewound c) = rewound c.
Proof.
  open_cursor c. unfold rewound, died. cbn. destruct c_explicit; reflexivity.
Qed.

Lemma session_property_rewound c :
  session_property (rewound c) = session_property c.
Proof. open_cursor c. cbn. destruct c_explicit; reflexivity. Qed.

(** X8.  [rewind] brings a cursor back to its unevaluated state: it
    returns, the configuration is kept, the cursor has no id, no address,
    no connection manager, an empty buffer, nothing retrieved and no killed
    mark, the session the caller gave (if any) is still attached, the
    setters are accepted again ([_check_okay_to_chain] lets them through),
    and a second [rewind] changes nothing and issues no event. *)
Theorem rewind_restores (w : World) :
  inv (cur w) ->
  exists w',
    rewind w = (Ok tt, w') /\
    frame (cur w') = frame (cur w) /\
    okay_to_chain (cur w') = true /\
    _data (cur w') = [] /\ _killed (cur w') = false /\
    _address (cur w') = None /\ _sock_mgr (cur w') = None /\
    session_property (cur w') = session_property (cur w) /\
    _check_okay_to_chain w' = (Ok tt, w') /\
    rewind w' = (Ok tt, w').
Proof.
  intros I. eexists. split; [apply (rewind_closed w I)|].
  cbn [cur].
  repeat split; try reflexivity.
  - apply session_property_rewound.
  - rewrite rewind_closed by (apply rewound_inv, I).
    cbn [cur trace clock].
    change (kill_events true (rewound (cur w))) with (@nil event).
    rewrite release_events_rewound, rewound_again.
    cbn. rewrite app_nil_r. reflexivity.
Qed.

Lemma rewind_restores_witness :
  exists w',
    rewind two_of_five = (Ok tt, w') /\
    frame (cur w') = frame (cur two_of_five) /\
    okay_to_chain (cur w') = true /\
    _data (cur w') = [] /\ _killed (cur w') = false /\
    _address (cur w') = None /\ _sock_mgr (cur w') = None /\
    session_property (cur w') = session_property (cur two_of_five) /\
    _check_okay_to_chain w' = (Ok tt, w') /\
    rewind w' = (Ok tt, w').
Proof.
  apply (rewind_restores two_of_five).
  concrete_inv.
Defined.

Lemma ensured_exhaust env w : _exhaust (cur (ensured env w)) = _exhaust (cur w).
Proof. exact (f_equal _exhaust (frame_ensured env w)). Qed.

(** An unstarted cursor that is not refused does send its query. *)
Lemma unstarted_exchanges env w :
  _id (cur w) = None -> _data (cur w) = [] -> _killed (cur w) = false ->
  unhinted (cur w) = false -> encrypter env && _exhaust (cur w) = false ->
  In (EvRunOperation (pending_op env (cur (ensured env w))))
     (emitted (_refresh env) w).
Proof.
  intros N D K U E.
  pose proof (refresh_summary env w) as R.
  destruct (ensured_trace env w) as (before & Tb & _).
  remember (snd (_refresh env w)) as w' eqn:Ew.
  assert (T : exists after,
             trace w' = (trace w ++ before ++
                         EvRunOperation (pending_op env (cur (ensured env w)))
                         :: after)%list).
  { clear Ew.
    destruct R as [ [H|H] | _ _ H | _ _ _ H | r w' _ _ _ _ X ];
      try congruence.
    destruct X as [ H | e r0 w0 after _ Tw _ _ | resp r0 w0 after _ Tw _ _ ].
    - cbn in H. rewrite ensured_exhaust in H. congruence.
    - exists after. cbn in Tw. rewrite Tw, Tb, <- app_assoc. reflexivity.
    - exists after. cbn in Tw. rewrite Tw, Tb, <- app_assoc. reflexivity. }
  destruct T as (after & T). subst w'.
  rewrite (emitted_of _ _ _ T).
  apply in_or_app. right. left. reflexivity.
Qed.

(** X9.  After [rewind] the cursor sends its query again: the next
    [_refresh] of a rewound cursor (with a hint when [min] or [max] is set,
    and not an exhaust cursor under encryption) performs one exchange, a
    query with the spec, the skip, the limit, the batch size and the flags
    the cursor was configured with, and no other exchange. *)
Theorem rewind_resends_query (env : Env) (w : World) :
  inv (cur w) ->
  unhinted (cur w) = false -> encrypter env && _exhaust (cur w) = false ->
  exists q,
    In (EvRunOperation (OpQuery q)) (emitted (_refresh env) (snd (rewind w))) /\
    q_spec q = query_spec_of (cur w) /\ q_ntoskip q = _skip (cur w) /\
    q_limit q = _limit (cur w) /\ q_batch_size q = _batch_size (cur w) /\
    q_flags q = _query_flags (cur w) /\
    forall op,
      In (EvRunOperation op) (emitted (_refresh env) (snd (rewind w))) ->
      op = OpQuery q.
Proof.
  intros I U E. rewrite (rewind_closed w I). cbn [snd].
  match goal with |- context [emitted _ ?W] => set (w' := W) end.
  pose proof (unstarted_exchanges env w' eq_refl eq_refl eq_refl U E) as H.
  assert (P : exists q, pending_op env (cur (ensured env w')) = OpQuery q /\
              q_spec q = query_spec_of (cur w) /\ q_ntoskip q = _skip (cur w) /\
              q_limit q = _limit (cur w) /\
              q_batch_size q = _batch_size (cur w) /\
              q_flags q = _query_flags (cur w)).
  { unfold pending_op. rewrite ensured_id. cbn [w' cur].
    change (_id (rewound (cur w))) with (@None Z).
    eexists. split; [reflexivity|]. cbn.
    unfold ensured. destruct (is_some _); repeat split. }
  destruct P as (q & Pq & F).
  exists q. rewrite <- Pq. split; [exact H|].
  destruct F as (F1 & F2 & F3 & F4 & F5).
  repeat split; try assumption.
  intros op J. apply refresh_sends in J as (J & _). exact J.
Qed.

Lemma rewind_resends_query_witness :
  exists q,
    In (EvRunOperation (OpQuery q))
       (emitted (_refresh Examples.two_then_one) (snd (rewind two_of_five))) /\
    q_spec q = query_spec_of (cur two_of_five) /\
    q_ntoskip q = _skip (cur two_of_five) /\
    q_limit q = _limit (cur two_of_five) /\
    q_batch_size q = _batch_size (cur two_of_five) /\
    q_flags q = _query_flags (cur two_of_five) /\
    forall op,
      In (EvRunOperation op)
         (emitted (_refresh Examples.two_then_one) (snd (rewind two_of_five))) ->
      op = OpQuery q.
Proof.
  apply (rewind_resends_query Examples.two_then_one two_of_five).
  - concrete_inv.
  - reflexivity.
  - reflexivity.
Defined.

(** ** One exchange, case by case *)

Lemma send_message_unfold env op w :
  _send_message env op w =
  if encrypter env && _exhaust (cur w) then (Raise InvalidOperation, w)
  else match run_operation env (clock w) op with
       | Responds r => (store_response r;; close_if_done) (sent op w)
       | Fails e =>
           match handle_failure env e (sent op w) with
           | (Ok None, w1) => (Ok tt, w1)
           | (Ok (Some r), w1) => (store_response r;; close_if_done) w1
           | (Raise e', w1) => (Raise e', w1)
           end
       end.
Proof.
  unfold _send_message, _run_operation, sent.
  unfold bind at 1. unfold self at 1.
  destruct (encrypter env && _exhaust (cur w)); [reflexivity|].
  unfold bind at 1. unfold try_catch at 1. unfold bind at 1.
  destruct (run_operation env (clock w) op) as [r|e]; [reflexivity|].
  destruct (handle_failure env e _) as [[[r|]|e'] w1]; reflexivity.
Qed.

Lemma handle_failure_closed env e w :
  die_raises (cur w) = false ->
  handle_failure env e w =
  (if swallowed env (cur w) e then Ok None else Raise e,
   mkWorld (died (cur w))
     (trace w ++
      (if already_closed env e (cur w) then []
       else kill_events (locked_cleanup e) (cur w)) ++
      release_events (cur w))
     (clock w)).
Proof.
  open_world w. unfold die_raises, id_truthy. cbn. intros D.
  unfold handle_failure, close, _die_lock, _die_no_lock, swallowed,
    already_closed, locked_cleanup.
  destruct e; run; cbn.
  all: repeat step.
  all: unfold died, kill_events, release_events in *; cbn in *.
  all: rewrite ?app_nil_r.
  all: try reflexivity.
  all: try congruence.
  all: rewrite ?andb_false_r.
  all: destruct c_id as [i|]; [destruct c_address|]; cbn;
    rewrite ?andb_false_r; reflexivity.
Qed.

Lemma inv_die_returns c : inv c -> die_raises c = false.
Proof.
  intros I. unfold die_raises.
  destruct (id_truthy c) eqn:T; [|reflexivity].
  pose proof (inv_address _ I T) as A.
  destruct (_address c); [|contradiction].
  cbn. apply andb_false_r.
Qed.

Lemma close_if_done_closed w :
  close_if_done w = if done (cur w) then close w else (Ok tt, w).
Proof.
  open_world w. unfold close_if_done, done, limit_reached, close, _die_lock, id_truthy.
  run. cbn.
  repeat step.
  all: unfold died, kill_events, release_events in *; cbn in *.
  all: rewrite ?app_nil_r; try reflexivity; try congruence.
Qed.

Lemma store_response_closed r w :
  match reply_ns r with Some n => split_ns n <> None | None => True end ->
  store_response r w = (Ok tt, mkWorld (stored r (cur w)) (trace w) (clock w)).
Proof.
  open_world w. destruct r as [addr pinned name pl].
  unfold store_response, stored, reply_ns, pinned_mgr, add_retrieved,
    new_id, buffered, counted.
  run. cbn.
  intros H.
  repeat (step; cbn in * ).
  all: try reflexivity.
  all: try (exfalso; apply H; reflexivity).
Qed.

Lemma split_ns_join : forall n a b,
  split_ns n = Some (a, b) -> (a ++ "." ++ b)%string = n.
Proof.
  induction n as [|ch n IH]; intros a b H; [discriminate|].
  cbn in H. destruct (Ascii.eqb ch ".") eqn:E.
  - apply Ascii.eqb_eq in E. subst ch. inversion H; subst. reflexivity.
  - destruct (split_ns n) as [[a' b']|]; [|discriminate].
    inversion H; subst. cbn. f_equal. apply IH. reflexivity.
Qed.

Lemma send_message_responded env op w r :
  encrypter env && _exhaust (cur w) = false ->
  run_operation env (clock w) op = Responds r ->
  match reply_ns r with Some n => split_ns n <> None | None => True end ->
  _send_message env op w =
  let w1 := mkWorld (stored r (cur w)) (trace w ++ [EvRunOperation op])
                    (S (clock w)) in
  if done (cur w1) then close w1 else (Ok tt, w1).
Proof.
  intros E R N. rewrite send_message_unfold, E, R.
  unfold bind. rewrite (store_response_closed r _ N).
  apply close_if_done_closed.
Qed.

Lemma send_message_failed env op w e :
  inv (cur w) ->
  encrypter env && _exhaust (cur w) = false ->
  run_operation env (clock w) op = Fails e ->
  _send_message env op w =
  (if swallowed env (cur w) e then Ok tt else Raise e,
   mkWorld (died (cur w))
     (trace w ++ EvRunOperation op ::
      (if already_closed env e (cur w) then []
       else kill_events (locked_cleanup e) (cur w)) ++
      release_events (cur w))
     (S (clock w))).
Proof.
  intros I E R. rewrite send_message_unfold, E, R.
  rewrite handle_failure_closed by (apply inv_die_returns, I).
  cbn [sent cur trace clock]. rewrite <- app_assoc. cbn [app].
  destruct (swallowed env (cur w) e); reflexivity.
Qed.

Lemma count_kill_events locked c :
  count_if is_kill (kill_events locked c) =
  if id_truthy c && negb (_killed c) && is_some (_address c) then 1%nat else 0%nat.
Proof.
  open_cursor c. unfold kill_events, id_truthy, count_if. cbn.
  destruct c_id as [i|]; [|reflexivity].
  destruct c_address; cbn; [|rewrite andb_false_r; reflexivity].
  rewrite andb_true_r.
  destruct (truthy_Z i && negb c_killed); reflexivity.
Qed.

Lemma quiet_count evs : quiet evs -> count_if is_exchange evs = 0%nat.
Proof.
  unfold count_if. induction 1 as [|x l Hx _ IH]; [reflexivity|].
  cbn. rewrite Hx. exact IH.
Qed.

(** X10.  When the exchange fails, [_send_message] closes the cursor: the
    cursor is marked killed, its connection manager and its implicit session
    are released, and the error is raised again unless it is an
    [OperationFailure] with a cursor-closed code on a tailable cursor.
    After the exchange the cursor issues the release events and at most
    one kill-cursors request.  It issues none when the failure is an
    [OperationFailure] whose code is a cursor-closed code or which meets an
    exhaust cursor, or a [ConnectionFailure], or when the cursor has no
    live id or was killed before.  It issues one otherwise, so for every
    other exception also on an exhaust cursor, and without waiting for the
    lock when the failure is an [OperationFailure] marked as a timeout.
    The cursor-closed codes are those of [_CURSOR_CLOSED_ERRORS], whatever
    its value. *)
Theorem failed_exchange_closes (env : Env) (op : operation) (w : World)
    (e : exn) :
  inv (cur w) ->
  encrypter env && _exhaust (cur w) = false ->
  run_operation env (clock w) op = Fails e ->
  fst (_send_message env op w)
  = (if swallowed env (cur w) e then Ok tt else Raise e) /\
  cur (snd (_send_message env op w)) = died (cur w) /\
  emitted (_send_message env op) w
  = EvRunOperation op ::
    ((if already_closed env e (cur w) then []
      else kill_events (locked_cleanup e) (cur w)) ++
     release_events (cur w))%list /\
  count_if is_kill (emitted (_send_message env op) w)
  = if already_closed env e (cur w) || negb (id_truthy (cur w)) || _killed (cur w)
    then 0%nat else 1%nat.
Proof.
  intros I E R.
  pose proof (send_message_failed env op w e I E R) as H.
  assert (T : emitted (_send_message env op) w
              = EvRunOperation op ::
                ((if already_closed env e (cur w) then []
                  else kill_events (locked_cleanup e) (cur w)) ++
                 release_events (cur w))%list).
  { apply emitted_of. rewrite H. reflexivity. }
  rewrite T, H. cbn [fst snd cur].
  repeat split.
  change (EvRunOperation op :: ?l) with ([EvRunOperation op] ++ l)%list.
  rewrite !count_if_app.
  destruct (release_events_count (cur w)) as [-> _].
  change (count_if is_kill [EvRunOperation op]) with 0%nat.
  destruct (already_closed env e (cur w)); [reflexivity|].
  rewrite count_kill_events. cbn [orb plus].
  destruct (id_truthy (cur w)) eqn:Ti; [|reflexivity].
  pose proof (inv_address _ I Ti) as A.
  destruct (_address (cur w)); [|contradiction].
  destruct (_killed (cur w)); reflexivity.
Qed.

Lemma failed_exchange_closes_witness :
  fst (_send_message unplugged (OpQuery first_query) two_of_five)
  = (if swallowed unplugged (cur two_of_five) ConnectionFailure
     then Ok tt else Raise ConnectionFailure) /\
  cur (snd (_send_message unplugged (OpQuery first_query) two_of_five))
  = died (cur two_of_five) /\
  emitted (_send_message unplugged (OpQuery first_query)) two_of_five
  = EvRunOperation (OpQuery first_query) ::
    ((if already_closed unplugged ConnectionFailure (cur two_of_five) then []
      else kill_events (locked_cleanup ConnectionFailure) (cur two_of_five)) ++
     release_events (cur two_of_five))%list /\
  count_if is_kill
    (emitted (_send_message unplugged (OpQuery first_query)) two_of_five)
  = if already_closed unplugged ConnectionFailure (cur two_of_five)
       || negb (id_truthy (cur two_of_five)) || _killed (cur two_of_five)
    then 0%nat else 1%nat.
Proof.
  apply (failed_exchange_closes unplugged (OpQuery first_query) two_of_five
           ConnectionFailure).
  - concrete_inv.
  - reflexivity.
  - reflexivity.
Defined.

(** X11.  A response whose cursor id is zero closes the cursor at once:
    [_send_message] returns, the cursor is marked killed and holds the id
    zero and the batch of the response, its connection manager is released,
    and the whole call performs one exchange and no kill-cursors request;
    the cursor is alive exactly as long as the batch is not empty. *)
Theorem exhausted_reply_closes (env : Env) (op : operation) (w : World)
    (r : Response) :
  encrypter env && _exhaust (cur w) = false ->
  run_operation env (clock w) op = Responds r ->
  match reply_ns r with Some n => split_ns n <> None | None => True end ->
  new_id r = 0 ->
  let w' := snd (_send_message env op w) in
  fst (_send_message env op w) = Ok tt /\
  _killed (cur w') = true /\ _id (cur w') = Some 0 /\
  _data (cur w') = buffered r /\ _sock_mgr (cur w') = None /\
  alive (cur w') = truthy_Z (len (buffered r)) /\
  count_if is_exchange (emitted (_send_message env op) w) = 1%nat /\
  count_if is_kill (emitted (_send_message env op) w) = 0%nat.
Proof.
  intros E R N Z.
  pose proof (send_message_responded env op w r E R N) as H.
  cbn zeta in H.
  assert (D : forall t n, done (cur (mkWorld (stored r (cur w)) t n)) = true).
  { intros. unfold done, stored. cbn [cur].
    destruct (reply_ns r) as [ns|]; [destruct (split_ns ns) as [[db coll]|]|];
      cbn; rewrite Z; reflexivity. }
  rewrite D in H.
  unfold close, _die_lock in H. rewrite die_closed in H.
  assert (Dr : forall t n,
             die_raises (cur (mkWorld (stored r (cur w)) t n)) = false).
  { intros. unfold die_raises, id_truthy, stored. cbn [cur].
    destruct (reply_ns r) as [ns|]; [destruct (split_ns ns) as [[db coll]|]|];
      cbn; rewrite Z; reflexivity. }
  rewrite Dr in H. cbn [cur trace clock] in H.
  assert (K : kill_events true (stored r (cur w)) = []).
  { unfold kill_events, stored.
    destruct (reply_ns r) as [ns|]; [destruct (split_ns ns) as [[db coll]|]|];
      cbn; rewrite Z; reflexivity. }
  rewrite K in H. cbn [app] in H.
  assert (T : emitted (_send_message env op) w
              = ([EvRunOperation op] ++ release_events (stored r (cur w)))%list).
  { apply emitted_of. rewrite H. cbn. rewrite <- app_assoc. reflexivity. }
  cbn zeta. rewrite T, H. cbn [fst snd cur].
  rewrite !count_if_app.
  destruct (release_events_count (stored r (cur w))) as [-> _].
  assert (Q : count_if is_exchange (release_events (stored r (cur w))) = 0%nat).
  { apply quiet_count, quiet_release. }
  rewrite Q.
  assert (S1 : _id (died (stored r (cur w))) = Some 0 /\
               _data (died (stored r (cur w))) = buffered r).
  { unfold stored.
    destruct (reply_ns r) as [ns|]; [destruct (split_ns ns) as [[db coll]|]|];
      cbn; rewrite Z; auto. }
  destruct S1 as [S1 S2].
  repeat split; try assumption; try reflexivity.
  unfold alive. rewrite S2. cbn. apply orb_false_r.
Qed.

Lemma exhausted_reply_closes_witness :
  let w' := snd (_send_message Examples.three_at_once (OpQuery first_query)
                   new_cursor) in
  fst (_send_message Examples.three_at_once (OpQuery first_query) new_cursor)
  = Ok tt /\
  _killed (cur w') = true /\ _id (cur w') = Some 0 /\
  _data (cur w')
  = buffered (mkResponse Examples.host None "find"
                (FromCommand [] 0
                   [Examples.doc 1; Examples.doc 2; Examples.doc 3] None)) /\
  _sock_mgr (cur w') = None /\
  alive (cur w')
  = truthy_Z (len (buffered (mkResponse Examples.host None "find"
                               (FromCommand [] 0
                                  [Examples.doc 1; Examples.doc 2;
                                   Examples.doc 3] None)))) /\
  count_if is_exchange
    (emitted (_send_message Examples.three_at_once (OpQuery first_query))
       new_cursor) = 1%nat /\
  count_if is_kill
    (emitted (_send_message Examples.three_at_once (OpQuery first_query))
       new_cursor) = 0%nat.
Proof.
  apply (exhausted_reply_closes Examples.three_at_once (OpQuery first_query)
           new_cursor
           (mkResponse Examples.host None "find"
              (FromCommand [] 0
                 [Examples.doc 1; Examples.doc 2; Examples.doc 3] None))).
  - reflexivity.
  - reflexivity.
  - exact I.
  - reflexivity.
Defined.

(** X12.  The namespace of a [find] reply makes a round trip: when a reply
    to [find] names a non-empty namespace, the cursor stores the part
    before the first dot as its database name and the rest as its
    collection name, and the two joined by a dot give the namespace back
    (the join is what a later kill-cursors request names); a namespace
    without a dot makes the call raise [ValueError]. *)
Theorem namespace_round_trip (r : Response) (w : World) (n : string) :
  reply_ns r = Some n ->
  match split_ns n with
  | Some (db, coll) =>
      fst (store_response r w) = Ok tt /\
      _dbname (cur (snd (store_response r w))) = db /\
      _collname (cur (snd (store_response r w))) = coll /\
      (db ++ "." ++ coll)%string = n
  | None => fst (store_response r w) = Raise ValueError
  end.
Proof.
  intros N. destruct (split_ns n) as [[db coll]|] eqn:S.
  - rewrite store_response_closed by (rewrite N, S; discriminate).
    cbn [fst snd cur]. unfold stored. rewrite N, S. cbn.
    repeat split. apply split_ns_join, S.
  - open_world w. destruct r as [addr pinned name pl].
    unfold reply_ns in N. cbn in N.
    destruct pl as [docs i batch [ns|]|]; try discriminate.
    destruct (negb (name =? "explain")%string) eqn:E1; [|discriminate].
    destruct (name =? "find")%string eqn:E2; [|discriminate].
    destruct (negb (ns =? "")%string) eqn:E3; [|discriminate].
    inversion N; subst ns.
    unfold store_response. run. cbn.
    destruct pinned as [[cn mtc]|]; cbn;
      [destruct (negb (is_some c_sock_mgr)); cbn|];
      rewrite E1; cbn; rewrite E2; cbn; rewrite E3; cbn; rewrite S; reflexivity.
Qed.

Lemma namespace_round_trip_witness :
  fst (store_response last_reply new_cursor) = Ok tt /\
  _dbname (cur (snd (store_response last_reply new_cursor))) = "db" /\
  _collname (cur (snd (store_response last_reply new_cursor))) = "other" /\
  ("db" ++ "." ++ "other")%string = "db.other".
Proof.
  apply (namespace_round_trip last_reply new_cursor "db.other").
  reflexivity.
Defined.

(** ** What an exchange can raise, and the rounds of [to_list] *)

Lemma handle_failure_raises env e w e' :
  fst (handle_failure env e w) = Raise e' -> e' = e \/ e' = AssertionError.
Proof.
  open_world w.
  unfold handle_failure, close, _die_lock, _die_no_lock.
  destruct e; run; cbn.
  all: repeat step.
  all: cbn; intros E; try discriminate E; injection E as <-; auto.
Qed.

Lemma handle_failure_no_response env e w r :
  fst (handle_failure env e w) <> Ok (Some r).
Proof.
  open_world w.
  unfold handle_failure, close, _die_lock, _die_no_lock.
  destruct e; run; cbn.
  all: repeat step.
  all: cbn; discriminate.
Qed.

Lemma store_response_raises r w e :
  fst (store_response r w) = Raise e -> e = ValueError.
Proof.
  open_world w. destruct r as [addr pinned name pl].
  unfold store_response, add_retrieved. run. cbn.
  repeat (step; cbn in * ).
  all: cbn; intros E; try discriminate E; injection E as <-; reflexivity.
Qed.

Lemma close_if_done_raises w e :
  fst (close_if_done w) = Raise e -> e = AssertionError.
Proof.
  rewrite close_if_done_closed.
  destruct (done (cur w)); [|discriminate].
  unfold close, _die_lock. rewrite die_closed.
  destruct (die_raises (cur w)); cbn; intros E; [|discriminate E].
  injection E as <-. reflexivity.
Qed.

Lemma stored_then_done_raises r w e :
  fst ((store_response r;; close_if_done) w) = Raise e ->
  e = ValueError \/ e = AssertionError.
Proof.
  unfold bind.
  pose proof (store_response_raises r w) as S.
  destruct (store_response r w) as [[u|e0] w1]; cbn [fst] in *.
  - intros E. right. exact (close_if_done_raises w1 e E).
  - intros E. injection E as <-. left. apply S. reflexivity.
Qed.

(** What [_send_message] raises is its own refusal, a malformed namespace,
    the failed assertion of [_prepare_to_die], or the failure of the
    exchange. *)
Lemma send_message_raises env op w e :
  fst (_send_message env op w) = Raise e ->
  e = InvalidOperation \/ e = ValueError \/ e = AssertionError \/
  run_operation env (clock w) op = Fails e.
Proof.
  rewrite send_message_unfold.
  destruct (encrypter env && _exhaust (cur w)).
  { intros E. injection E as <-. auto. }
  destruct (run_operation env (clock w) op) as [r|e0].
  - intros E. destruct (stored_then_done_raises r _ e E); auto.
  - pose proof (handle_failure_raises env e0 (sent op w)) as R.
    pose proof (handle_failure_no_response env e0 (sent op w)) as N.
    destruct (handle_failure env e0 (sent op w)) as [[[r|]|e1] w1];
      cbn [fst] in *.
    + elim (N r). reflexivity.
    + discriminate.
    + intros E. injection E as <-.
      destruct (R e1 eq_refl) as [->| ->]; auto.
Qed.

Lemma refresh_raises env w e :
  fst (_refresh env w) = Raise e ->
  e = InvalidOperation \/ e = ValueError \/ e = AssertionError \/
  exists n op, run_operation env n op = Fails e.
Proof.
  open_world w.
  unfold _refresh, _query_spec, _get_read_preference.
  run. cbn.
  destruct c_data as [|d ds]; cbn; [|discriminate].
  destruct c_killed; cbn; [discriminate|].
  repeat step.
  all: cbn; intros E; try discriminate E; injection E as <-; auto.
  all: match goal with
       | H : _send_message ?en ?op ?W = (Raise ?e0, _) |- _ =>
           let S := fresh "S" in
           pose proof (send_message_raises en op W e0) as S;
           rewrite H in S; specialize (S eq_refl);
           destruct S as [S|[S|[S|S]]];
           [ auto | auto | auto
           | right; right; right; eexists; eexists; exact S ]
       end.
Qed.

Lemma next_batch_raises env res total w e :
  inv (cur w) ->
  fst (_next_batch env res total w) = Raise e ->
  e = InvalidOperation \/ e = ValueError \/ e = AssertionError \/
  exists n op, run_operation env n op = Fails e.
Proof.
  intros I.
  rewrite (next_batch_unfold env res total w (inv_checked _ I)).
  destruct (_empty (cur w)); [discriminate|].
  pose proof (refresh_raises env w) as R.
  destruct (_refresh env w) as [[n|e0] w1]; cbn [fst] in *.
  - destruct (truthy_Z n); discriminate.
  - intros E. injection E as <-. apply R. reflexivity.
Qed.

Lemma loop_fuel env n : forall fuel1 fuel2 res m w,
  inv (cur w) -> 1 <= m -> m = n - len res ->
  m <= Z.of_nat fuel1 -> m <= Z.of_nat fuel2 ->
  to_list_loop env fuel1 (Some n) res (Some m) w =
  to_list_loop env fuel2 (Some n) res (Some m) w.
Proof.
  induction fuel1 as [|fuel1 IH]; intros fuel2 res m w I Hm E F1 F2; [lia|].
  destruct fuel2 as [|fuel2]; [lia|].
  rewrite !loop_unfold.
  destruct (alive (cur w)); [|reflexivity].
  pose proof (next_batch_adds env res m w I Hm) as A.
  pose proof (next_batch_inv env res (Some m) w I) as I1.
  destruct (_next_batch env res (Some m) w) as [[[b res']|e] w1];
    [|reflexivity].
  cbn [fst snd] in *.
  destruct b; cbn [negb]; [|reflexivity].
  destruct (n - len res' =? 0) eqn:Z0; [reflexivity|].
  apply Z.eqb_neq in Z0.
  apply IH; auto; lia.
Qed.

Lemma loop_total env n : forall fuel res m w,
  real_failures env ->
  inv (cur w) -> 1 <= m -> m = n - len res -> m <= Z.of_nat fuel ->
  fst (to_list_loop env fuel (Some n) res (Some m) w) <> Raise OutOfFuel.
Proof.
  induction fuel as [|fuel IH]; intros res m w F I Hm E Hf; [lia|].
  rewrite loop_unfold.
  destruct (alive (cur w)); [|discriminate].
  pose proof (next_batch_adds env res m w I Hm) as A.
  pose proof (next_batch_inv env res (Some m) w I) as I1.
  pose proof (next_batch_raises env res (Some m) w OutOfFuel I) as R.
  destruct (_next_batch env res (Some m) w) as [[[b res']|e] w1];
    cbn [fst snd] in *.
  - destruct b; cbn [negb]; [|discriminate].
    destruct (n - len res' =? 0) eqn:Z0; [discriminate|].
    apply Z.eqb_neq in Z0.
    apply IH; auto; lia.
  - intros X. injection X as ->.
    destruct (R eq_refl) as [H|[H|[H|(k & op & H)]]]; try discriminate H.
    exact (F k op H).
Qed.

(** X5.  [to_list(n)] ends within [n] rounds of its loop: every round
    that does not end the loop adds a document or more, so that with a
    bound of [n] rounds or more the call is never stopped by the bound (it
    returns its list or raises an error of the program), and it gives the
    same result and leaves the same cursor for every such bound. *)
Theorem to_list_rounds (env : Env) (fuel : nat) (n : Z) (w : World) :
  real_failures env -> inv (cur w) -> n <= Z.of_nat fuel ->
  fst (to_list env fuel (Some n) w) <> Raise OutOfFuel /\
  forall fuel', n <= Z.of_nat fuel' ->
    to_list env fuel' (Some n) w = to_list env fuel (Some n) w.
Proof.
  intros F I Hf. unfold to_list.
  destruct (n <? 1) eqn:L; [split; [discriminate|reflexivity]|].
  apply Z.ltb_ge in L.
  assert (E : n = n - len (@nil document)) by (rewrite len_nil; lia).
  split.
  - apply loop_total; auto.
  - intros fuel' Hf'. apply loop_fuel; auto.
Qed.

Lemma to_list_rounds_witness :
  fst (to_list Examples.two_then_one 2 (Some 2) new_cursor)
  <> Raise OutOfFuel /\
  forall fuel', 2 <= Z.of_nat fuel' ->
    to_list Examples.two_then_one fuel' (Some 2) new_cursor
    = to_list Examples.two_then_one 2 (Some 2) new_cursor.
Proof.
  apply (to_list_rounds Examples.two_then_one 2 2 new_cursor).
  - intros k op. destruct k; discriminate.
  - concrete_inv.
  - vm_compute. discriminate.
Defined.

(** ** The spec of a query with modifiers *)

Lemma contains_in k d : dict_contains k d = true <-> In k (keys d).
Proof.
  induction d as [|[k' v] d IH]; cbn; [split; [discriminate|contradiction]|].
  rewrite orb_true_iff, IH, String.eqb_eq. split; intros [H|H]; auto.
Qed.

Lemma dict_set_fresh k v d :
  ~ In k (keys d) -> dict_set k v d = (d ++ [(k, v)])%list.
Proof.
  induction d as [|[k' v'] d IH]; cbn; intros N; [reflexivity|].
  destruct (String.eqb k k') eqn:E.
  - apply String.eqb_eq in E. exfalso. apply N. left. symmetry. exact E.
  - rewrite IH; [reflexivity|]. intros I. apply N. right. exact I.
Qed.

Lemma keys_app (d1 d2 : document) :
  keys (d1 ++ d2)%list = (keys d1 ++ keys d2)%list.
Proof. apply map_app. Qed.

Lemma dict_update_fresh : forall other d,
  NoDup (keys other) ->
  (forall k, In k (keys other) -> ~ In k (keys d)) ->
  dict_update d other = (d ++ other)%list.
Proof.
  unfold dict_update.
  induction other as [|[k v] other IH]; intros d N D; cbn.
  - symmetry. apply app_nil_r.
  - cbn in N. inversion N as [|? ? Nk N']; subst.
    rewrite dict_set_fresh by (apply D; left; reflexivity).
    rewrite IH; [rewrite <- app_assoc; reflexivity|exact N'|].
    intros k' I. rewrite keys_app. intros J. apply in_app_or in J as [J|J].
    + exact (D k' (or_intror I) J).
    + cbn in J. destruct J as [J|[]]. subst k'. exact (Nk I).
Qed.

Lemma selection_keys ks d : selection ks d -> incl (keys d) ks.
Proof.
  induction 1 as [|k ks d _ IH|k v ks d _ IH].
  - intros x [].
  - intros x I. apply in_or_app. left. apply IH, I.
  - intros x I. rewrite keys_app in I. apply in_or_app.
    apply in_app_or in I as [I|I]; [left; apply IH, I|right; exact I].
Qed.

Lemma NoDup_snoc {A} (l : list A) a :
  NoDup l -> ~ In a l -> NoDup (l ++ [a])%list.
Proof.
  intros N I. apply NoDup_app; [exact N|repeat constructor; intros []|].
  intros x Hx [E|[]]. subst. exact (I Hx).
Qed.

Lemma NoDup_unsnoc {A} (l : list A) a :
  NoDup (l ++ [a])%list -> NoDup l /\ ~ In a l.
Proof.
  intros N. split.
  - apply NoDup_app_remove_r in N. exact N.
  - apply NoDup_remove_2 in N. rewrite app_nil_r in N. exact N.
Qed.

Lemma selection_nodup ks d : selection ks d -> NoDup ks -> NoDup (keys d).
Proof.
  induction 1 as [|k ks d S IH|k v ks d S IH]; intros N.
  - constructor.
  - apply NoDup_unsnoc in N as [N _]. auto.
  - apply NoDup_unsnoc in N as [N I]. rewrite keys_app.
    apply NoDup_snoc; [auto|].
    intros J. apply I. exact (selection_keys _ _ S _ J).
Qed.

Lemma put_if_selection b k v ks d :
  selection ks d -> ~ In k ks -> selection (ks ++ [k])%list (put_if b k v d).
Proof.
  intros S N. unfold put_if. destruct b; [|apply sel_skip, S].
  rewrite dict_set_fresh; [apply sel_take, S|].
  intros I. apply N. exact (selection_keys _ _ S _ I).
Qed.

Lemma operators_selection c : selection modifier_names (operators c).
Proof.
  unfold operators, modifier_names.
  repeat match goal with
    | |- selection ?ks (put_if ?b ?k ?v ?d) =>
        let ks' := eval cbv in (removelast ks) in
        change ks with (ks' ++ [k])%list;
        apply put_if_selection;
        [ | cbn; intros H;
            repeat (destruct H as [H|H]; [discriminate H|]); exact H ]
    end.
  apply sel_nil.
Qed.

Lemma modifier_names_nodup : NoDup modifier_names.
Proof.
  unfold modifier_names.
  repeat (constructor;
          [cbn; intros H;
           repeat (destruct H as [H|H]; [discriminate H|]); exact H|]).
  constructor.
Qed.

(** X13.  With a modifier set and a filter that has no [$query] key, the
    spec of the query is the filter under [$query] first, then the
    modifiers in the order [_query_spec] sets them: the filter is not
    altered, no key occurs twice, and every key after the first is one of
    the twelve modifier names. *)
Theorem modifiers_wrap_filter (c : Cursor) :
  truthy_doc (operators c) = true ->
  dict_contains "$query" (_spec c) = false ->
  query_spec_of c = (("$query", PDict (_spec c)) :: operators c) /\
  NoDup (keys (query_spec_of c)) /\
  incl (keys (operators c)) modifier_names.
Proof.
  intros T Q.
  pose proof (operators_selection c) as S.
  pose proof (selection_nodup _ _ S modifier_names_nodup) as N.
  pose proof (selection_keys _ _ S) as K.
  assert (E : query_spec_of c = (("$query", PDict (_spec c)) :: operators c)).
  { unfold query_spec_of. rewrite T, Q. cbn [negb].
    rewrite dict_update_fresh; [reflexivity|exact N|].
    intros k I [J|[]]. cbn in J. subst k. apply K in I.
    cbn in I. repeat (destruct I as [I|I]; [discriminate I|]). exact I. }
  split; [exact E|]. split; [|exact K].
  rewrite E. cbn. constructor; [|exact N].
  intros I. apply K in I.
  cbn in I. repeat (destruct I as [I|I]; [discriminate I|]). exact I.
Qed.

Lemma modifiers_wrap_filter_witness :
  query_spec_of (set_comment (PStr "why") (cur new_cursor))
  = (("$query", PDict (_spec (set_comment (PStr "why") (cur new_cursor))))
     :: operators (set_comment (PStr "why") (cur new_cursor))) /\
  NoDup (keys (query_spec_of (set_comment (PStr "why") (cur new_cursor)))) /\
  incl (keys (operators (set_comment (PStr "why") (cur new_cursor))))
       modifier_names.
Proof.
  apply (modifiers_wrap_filter (set_comment (PStr "why") (cur new_cursor))).
  - reflexivity.
  - reflexivity.
Defined.

Lemma get_set k k' v d :
  dict_get k (dict_set k' v d)
  = if String.eqb k k' then Some v else dict_get k d.
Proof.
  induction d as [|[k0 v0] d IH]; cbn; [reflexivity|].
  destruct (String.eqb k' k0) eqn:E0; cbn.
  - apply String.eqb_eq in E0. subst k0.
    destruct (String.eqb k k'); reflexivity.
  - rewrite IH. destruct (String.eqb k k') eqn:E; [|reflexivity].
    apply String.eqb_eq in E. subst k. rewrite E0. reflexivity.
Qed.

Lemma get_absent k d : ~ In k (keys d) -> dict_get k d = None.
Proof.
  induction d as [|[k0 v0] d IH]; cbn; intros N; [reflexivity|].
  destruct (String.eqb k k0) eqn:E.
  - apply String.eqb_eq in E. exfalso. apply N. left. symmetry. exact E.
  - apply IH. intros I. apply N. right. exact I.
Qed.

Lemma get_update k : forall other d,
  NoDup (keys other) ->
  dict_get k (dict_update d other)
  = match dict_get k other with
    | Some v => Some v
    | None => dict_get k d
    end.
Proof.
  unfold dict_update.
  induction other as [|[k' v'] other IH]; intros d N; cbn; [reflexivity|].
  cbn in N. inversion N as [|? ? Nk N']; subst.
  rewrite (IH _ N'), get_set.
  destruct (String.eqb k k') eqn:E; [|reflexivity].
  apply String.eqb_eq in E. subst k'.
  rewrite (get_absent _ _ Nk). reflexivity.
Qed.

Lemma get_put_if k b k' v d :
  dict_get k (put_if b k' v d)
  = if b && String.eqb k k' then Some v else dict_get k d.
Proof. unfold put_if. destruct b; [apply get_set|reflexivity]. Qed.

Lemma explain_operator c :
  _explain c = true ->
  dict_get "$explain" (query_spec_of c) = Some (PBool true).
Proof.
  intros X.
  assert (G : dict_get "$explain" (operators c) = Some (PBool true)).
  { unfold operators. rewrite !get_put_if. cbn.
    rewrite ?andb_false_r, X. reflexivity. }
  assert (T : truthy_doc (operators c) = true).
  { destruct (operators c); [discriminate G|reflexivity]. }
  unfold query_spec_of. rewrite T.
  rewrite get_update, G; [reflexivity|].
  exact (selection_nodup _ _ (operators_selection c) modifier_names_nodup).
Qed.

(** ** Clones *)

(** The clone of a cursor, when the constructor accepts the defaults. *)
Lemma clone_fields env c cl :
  clone env c = Ok cl ->
  cl = mkCursor None (_exhaust c) None false (session_property c)
         (is_some (session_property c)) None (_spec c) (_has_filter c)
         (_projection c) (_skip c) (_limit c) (_batch_size c) (_ordering c)
         (_max_scan c) (_explain c) (_comment c) (_max_time_ms c)
         (_max_await_time_ms c) (_max c) (_min c) (_collation c)
         (_return_key c) (_show_record_id c) (_allow_disk_use c)
         (_snapshot c) (_hint c) (_empty c) [] None 0 None (_query_flags c)
         (_cursor_type c) (database_name env) (collection_name env) true.
Proof.
  open_cursor c.
  unfold clone, _clone, _clone_base, __init__, _supports_exhaust, clone_args,
    session_property. run. cbn.
  destruct (validate_collation_or_none env PNone); [|discriminate].
  cbn. intros E. inversion E. reflexivity.
Qed.

Lemma popleft_trace w : trace (snd (popleft w)) = trace w.
Proof.
  unfold popleft. run. destruct (_data (cur w)); reflexivity.
Qed.

Lemma next_emits env w :
  _exhaust_checked (cur w) = true ->
  emitted (next env) w
  = if _empty (cur w) then [] else emitted (_refresh env) w.
Proof.
  intros C. unfold emitted. rewrite (next_unfold env w C).
  destruct (_empty (cur w)).
  - cbn. apply (emitted_same (fun w => (Ok tt, w))). reflexivity.
  - destruct (_refresh env w) as [[n|e] w1]; cbn [snd]; [|reflexivity].
    destruct (truthy_Z n); [|reflexivity].
    rewrite popleft_trace. reflexivity.
Qed.

Lemma emitted_on_clone {A} (c : Cursor) (m : M A) w :
  emitted (on_clone c m) w = emitted m (mkWorld c (trace w) (clock w)).
Proof.
  unfold emitted, on_clone.
  destruct (m (mkWorld c (trace w) (clock w))) as [r w1]. reflexivity.
Qed.

(** X14.  A clone is unevaluated, whatever the state of the cursor it is
    made from: it is okay to chain, its buffer is empty, it is not killed,
    it has no address and no connection manager.  The session it holds is
    the session the caller gave the original, and none when the caller gave
    none: an implicit session of the original is never handed to the
    clone, and the clone counts its session as explicit exactly when it
    holds one.  It keeps the empty mark of the original; it does not carry
    [let], which is not among the cloned values; and it satisfies the
    invariant of cursors when the batch size of the original is not
    negative. *)
Theorem clone_is_unevaluated (env : Env) (c cl : Cursor) :
  clone env c = Ok cl ->
  okay_to_chain cl = true /\ _data cl = [] /\ _killed cl = false /\
  _address cl = None /\ _sock_mgr cl = None /\
  _session cl = (if _explicit_session c then _session c else None) /\
  (_explicit_session c = false -> _session cl = None) /\
  _explicit_session cl = is_some (_session cl) /\
  session_property cl = session_property c /\
  _let cl = None /\ _empty cl = _empty c /\
  (0 <= _batch_size c -> inv cl).
Proof.
  intros H. apply clone_fields in H. subst cl.
  open_cursor c. unfold session_property. cbn.
  repeat split; try reflexivity; try discriminate.
  - intros ->. reflexivity.
  - destruct c_explicit; [destruct c_session|]; reflexivity.
  - assumption.
Qed.

Lemma clone_is_unevaluated_witness :
  let c := cur two_of_five in
  let cl := the_clone Examples.two_then_one (cur two_of_five) in
  okay_to_chain cl = true /\ _data cl = [] /\ _killed cl = false /\
  _address cl = None /\ _sock_mgr cl = None /\
  _session cl = (if _explicit_session c then _session c else None) /\
  (_explicit_session c = false -> _session cl = None) /\
  _explicit_session cl = is_some (_session cl) /\
  session_property cl = session_property c /\
  _let cl = None /\ _empty cl = _empty c /\
  (0 <= _batch_size c -> inv cl).
Proof.
  apply (clone_is_unevaluated Examples.two_then_one (cur two_of_five)
           (the_clone Examples.two_then_one (cur two_of_five))).
  vm_compute. reflexivity.
Defined.

Lemma clone_query_spec env c cl :
  clone env c = Ok cl -> truthy_optdoc (_let c) = false ->
  query_spec_of cl = query_spec_of c.
Proof.
  intros H L. apply clone_fields in H. subst cl.
  open_cursor c. cbn in L.
  unfold query_spec_of, operators. cbn. rewrite L. reflexivity.
Qed.

(** X15.  The first exchange of a clone is the query of the original: if
    refreshing a clone sends an operation, the operation is a query with
    the skip, the limit, the batch size, the flags, the projection, the
    collation, the disk-use and the exhaust marks of the original, and with
    the spec of the original when the original has no [let]. *)
Theorem clone_sends_configured_query (env : Env) (c cl : Cursor)
    (t : list event) (n : nat) (op : operation) :
  clone env c = Ok cl ->
  In (EvRunOperation op) (emitted (_refresh env) (mkWorld cl t n)) ->
  exists q,
    op = OpQuery q /\
    q_ntoskip q = _skip c /\ q_limit q = _limit c /\
    q_batch_size q = _batch_size c /\ q_flags q = _query_flags c /\
    q_fields q = _projection c /\ q_collation q = _collation c /\
    q_allow_disk_use q = _allow_disk_use c /\ q_exhaust q = _exhaust c /\
    (truthy_optdoc (_let c) = false -> q_spec q = query_spec_of c).
Proof.
  intros H I.
  pose proof (clone_query_spec env c cl H) as Q.
  apply clone_fields in H.
  apply unstarted_sends in I as (rp & sess & E); [|subst cl; reflexivity].
  eexists. split; [exact E|]. cbn [cur] in *. subst cl. cbn in *.
  repeat split; try reflexivity. exact Q.
Qed.

Lemma clone_sends_configured_query_witness :
  exists q,
    OpQuery (mkQuery 0 "db" "coll" 0 [] None 0%nat 5 0 None (Some 1%nat) None
               false) = OpQuery q /\
    q_ntoskip q = _skip (cur two_of_five) /\
    q_limit q = _limit (cur two_of_five) /\
    q_batch_size q = _batch_size (cur two_of_five) /\
    q_flags q = _query_flags (cur two_of_five) /\
    q_fields q = _projection (cur two_of_five) /\
    q_collation q = _collation (cur two_of_five) /\
    q_allow_disk_use q = _allow_disk_use (cur two_of_five) /\
    q_exhaust q = _exhaust (cur two_of_five) /\
    (truthy_optdoc (_let (cur two_of_five)) = false ->
     q_spec q = query_spec_of (cur two_of_five)).
Proof.
  apply (clone_sends_configured_query Examples.two_then_one
           (cur two_of_five) (the_clone Examples.two_then_one (cur two_of_five)) [] 0).
  - vm_compute. reflexivity.
  - vm_compute. right. left. reflexivity.
Defined.

(** ** [explain] *)

Lemma explain_unfold env w :
  explain env w =
  match clone env (cur w) with
  | Ok cl => on_clone (explained cl) (next env) w
  | Raise e => (Raise e, w)
  end.
Proof.
  unfold explain, explained. run.
  destruct (clone env (cur w)); reflexivity.
Qed.

(** X16.  [explain] always asks with a hard limit and never changes the
    cursor it is called on: an operation [explain] sends is a query whose
    limit is minus the absolute value of the limit of the cursor, whose
    spec holds [$explain: True], and whose skip and flags are those of the
    cursor; the cursor itself is left as it was. *)
Theorem explain_sends_hard_limit (env : Env) (w : World) (op : operation) :
  In (EvRunOperation op) (emitted (explain env) w) ->
  exists q,
    op = OpQuery q /\
    q_limit q = - Z.abs (_limit (cur w)) /\
    dict_get "$explain" (q_spec q) = Some (PBool true) /\
    q_ntoskip q = _skip (cur w) /\ q_flags q = _query_flags (cur w) /\
    cur (snd (explain env w)) = cur w.
Proof.
  unfold emitted. rewrite explain_unfold.
  destruct (clone env (cur w)) as [cl|e] eqn:C.
  2:{ cbn [snd]. rewrite skipn_all. intros []. }
  apply clone_fields in C.
  assert (F : _id (explained cl) = None /\
              _exhaust_checked (explained cl) = true /\
              _explain (explained cl) = true /\
              _limit (explained cl) = - Z.abs (_limit (cur w)) /\
              _skip (explained cl) = _skip (cur w) /\
              _query_flags (explained cl) = _query_flags (cur w)).
  { unfold explained. subst cl. cbn. unfold truthy_Z.
    destruct (_limit (cur w) =? 0) eqn:E; cbn; repeat split; try reflexivity.
    apply Z.eqb_eq in E. rewrite E. reflexivity. }
  destruct F as (Fi & Fc & Fx & Fl & Fs & Ff).
  intros I.
  change (In (EvRunOperation op)
            (emitted (on_clone (explained cl) (next env)) w)) in I.
  rewrite emitted_on_clone, next_emits in I by exact Fc.
  cbn [cur] in I.
  destruct (_empty (explained cl)); [contradiction|].
  apply unstarted_sends in I as (rp & sess & E); [|exact Fi].
  cbn [cur] in E. eexists. split; [exact E|]. cbn.
  repeat split; try assumption.
  - apply explain_operator, Fx.
  - unfold on_clone. destruct (next env _). reflexivity.
Qed.

Lemma explain_sends_hard_limit_witness :
  exists q,
    OpQuery explain_query = OpQuery q /\
    q_limit q = - Z.abs (_limit (cur new_with_limit)) /\
    dict_get "$explain" (q_spec q) = Some (PBool true) /\
    q_ntoskip q = _skip (cur new_with_limit) /\
    q_flags q = _query_flags (cur new_with_limit) /\
    cur (snd (explain Examples.two_then_one new_with_limit))
    = cur new_with_limit.
Proof.
  apply (explain_sends_hard_limit Examples.two_then_one new_with_limit
           (OpQuery explain_query)).
  vm_compute. right. left. reflexivity.
Defined.

(** X17.  [explain] on a cursor that a zero-width slice has emptied asks
    nothing: the clone inherits the empty mark, so that the call raises
    [StopIteration] without any exchange and leaves everything as it
    was. *)
Theorem explain_of_empty_cursor (env : Env) (w : World) (cl : Cursor) :
  clone env (cur w) = Ok cl -> _empty (cur w) = true ->
  explain env w = (Raise StopIteration, w).
Proof.
  intros C E. rewrite explain_unfold, C.
  apply clone_fields in C.
  unfold on_clone.
  rewrite next_unfold by (unfold explained; subst cl; cbn;
                          destruct (truthy_Z _); reflexivity).
  assert (X : _empty (explained cl) = true).
  { unfold explained. subst cl. cbn. destruct (truthy_Z _); exact E. }
  cbn [cur]. rewrite X. reflexivity.
Qed.

Lemma explain_of_empty_cursor_witness :
  explain Examples.two_then_one emptied = (Raise StopIteration, emptied).
Proof.
  apply (explain_of_empty_cursor Examples.two_then_one emptied
           (the_clone Examples.two_then_one (cur emptied))).
  - vm_compute. reflexivity.
  - reflexivity.
Defined.

(** ** Integer indices *)

Lemma getitem_index_unfold env index w :
  __getitem__index env index w =
  if negb (okay_to_chain (cur w)) then (Raise InvalidOperation, w)
  else
    let w0 := mkWorld (set_empty false (cur w)) (trace w) (clock w) in
    if index <? 0 then (Raise IndexError, w0)
    else match clone env (cur w0) with
         | Raise e => (Raise e, w0)
         | Ok cl =>
             if index + _skip (cur w) <? 0 then (Raise ValueError, w0)
             else if _exhaust (cur w) then (Raise InvalidOperation, w0)
             else on_clone (indexed index (cur w) cl)
                    (try_catch (next env) no_such_item) w0
         end.
Proof.
  open_world w.
  unfold __getitem__index, okay_to_chain, _check_okay_to_chain, clone, _clone,
    _clone_base, __init__, _supports_exhaust, clone_args, on_clone, indexed,
    skip, limit, _check_okay_to_chain.
  run. cbn.
  destruct (truthy_Z c_retrieved || is_some c_id); cbn; [reflexivity|].
  destruct (index <? 0); cbn; [reflexivity|].
  destruct (validate_collation_or_none env PNone); cbn; [|reflexivity].
  destruct (index + c_skip <? 0); cbn; [reflexivity|].
  destruct c_exhaust; cbn; reflexivity.
Qed.

Lemma no_such_item_trace env w :
  trace (snd (try_catch (next env) no_such_item w)) = trace (snd (next env w)).
Proof.
  unfold try_catch. destruct (next env w) as [[d|e] w1]; [reflexivity|].
  destruct e; reflexivity.
Qed.

Lemma land_lnot_same f m : Z.land (Z.land f (Z.lnot m)) m = 0.
Proof.
  rewrite <- Z.land_assoc, (Z.land_comm (Z.lnot m) m), Z.land_lnot_diag.
  apply Z.land_0_r.
Qed.

(** X18.  An integer index runs one query on a clone: an operation that
    [cursor[index]] sends is a query that skips the index on top of the
    skip of the cursor, has the hard limit [-1], has none of the tailable
    and await flags, and keeps the batch size; it is sent only for an index
    that is not negative, on a cursor that is okay to chain and is not an
    exhaust cursor. *)
Theorem index_runs_hard_limit_query (env : Env) (index : Z) (w : World)
    (op : operation) :
  In (EvRunOperation op) (emitted (__getitem__index env index) w) ->
  okay_to_chain (cur w) = true /\ 0 <= index /\ _exhaust (cur w) = false /\
  exists q,
    op = OpQuery q /\
    q_ntoskip q = index + _skip (cur w) /\ q_limit q = -1 /\
    Z.land (q_flags q) CursorType.TAILABLE_AWAIT = 0 /\
    q_batch_size q = _batch_size (cur w).
Proof.
  unfold emitted. rewrite getitem_index_unfold.
  destruct (okay_to_chain (cur w)); cbn [negb];
    [|cbn [snd]; rewrite skipn_all; intros []].
  cbn zeta.
  destruct (index <? 0) eqn:L;
    [cbn [snd trace]; rewrite skipn_all; intros []|].
  apply Z.ltb_ge in L.
  destruct (clone env _) as [cl|e] eqn:C;
    [|cbn [snd trace]; rewrite skipn_all; intros []].
  destruct (index + _skip (cur w) <? 0);
    [cbn [snd trace]; rewrite skipn_all; intros []|].
  destruct (_exhaust (cur w)) eqn:X;
    [cbn [snd trace]; rewrite skipn_all; intros []|].
  intros I. repeat split; [exact L|].
  apply clone_fields in C. cbn in C.
  set (w0 := mkWorld (set_empty false (cur w)) (trace w) (clock w)) in *.
  change (In (EvRunOperation op)
            (emitted (on_clone (indexed index (cur w) cl)
                        (try_catch (next env) no_such_item)) w0)) in I.
  rewrite emitted_on_clone in I.
  unfold emitted in I. rewrite no_such_item_trace in I.
  change (In (EvRunOperation op)
            (emitted (next env)
               (mkWorld (indexed index (cur w) cl) (trace w0) (clock w0)))) in I.
  rewrite next_emits in I by (subst cl; reflexivity).
  assert (E : _empty (indexed index (cur w) cl) = false) by reflexivity.
  cbn [cur] in I. rewrite E in I.
  apply unstarted_sends in I as (rp & sess & Q); [|subst cl; reflexivity].
  eexists. split; [exact Q|]. cbn [cur]. subst cl. cbn.
  repeat split; try reflexivity.
  exact (land_lnot_same _ CursorType.TAILABLE_AWAIT).
Qed.

Lemma index_runs_hard_limit_query_witness :
  okay_to_chain (cur new_cursor) = true /\ 0 <= 3 /\
  _exhaust (cur new_cursor) = false /\
  exists q,
    OpQuery index_query = OpQuery q /\
    q_ntoskip q = 3 + _skip (cur new_cursor) /\ q_limit q = -1 /\
    Z.land (q_flags q) CursorType.TAILABLE_AWAIT = 0 /\
    q_batch_size q = _batch_size (cur new_cursor).
Proof.
  apply (index_runs_hard_limit_query Examples.two_then_one 3 new_cursor
           (OpQuery index_query)).
  vm_compute. right. left. reflexivity.
Defined.

(** X19.  What an integer index does besides its query, on a cursor that
    is okay to chain: the cursor is left as it was but for its empty mark,
    which is cleared; the call never raises [StopIteration] (the end of the
    clone is an [IndexError]); a negative index raises [IndexError], an
    index that makes the skip negative raises [ValueError], and an exhaust
    cursor cannot be indexed, the hard limit of the clone being refused
    with [InvalidOperation]; none of the three contacts the server. *)
Theorem index_refusals (env : Env) (index : Z) (w : World) (cl : Cursor) :
  okay_to_chain (cur w) = true ->
  clone env (set_empty false (cur w)) = Ok cl ->
  let w0 := mkWorld (set_empty false (cur w)) (trace w) (clock w) in
  cur (snd (__getitem__index env index w)) = set_empty false (cur w) /\
  fst (__getitem__index env index w) <> Raise StopIteration /\
  (index < 0 -> __getitem__index env index w = (Raise IndexError, w0)) /\
  (0 <= index -> index + _skip (cur w) < 0 ->
   __getitem__index env index w = (Raise ValueError, w0)) /\
  (0 <= index -> 0 <= index + _skip (cur w) -> _exhaust (cur w) = true ->
   __getitem__index env index w = (Raise InvalidOperation, w0)).
Proof.
  intros O C. cbn zeta. rewrite getitem_index_unfold. cbn zeta.
  rewrite O. cbn [negb cur]. rewrite C.
  repeat split.
  - destruct (index <? 0); [reflexivity|].
    destruct (index + _skip (cur w) <? 0); [reflexivity|].
    destruct (_exhaust (cur w)); [reflexivity|].
    unfold on_clone. destruct (try_catch _ _ _). reflexivity.
  - destruct (index <? 0); [discriminate|].
    destruct (index + _skip (cur w) <? 0); [discriminate|].
    destruct (_exhaust (cur w)); [discriminate|].
    unfold on_clone, try_catch.
    destruct (next env _) as [[d|e] w1]; [discriminate|].
    destruct e; cbn; discriminate.
  - intros L. apply Z.ltb_lt in L. rewrite L. reflexivity.
  - intros L S. apply Z.ltb_ge in L. apply Z.ltb_lt in S.
    rewrite L, S. reflexivity.
  - intros L S X. apply Z.ltb_ge in L, S. rewrite L, S, X. reflexivity.
Qed.

Lemma index_refusals_witness :
  let w0 := mkWorld (set_empty false (cur exhaust_cursor))
              (trace exhaust_cursor) (clock exhaust_cursor) in
  cur (snd (__getitem__index Examples.two_then_one 3 exhaust_cursor))
  = set_empty false (cur exhaust_cursor) /\
  fst (__getitem__index Examples.two_then_one 3 exhaust_cursor)
  <> Raise StopIteration /\
  (3 < 0 ->
   __getitem__index Examples.two_then_one 3 exhaust_cursor
   = (Raise IndexError, w0)) /\
  (0 <= 3 -> 3 + _skip (cur exhaust_cursor) < 0 ->
   __getitem__index Examples.two_then_one 3 exhaust_cursor
   = (Raise ValueError, w0)) /\
  (0 <= 3 -> 0 <= 3 + _skip (cur exhaust_cursor) ->
   _exhaust (cur exhaust_cursor) = true ->
   __getitem__index Examples.two_then_one 3 exhaust_cursor
   = (Raise InvalidOperation, w0)).
Proof.
  apply (index_refusals Examples.two_then_one 3 exhaust_cursor
           (the_clone Examples.two_then_one
              (set_empty false (cur exhaust_cursor)))).
  - reflexivity.
  - vm_compute. reflexivity.
Defined.

(** ** Exhaust, its flag and the limit *)

Lemma has_exhaust_bit f : has_flag f QUERY_OPTIONS.exhaust = Z.testbit f 6.
Proof.
  unfold has_flag, truthy_Z, QUERY_OPTIONS.exhaust.
  assert (E : Z.land f 64 = if Z.testbit f 6 then 64 else 0).
  { apply Z.bits_inj'. intros n Hn. rewrite Z.land_spec.
    change 64 with (2 ^ 6). rewrite (Z.pow2_bits_eqb 6 n) by lia.
    destruct (6 =? n) eqn:E.
    - apply Z.eqb_eq in E. subst n.
      destruct (Z.testbit f 6); reflexivity.
    - rewrite andb_false_r.
      destruct (Z.testbit f 6).
      + change 64 with (2 ^ 6).
        rewrite (Z.pow2_bits_eqb 6 n) by lia. rewrite E. reflexivity.
      + rewrite Z.bits_0. reflexivity. }
  rewrite E. destruct (Z.testbit f 6); reflexivity.
Qed.

Lemma has_exhaust_lor f m :
  has_flag (Z.lor f m) QUERY_OPTIONS.exhaust
  = has_flag f QUERY_OPTIONS.exhaust || has_flag m QUERY_OPTIONS.exhaust.
Proof. rewrite !has_exhaust_bit. apply Z.lor_spec. Qed.

Lemma has_exhaust_clear f m :
  has_flag (Z.land f (Z.lnot m)) QUERY_OPTIONS.exhaust
  = has_flag f QUERY_OPTIONS.exhaust && negb (has_flag m QUERY_OPTIONS.exhaust).
Proof.
  rewrite !has_exhaust_bit, Z.land_spec, Z.lnot_spec by lia. reflexivity.
Qed.

Lemma type_exhaust_bit ct :
  existsb (Z.eqb ct)
    [CursorType.NON_TAILABLE; CursorType.TAILABLE; CursorType.TAILABLE_AWAIT;
     CursorType.EXHAUST] = true ->
  has_flag ct QUERY_OPTIONS.exhaust = (ct =? CursorType.EXHAUST).
Proof.
  cbn. rewrite orb_false_r, !orb_true_iff, !Z.eqb_eq.
  intros [H|[H|[H|H]]]; subst ct; reflexivity.
Qed.

Lemma or_flag_exhaust b m f :
  has_flag m QUERY_OPTIONS.exhaust = false ->
  has_flag (or_flag b m f) QUERY_OPTIONS.exhaust
  = has_flag f QUERY_OPTIONS.exhaust.
Proof.
  intros H. unfold or_flag. destruct b; [|reflexivity].
  rewrite has_exhaust_lor, H. apply orb_false_r.
Qed.

Lemma init_agrees env a c :
  __init__ env a = Ok c -> exhaust_agrees c /\ exhaust_excludes_limit c.
Proof.
  unfold exhaust_agrees, exhaust_excludes_limit.
  unfold __init__, _supports_exhaust. run.
  destruct (existsb _ _) eqn:T; cbn [negb]; [|discriminate].
  apply type_exhaust_bit in T.
  destruct (a_batch_size a <? 0); [discriminate|].
  destruct (if truthy (a_sort a) then _ else _); [|discriminate].
  destruct (validate_collation_or_none env _); [|discriminate].
  destruct (hint_value env _); [|discriminate].
  cbn.
  destruct (a_cursor_type a =? CursorType.EXHAUST) eqn:X.
  - destruct (is_mongos env); [discriminate|].
    destruct (truthy_Z (a_limit a)) eqn:L; [discriminate|].
    intros E; inversion E; subst; clear E; cbn.
    rewrite !or_flag_exhaust by reflexivity. rewrite T.
    split; [reflexivity|]. intros _.
    unfold truthy_Z in L. apply negb_false_iff, Z.eqb_eq in L. exact L.
  - intros E; inversion E; subst; clear E; cbn.
    rewrite !or_flag_exhaust by reflexivity. rewrite T.
    split; [reflexivity|discriminate].
Qed.

Lemma setter_agrees env s w :
  exhaust_agrees (cur w) -> exhaust_agrees (cur (snd (run_setter env s w))).
Proof.
  unfold exhaust_agrees. open_world w. cbn. intros A.
  destruct s; cbn [run_setter]; setter_defs; run; cbn;
    repeat step; cbn; try assumption;
    rewrite ?has_exhaust_lor, ?has_exhaust_clear.
  all: repeat match goal with
         | H : has_flag _ QUERY_OPTIONS.exhaust = _ |- _ => rewrite H
         end; cbn; rewrite ?orb_true_r, ?orb_false_r, ?andb_true_r, ?andb_false_r;
       try reflexivity; try assumption.
Qed.

Lemma frame_exhaust c c' : frame c' = frame c -> _exhaust c' = _exhaust c.
Proof. intros H. exact (f_equal _exhaust H). Qed.

Lemma slice_keeps_flags start stop stride w :
  _exhaust (cur (snd (__getitem__ start stop stride w))) = _exhaust (cur w) /\
  _query_flags (cur (snd (__getitem__ start stop stride w)))
  = _query_flags (cur w).
Proof.
  open_world w. setter_defs; run; cbn. repeat step; split; reflexivity.
Qed.

Lemma perform_agrees env k w :
  inv (cur w) -> exhaust_agrees (cur w) -> exhaust_agrees (cur (after env k w)).
Proof.
  intros I A.
  destruct (is_configuration k) eqn:C.
  - destruct k; try discriminate; unfold after; cbn [perform].
    + apply setter_agrees, A.
    + unfold exhaust_agrees.
      destruct (slice_keeps_flags start stop step w) as [-> ->]. exact A.
  - pose proof (stable_frame env k w I C) as F.
    unfold exhaust_agrees.
    rewrite (frame_exhaust _ _ F), (frame_flags _ _ F). exact A.
Qed.

(** X20.  The exhaust attribute of a cursor and the exhaust bit of its
    query flags never disagree: on every cursor a program can have, the
    attribute is set exactly when the bit is, so that the operations the
    cursor sends carry a flag word and an exhaust mark that agree. *)
Theorem exhaust_flag_agrees (env : Env) (w : World) :
  reachable env w -> exhaust_agrees (cur w).
Proof.
  induction 1 as [a c H | w k R IH].
  - apply (init_agrees env a c H).
  - apply perform_agrees; [apply (reachable_inv env), R|exact IH].
Qed.

Lemma exhaust_flag_agrees_witness :
  exhaust_agrees
    (cur (after Examples.two_then_one
            (Configure (Set_remove_option QUERY_OPTIONS.exhaust))
            exhaust_cursor)).
Proof.
  apply (exhaust_flag_agrees Examples.two_then_one
           (after Examples.two_then_one
              (Configure (Set_remove_option QUERY_OPTIONS.exhaust))
              exhaust_cursor)).
  apply reach_call.
  apply (reach_init _ (Examples.with_type CursorType.EXHAUST
                         Examples.find_args)).
  vm_compute. reflexivity.
Defined.

Lemma setter_excludes env s w :
  exhaust_excludes_limit (cur w) ->
  exhaust_excludes_limit (cur (snd (run_setter env s w))).
Proof.
  unfold exhaust_excludes_limit. open_world w. cbn. intros A.
  destruct s; cbn [run_setter]; setter_defs; run; cbn;
    repeat step; cbn; try assumption; try discriminate; try reflexivity.
Qed.

Lemma unsliced_reachable env w : unsliced env w -> reachable env w.
Proof.
  induction 1 as [a c H | w k _ IH _].
  - apply (reach_init env a c H).
  - apply reach_call, IH.
Qed.

Lemma frame_limit_exhaust c c' :
  frame c' = frame c -> exhaust_excludes_limit c -> exhaust_excludes_limit c'.
Proof.
  unfold exhaust_excludes_limit. intros F H.
  rewrite (frame_exhaust _ _ F), (frame_limit _ _ F). exact H.
Qed.

(** X21.  The constructor, the setters, the advance operations, [close]
    and [rewind] never leave an exhaust cursor with a limit: on every
    cursor a program reaches without slicing, the exhaust attribute is set
    only when the limit is zero.  (A slice sets the limit without this
    check.) *)
Theorem exhaust_never_meets_limit (env : Env) (w : World) :
  unsliced env w -> exhaust_excludes_limit (cur w).
Proof.
  induction 1 as [a c H | w k U IH N].
  - apply (init_agrees env a c H).
  - pose proof (reachable_inv env w (unsliced_reachable env w U)) as I.
    destruct k as [s| | | |]; try discriminate.
    + apply setter_excludes, IH.
    + exact (frame_limit_exhaust _ _ (stable_frame env (Advance a) w I eq_refl) IH).
    + exact (frame_limit_exhaust _ _ (stable_frame env Close w I eq_refl) IH).
    + exact (frame_limit_exhaust _ _ (stable_frame env Rewind w I eq_refl) IH).
Qed.

Lemma exhaust_never_meets_limit_witness :
  exhaust_excludes_limit
    (cur (after Examples.two_then_one (Configure (Set_limit 4))
            exhaust_cursor)).
Proof.
  apply (exhaust_never_meets_limit Examples.two_then_one
           (after Examples.two_then_one (Configure (Set_limit 4))
              exhaust_cursor)).
  apply unsliced_call.
  - apply (unsliced_init _ (Examples.with_type CursorType.EXHAUST
                              Examples.find_args)).
    vm_compute. reflexivity.
  - reflexivity.
Defined.

(** ** Slices *)

Lemma getitem_closed (start stop step : option Z) (w : World) :
  okay_to_chain (cur w) = true ->
  __getitem__ start stop step w =
  if slice_ok start stop step
  then (Ok tt,
        mkWorld (set_limit (slice_limit start stop)
                   (set_skip (slice_skip start)
                      (set_empty (is_some stop
                                  && (slice_limit start stop =? 0))
                         (cur w))))
          (trace w) (clock w))
  else (Raise IndexError,
        mkWorld (set_empty false (cur w)) (trace w) (clock w)).
Proof.
  open_world w. unfold okay_to_chain, slice_ok, slice_limit, slice_skip. cbn.
  intros O. apply negb_true_iff in O.
  setter_defs; run; cbn. rewrite O. cbn.
  destruct step; cbn; [reflexivity|].
  destruct start as [s|]; cbn.
  - destruct (s <? 0) eqn:S; cbn.
    + apply Z.ltb_lt in S.
      destruct (0 <=? s) eqn:S'; [apply Z.leb_le in S'; lia|reflexivity].
    + apply Z.ltb_ge in S.
      destruct (0 <=? s) eqn:S'; [|apply Z.leb_gt in S'; lia]. cbn.
      destruct stop as [e|]; cbn; [|reflexivity].
      destruct (e - s <? 0) eqn:L; cbn.
      * apply Z.ltb_lt in L.
        destruct (s <=? e) eqn:L'; [apply Z.leb_le in L'; lia|reflexivity].
      * apply Z.ltb_ge in L.
        destruct (s <=? e) eqn:L'; [|apply Z.leb_gt in L'; lia].
        destruct (e - s =? 0); reflexivity.
  - destruct stop as [e|]; cbn; [|reflexivity].
    rewrite Z.sub_0_r.
    destruct (e <? 0) eqn:L; cbn.
    + apply Z.ltb_lt in L.
      destruct (0 <=? e) eqn:L'; [apply Z.leb_le in L'; lia|reflexivity].
    + apply Z.ltb_ge in L.
      destruct (0 <=? e) eqn:L'; [|apply Z.leb_gt in L'; lia].
      destruct (e =? 0); reflexivity.
Qed.

(** X22.  A slice with acceptable bounds overrides the window of the
    cursor: on a cursor that is okay to chain, [cursor[start:stop]] returns,
    the skip is the start (zero without one) and the limit is the stop
    minus the skip (zero, no limit, without a stop), whatever skip and
    limit were set before; the exhaust attribute is left as it is, so that
    the check that keeps a limit off an exhaust cursor is not made; and the
    query the cursor then sends carries this skip and this limit. *)
Theorem slice_overrides_window (env : Env) (start stop : option Z)
    (w : World) :
  okay_to_chain (cur w) = true -> slice_ok start stop None = true ->
  let w' := snd (__getitem__ start stop None w) in
  fst (__getitem__ start stop None w) = Ok tt /\
  _skip (cur w') = slice_skip start /\
  _limit (cur w') = slice_limit start stop /\
  _exhaust (cur w') = _exhaust (cur w) /\
  forall q, In (EvRunOperation (OpQuery q)) (emitted (_refresh env) w') ->
    q_ntoskip q = slice_skip start /\ q_limit q = slice_limit start stop.
Proof.
  intros O S. cbn zeta. rewrite (getitem_closed start stop None w O), S.
  cbn [fst snd cur].
  assert (N : _id (cur w) = None).
  { open_world w. cbn in *. unfold okay_to_chain in O. cbn in O.
    apply negb_true_iff, orb_false_iff in O.
    destruct O as [_ O]. destruct c_id; [discriminate O|reflexivity]. }
  repeat split.
  all: apply unstarted_sends in H as (rp & sess & E); [|exact N].
  all: injection E as E; subst q; reflexivity.
Qed.

Lemma slice_overrides_window_witness :
  let w' := snd (__getitem__ (Some 2) (Some 6) None exhaust_cursor) in
  fst (__getitem__ (Some 2) (Some 6) None exhaust_cursor) = Ok tt /\
  _skip (cur w') = slice_skip (Some 2) /\
  _limit (cur w') = slice_limit (Some 2) (Some 6) /\
  _exhaust (cur w') = _exhaust (cur exhaust_cursor) /\
  forall q,
    In (EvRunOperation (OpQuery q))
       (emitted (_refresh Examples.two_then_one) w') ->
    q_ntoskip q = slice_skip (Some 2) /\
    q_limit q = slice_limit (Some 2) (Some 6).
Proof.
  apply (slice_overrides_window Examples.two_then_one (Some 2) (Some 6)
           exhaust_cursor).
  - reflexivity.
  - reflexivity.
Defined.

(** X23.  A slice that is refused still clears the empty mark: on a cursor
    that is okay to chain, a slice with a step, a negative start or a stop
    before the start raises [IndexError] and leaves the skip and the limit
    as they were, but the cursor is no longer marked empty, also when a
    zero-width slice had emptied it before. *)
Theorem failed_slice_clears_empty (start stop step : option Z) (w : World) :
  okay_to_chain (cur w) = true -> slice_ok start stop step = false ->
  let w' := snd (__getitem__ start stop step w) in
  fst (__getitem__ start stop step w) = Raise IndexError /\
  _skip (cur w') = _skip (cur w) /\ _limit (cur w') = _limit (cur w) /\
  _empty (cur w') = false.
Proof.
  intros O S. cbn zeta. rewrite (getitem_closed start stop step w O), S.
  repeat split.
Qed.

Lemma failed_slice_clears_empty_witness :
  let w' := snd (__getitem__ None None (Some 2) emptied) in
  fst (__getitem__ None None (Some 2) emptied) = Raise IndexError /\
  _skip (cur w') = _skip (cur emptied) /\
  _limit (cur w') = _limit (cur emptied) /\
  _empty (cur w') = false.
Proof.
  apply (failed_slice_clears_empty None None (Some 2) emptied).
  - reflexivity.
  - reflexivity.
Defined.

(** ** The count of retrieved documents *)

Lemma at_least_refresh env k w r w' :
  counts_are_natural env ->
  at_least k w -> _empty (cur w) = false -> refreshed env w r w' ->
  at_least k w'.
Proof.
  intros C [I H] E R. constructor; [eapply refreshed_inv; eassumption|].
  destruct (ensured_fields env w) as (_ & Er & _).
  assert (E0 : _retrieved (cur (preferred env (ensured env w)))
               = _retrieved (cur w)) by (rewrite <- Er; reflexivity).
  destruct R as [ | | | r w' _ _ _ _ X]; try (rewrite Er); try assumption.
  destruct X as [ _ | e r0 w0 evs _ _ _ _ _ _ _ Hr _ _ _
                | resp r0 w0 evs Fr _ _ _ _ _ _ Hx ].
  - rewrite E0. exact H.
  - rewrite Hr, E0. exact H.
  - specialize (C _ _ _ Fr).
    destruct Hx as [(_ & _ & _ & Hr & _) | (_ & _ & Hr & _)];
      rewrite Hr, E0; lia.
Qed.

(** X24.  The count of retrieved documents never decreases: with a server
    that never reports a negative number of documents, no sequence of
    advance operations leaves a cursor with a smaller count than it had. *)
Theorem retrieved_never_decreases (env : Env) (ops : list advance)
    (w : World) :
  counts_are_natural env -> inv (cur w) ->
  _retrieved (cur w) <= _retrieved (cur (snd (run_advances env ops w))).
Proof.
  intros C I.
  apply (@run_advances_keeps env (at_least (_retrieved (cur w)))
           (fun w' => @al_inv _ w')
           (fun w1 r w2 H E R => at_least_refresh env _ w1 r w2 C H E R)
           (fun w1 k H => mkAtLeast _ (consume k w1)
                            (inv_consume k w1 (al_inv _ _ H))
                            (al_retrieved _ _ H))
           ops w).
  constructor; [exact I|lia].
Qed.

Lemma two_then_one_counts : counts_are_natural Examples.two_then_one.
Proof.
  intros n op r H. cbn in H.
  destruct n; inversion H; subst; vm_compute; discriminate.
Qed.

Lemma retrieved_never_decreases_witness :
  _retrieved (cur two_of_five)
  <= _retrieved (cur (snd (run_advances Examples.two_then_one
                             [Next; ToList 3 (Some 4)] two_of_five))).
Proof.
  apply (retrieved_never_decreases Examples.two_then_one
           [Next; ToList 3 (Some 4)] two_of_five).
  - exact two_then_one_counts.
  - concrete_inv.
Defined.

(** ** Options *)

Lemma land_lor_same f m : Z.land (Z.lor f m) m = m.
Proof.
  apply Z.bits_inj'. intros n _. rewrite Z.land_spec, Z.lor_spec.
  destruct (Z.testbit f n), (Z.testbit m n); reflexivity.
Qed.

Lemma lor_then_clear f m :
  Z.land (Z.lor f m) (Z.lnot m) = Z.land f (Z.lnot m).
Proof.
  apply Z.bits_inj'. intros n Hn.
  rewrite !Z.land_spec, Z.lor_spec, Z.lnot_spec by exact Hn.
  destruct (Z.testbit f n), (Z.testbit m n); reflexivity.
Qed.

(** X25.  On a cursor that is okay to chain, [add_option(mask)] either
    returns and leaves every bit of the mask set in the query flags (and
    the exhaust attribute set when the mask has the exhaust bit), after
    which [remove_option(mask)] leaves the flags the cursor had with the
    bits of the mask cleared; or it raises [InvalidOperation] and changes
    nothing, which happens only for a mask with the exhaust bit on a cursor
    with a limit or of a mongos.  [remove_option(mask)] always returns and
    leaves no bit of the mask set, and the exhaust attribute cleared when
    the mask has the exhaust bit. *)
Theorem options_set_and_cleared (env : Env) (mask : Z) (w : World) :
  okay_to_chain (cur w) = true ->
  let wa := snd (add_option env mask w) in
  let wr := snd (remove_option mask w) in
  (fst (add_option env mask w) = Ok tt /\
   Z.land (_query_flags (cur wa)) mask = mask /\
   (has_flag mask QUERY_OPTIONS.exhaust = true -> _exhaust (cur wa) = true) /\
   _query_flags (cur (snd (remove_option mask wa)))
   = Z.land (_query_flags (cur w)) (Z.lnot mask)
   \/
   add_option env mask w = (Raise InvalidOperation, w) /\
   has_flag mask QUERY_OPTIONS.exhaust = true /\
   (truthy_Z (_limit (cur w)) = true \/ is_mongos env = true)) /\
  fst (remove_option mask w) = Ok tt /\
  Z.land (_query_flags (cur wr)) mask = 0 /\
  (has_flag mask QUERY_OPTIONS.exhaust = true -> _exhaust (cur wr) = false).
Proof.
  open_world w. unfold okay_to_chain. cbn. intros O.
  apply negb_true_iff in O.
  unfold add_option, remove_option, _check_okay_to_chain. run. cbn.
  rewrite O. cbn.
  destruct (has_flag mask QUERY_OPTIONS.exhaust) eqn:X; cbn.
  - split.
    + destruct (truthy_Z c_limit) eqn:L; cbn; [right; auto|].
      destruct (is_mongos env) eqn:Mg; cbn; [right; auto|].
      left. rewrite O. cbn.
      repeat split; [apply land_lor_same|apply lor_then_clear].
    + repeat split. apply land_lnot_same.
  - split.
    + left. rewrite O. cbn.
      repeat split; [apply land_lor_same|discriminate|apply lor_then_clear].
    + repeat split; [apply land_lnot_same|discriminate].
Qed.

Lemma options_set_and_cleared_witness :
  let wa := snd (add_option Examples.two_then_one QUERY_OPTIONS.exhaust
                   new_with_limit) in
  let wr := snd (remove_option QUERY_OPTIONS.exhaust new_with_limit) in
  (fst (add_option Examples.two_then_one QUERY_OPTIONS.exhaust new_with_limit)
   = Ok tt /\
   Z.land (_query_flags (cur wa)) QUERY_OPTIONS.exhaust
   = QUERY_OPTIONS.exhaust /\
   (has_flag QUERY_OPTIONS.exhaust QUERY_OPTIONS.exhaust = true ->
    _exhaust (cur wa) = true) /\
   _query_flags (cur (snd (remove_option QUERY_OPTIONS.exhaust wa)))
   = Z.land (_query_flags (cur new_with_limit))
       (Z.lnot QUERY_OPTIONS.exhaust)
   \/
   add_option Examples.two_then_one QUERY_OPTIONS.exhaust new_with_limit
   = (Raise InvalidOperation, new_with_limit) /\
   has_flag QUERY_OPTIONS.exhaust QUERY_OPTIONS.exhaust = true /\
   (truthy_Z (_limit (cur new_with_limit)) = true \/
    is_mongos Examples.two_then_one = true)) /\
  fst (remove_option QUERY_OPTIONS.exhaust new_with_limit) = Ok tt /\
  Z.land (_query_flags (cur wr)) QUERY_OPTIONS.exhaust = 0 /\
  (has_flag QUERY_OPTIONS.exhaust QUERY_OPTIONS.exhaust = true ->
   _exhaust (cur wr) = false).
Proof.
  apply (options_set_and_cleared Examples.two_then_one QUERY_OPTIONS.exhaust
           new_with_limit).
  reflexivity.
Defined.

(** ** The buffer is served first *)

Lemma min_with_enough (a n : Z) : 1 <= n -> n <= a -> Z.min a n = n.
Proof. lia. Qed.

(** X26.  Buffered documents are handed out first, oldest first, without
    any exchange: on a cursor that is not marked empty and has documents in
    its buffer, [next] returns the first of them and removes it, and
    [to_list(n)], for an [n] of at least one that the buffer can serve,
    returns the first [n] of them and removes them; neither issues an
    event, contacts the server or changes anything but the buffer. *)
Theorem buffer_is_served_first (env : Env) (w : World) (d : document)
    (ds : list document) :
  inv (cur w) -> _empty (cur w) = false -> _data (cur w) = d :: ds ->
  next env w = (Ok d, consume 1 w) /\
  forall n fuel, 1 <= n -> n <= len (d :: ds) ->
    to_list env (S fuel) (Some n) w
    = (Ok (firstn (Z.to_nat n) (d :: ds)), consume (Z.to_nat n) w).
Proof.
  intros I E D.
  assert (R : _refresh env w = (Ok (len (d :: ds)), w)).
  { rewrite <- D. apply refresh_idle. left. rewrite D. discriminate. }
  split.
  - rewrite (next_unfold env w (inv_checked _ I)), E, R, truthy_len_cons.
    apply (popleft_cons w d ds D).
  - intros n fuel N L. unfold to_list.
    destruct (n <? 1) eqn:N1; [apply Z.ltb_lt in N1; lia|].
    rewrite loop_unfold.
    rewrite (alive_buffer (cur w)) by (rewrite D; discriminate).
    rewrite (next_batch_unfold env [] (Some n) w (inv_checked _ I)), E, R.
    rewrite truthy_len_cons. cbn [fst snd negb app].
    unfold taken. rewrite D, (min_with_enough _ _ N L).
    assert (F : len (firstn (Z.to_nat n) (d :: ds)) = n).
    { unfold len in *. rewrite length_firstn, Nat.min_l by lia. lia. }
    rewrite F, Z.sub_diag. reflexivity.
Qed.

Lemma buffer_is_served_first_witness :
  next Examples.two_then_one closed_midway
  = (Ok (Examples.doc 2), consume 1 closed_midway) /\
  forall n fuel, 1 <= n -> n <= len [Examples.doc 2] ->
    to_list Examples.two_then_one (S fuel) (Some n) closed_midway
    = (Ok (firstn (Z.to_nat n) [Examples.doc 2]),
       consume (Z.to_nat n) closed_midway).
Proof.
  apply (buffer_is_served_first Examples.two_then_one closed_midway
           (Examples.doc 2) []).
  - concrete_inv.
  - reflexivity.
  - reflexivity.
Defined.

(** ** A response is stored *)

Lemma stored_fields r c :
  _id (stored r c) = Some (new_id r) /\
  _data (stored r c) = buffered r /\
  _retrieved (stored r c) = _retrieved c + counted r /\
  _address (stored r c) = Some (r_address r) /\
  _killed (stored r c) = _killed c /\
  _limit (stored r c) = _limit c.
Proof.
  unfold stored.
  destruct (reply_ns r) as [ns|]; [destruct (split_ns ns) as [[db coll]|]|];
    cbn; repeat split.
Qed.

(** X27.  A response is stored whole: when the server responds (and the
    namespace of a [find] reply, if any, has its dot), [_send_message]
    returns; the cursor then holds the cursor id and the batch of the
    response in place of what it held, has added the number of documents
    of the response to its retrieved count, and has the address of the
    server that answered; it is killed exactly when it was killed before,
    or the id is zero, or the limit is reached. *)
Theorem response_is_stored (env : Env) (op : operation) (w : World)
    (r : Response) :
  encrypter env && _exhaust (cur w) = false ->
  run_operation env (clock w) op = Responds r ->
  match reply_ns r with Some n => split_ns n <> None | None => True end ->
  let w' := snd (_send_message env op w) in
  fst (_send_message env op w) = Ok tt /\
  _id (cur w') = Some (new_id r) /\
  _data (cur w') = buffered r /\
  _retrieved (cur w') = _retrieved (cur w) + counted r /\
  _address (cur w') = Some (r_address r) /\
  _killed (cur w')
  = _killed (cur w) || (new_id r =? 0) || limit_reached (cur w') /\
  clock w' = S (clock w).
Proof.
  intros E R N. cbn zeta.
  rewrite (send_message_responded env op w r E R N). cbn zeta.
  destruct (stored_fields r (cur w)) as (Fi & Fd & Fr & Fa & Fk & Fl).
  assert (D : done (stored r (cur w))
              = (new_id r =? 0) || limit_reached (stored r (cur w))).
  { unfold done. rewrite Fi. reflexivity. }
  cbn [cur].
  destruct (done (stored r (cur w))) eqn:Dn.
  - unfold close, _die_lock. rewrite die_closed.
    assert (Dr : die_raises (stored r (cur w)) = false).
    { unfold die_raises. rewrite Fa. cbn. apply andb_false_r. }
    cbn [cur]. rewrite Dr. cbn [fst snd cur clock].
    assert (L : limit_reached (died (stored r (cur w)))
                = limit_reached (stored r (cur w))) by reflexivity.
    rewrite L.
    change (_killed (died (stored r (cur w)))) with true.
    repeat split; try assumption.
    rewrite <- orb_assoc, <- D. symmetry. apply orb_true_r.
  - cbn [fst snd cur clock].
    repeat split; try assumption.
    rewrite <- orb_assoc, <- D, orb_false_r. exact Fk.
Qed.

Lemma response_is_stored_witness :
  let r := mkResponse Examples.host None "find"
             (FromCommand [] 99 [Examples.doc 1; Examples.doc 2] None) in
  let w' := snd (_send_message Examples.two_then_one (OpQuery first_query)
                   new_cursor) in
  fst (_send_message Examples.two_then_one (OpQuery first_query) new_cursor)
  = Ok tt /\
  _id (cur w') = Some (new_id r) /\
  _data (cur w') = buffered r /\
  _retrieved (cur w') = _retrieved (cur new_cursor) + counted r /\
  _address (cur w') = Some (r_address r) /\
  _killed (cur w')
  = _killed (cur new_cursor) || (new_id r =? 0) || limit_reached (cur w') /\
  clock w' = S (clock new_cursor).
Proof.
  apply (response_is_stored Examples.two_then_one (OpQuery first_query)
           new_cursor
           (mkResponse Examples.host None "find"
              (FromCommand [] 99 [Examples.doc 1; Examples.doc 2] None))).
  - reflexivity.
  - reflexivity.
  - exact I.
Defined.

(** ** The constructor *)


(** ** The kill-cursors request of [close] *)

(** X29.  [close] asks the server to kill exactly the live cursors: on a
    cursor that holds a non-zero id and is not killed, the events of
    [close] begin with one kill-cursors request, which names this id, the
    address of the server the cursor was read from and the namespace of the
    cursor, and hold no other; on any other cursor [close] issues no
    kill-cursors request. *)
Theorem close_kills_live_cursor (w : World) :
  inv (cur w) ->
  count_if is_kill (emitted close w)
  = (if id_truthy (cur w) && negb (_killed (cur w)) then 1%nat else 0%nat) /\
  forall i a,
    _id (cur w) = Some i -> i <> 0 -> _killed (cur w) = false ->
    _address (cur w) = Some a ->
    emitted close w
    = EvKillCursors true i
        (Some (mkCursorAddress a (_dbname (cur w) ++ "." ++ _collname (cur w))))
      :: release_events (cur w).
Proof.
  intros I.
  assert (T : emitted close w
              = (kill_events true (cur w) ++ release_events (cur w))%list).
  { apply emitted_of. rewrite (close_returns w I). reflexivity. }
  rewrite T. split.
  - rewrite count_if_app, count_kill_events.
    destruct (release_events_count (cur w)) as [-> _].
    rewrite Nat.add_0_r.
    destruct (id_truthy (cur w)) eqn:Ti; [|reflexivity].
    pose proof (inv_address _ I Ti) as A.
    destruct (_address (cur w)); [|contradiction].
    cbn. rewrite andb_true_r. reflexivity.
  - intros i a Hi Ni K A. unfold kill_events. rewrite Hi, A, K.
    unfold truthy_Z. apply Z.eqb_neq in Ni. rewrite Ni. reflexivity.
Qed.

Lemma close_kills_live_cursor_witness :
  count_if is_kill (emitted close two_of_five)
  = (if id_truthy (cur two_of_five) && negb (_killed (cur two_of_five))
     then 1%nat else 0%nat) /\
  forall i a,
    _id (cur two_of_five) = Some i -> i <> 0 ->
    _killed (cur two_of_five) = false ->
    _address (cur two_of_five) = Some a ->
    emitted close two_of_five
    = EvKillCursors true i
        (Some (mkCursorAddress a
                 (_dbname (cur two_of_five) ++ "." ++
                  _collname (cur two_of_five))))
      :: release_events (cur two_of_five).
Proof.
  apply (close_kills_live_cursor two_of_five).
  concrete_inv.
Defined.
